(** * nix-store-clumpgc: retention planner for NixOS system generations

    A shallow embedding of [config/tools/nix-store-clumpgc.py] and the
    properties of its normaliser, scorer, smoother, window selector, tiered
    planner and state store.

    Conventions of the embedding.
    - A generation id is the [int] parsed from a run of digits: a [Z].
    - A timestamp is a timezone-aware UTC [datetime] with whole seconds (the
      listing is parsed to the second): the [Z] number of seconds since the
      epoch.  A [timedelta] is a [Z] number of seconds.
    - A Python [float] is idealised as an exact rational [Q]; [math.exp] is a
      variable of the development.  The window selector is written over the
      operations it applies to its floats, so that it can be run on exact
      rationals, as [main] does here, and on binary64 floats.
    - A [dict] is a [gmap], a [set] a [gset].  The state document is a JSON
      value as [json.load] returns it, of whatever shape; its keys are
      strings, [str(gid)] for the generations.
    - A computation that can raise returns an [option]; [None] is the
      uncaught exception (or, for the window loop, the absence of a result).
    - The commands that only read (listing the generations, the closures, the
      git statistics) are answers found in the [world]; writing the state file
      is taken to succeed. *)

From Stdlib Require Import ZArith QArith Qminmax Lqa Lia.
From Stdlib Require PrimFloat.
From stdpp Require Import gmap strings list sorting pretty.

Local Open Scope Z_scope.

(** ** Python helpers *)

(** [l[k]] with Python's negative indices; [None] is [IndexError]. *)
Definition py_index {A} (l : list A) (k : Z) : option A :=
  if decide (0 ≤ k) then l !! Z.to_nat k
  else if decide (- Z.of_nat (length l) ≤ k) then l !! Z.to_nat (Z.of_nat (length l) + k)
  else None.

(** Truth value of an [Optional[int]]: [None] and [0] are falsy. *)
Definition truthy (o : option Z) : bool :=
  match o with
  | Some n => negb (n =? 0)
  | None => false
  end.

(** [dict.get(k, d)]. *)
Definition dict_get {V} (m : gmap Z V) (k : Z) (d : V) : V := default d (m !! k).

(** [sorted] on integers. *)
Definition sorted (l : list Z) : list Z := merge_sort Z.le l.

(** [l.remove(x)] for an [x] known to occur: the first occurrence goes. *)
Fixpoint list_remove_first (x : Z) (l : list Z) : list Z :=
  match l with
  | [] => []
  | y :: r => if decide (x = y) then r else y :: list_remove_first x r
  end.

(** [x < y] on floats, as a boolean. *)
Definition Qlt_bool (x y : Q) : bool := negb (Qle_bool y x).

(** ** Time *)

Definition HOUR : Z := 3600.
Definition DAY : Z := 86400.

(** [ts.replace(minute=0, second=0, microsecond=0)]. *)
Definition floor_hour (ts : Z) : Z := HOUR * (ts / HOUR).

(** [ts.date()], as the number of the UTC calendar day. *)
Definition date_key (ts : Z) : Z := ts / DAY.

(** Proleptic Gregorian (year, month, day) of a day number, as [datetime]
    computes [dt.year], [dt.month], [dt.day]. *)
Definition civil_from_days (z : Z) : Z * Z * Z :=
  let z := z + 719468 in
  let era := z / 146097 in
  let doe := z - era * 146097 in
  let yoe := (doe - doe / 1460 + doe / 36524 - doe / 146096) / 365 in
  let doy := doe - (365 * yoe + yoe / 4 - yoe / 100) in
  let mp := (5 * doy + 2) / 153 in
  let d := doy - (153 * mp + 2) / 5 + 1 in
  let m := if mp <? 10 then mp + 3 else mp - 9 in
  let y := yoe + era * 400 in
  (if m <=? 2 then y + 1 else y, m, d).

Definition month_key (ts : Z) : Z :=
  let '(y, m, _) := civil_from_days (ts / DAY) in y * 100 + m.

(** ** booted_generations *)

(** [link_id] is the integer matched by [system-(\d+)-link] in the resolved
    [/run/current-system], [None] when nothing matches or resolving fails. *)
Definition booted_generations (link_id : option Z) : option Z * option Z :=
  let current := link_id in
  let prev :=
    match current with
    | Some c => Some (Z.max (c - 1) 1)
    | None => None
    end in
  (current, prev).

(** ** normalize *)

(** The inner [pct], with [v] the sorted values.  [int(0.05*(len(v)-1))] and
    [int(0.95*(len(v)-1))] are the integer parts of [(n-1)/20] and
    [19(n-1)/20]. *)
Definition pct (v : list Z) (x : Z) : Q :=
  if decide (length v = 1%nat) then 0%Q
  else
    let n1 := Z.of_nat (length v) - 1 in
    let p5 := nth (Z.to_nat (5 * n1 / 100)) v 0 in
    let p95 := nth (Z.to_nat (95 * n1 / 100)) v 0 in
    if decide (p95 = p5) then (if decide (x ≤ p5) then 0%Q else 1%Q)
    else Qmax 0 (Qmin 1 (inject_Z (x - p5) / inject_Z (p95 - p5))).

(** A dict comprehension [{k: f(k) for k in keys}]: later keys overwrite. *)
Definition dict_comprehension {V} (f : Z → V) (keys : list Z) : gmap Z V :=
  foldl (λ m k, <[k := f k]> m) ∅ keys.

Definition normalize (values : list Z) : gmap Z Q :=
  let arr := values in
  match arr with
  | [] => ∅
  | _ => let v := sorted arr in dict_comprehension (pct v) values
  end.

(** ** Features and the activity score (the first part of [main]) *)

(** What the collaborators answer during one run. *)
Record features := {
  closure_paths : Z → gset string;      (* closure_paths(gid), [set()] on failure *)
  git_lines_delta : Z → Z → Z;          (* git_lines_delta(repo, older_ts, newer_ts) *)
}.

(** The loop [for i in range(1, len(gens))] filling [lines_delta] and
    [paths_delta]; [p] is [gens[i-1]]. *)
Fixpoint delta_loop (ft : features) (p : Z * Z) (rest : list (Z * Z))
    (acc : gmap Z Z * gmap Z Z) : gmap Z Z * gmap Z Z :=
  match rest with
  | [] => acc
  | (gid, ts) :: rest' =>
      let '(gid_p, ts_p) := p in
      let ld := git_lines_delta ft ts_p ts in
      let added := Z.of_nat (size (closure_paths ft gid ∖ closure_paths ft gid_p)) in
      let removed := Z.of_nat (size (closure_paths ft gid_p ∖ closure_paths ft gid)) in
      delta_loop ft (gid, ts) rest'
        (<[gid := ld]> acc.1, <[gid := added + removed]> acc.2)
  end.

Definition deltas (ft : features) (gens : list (Z * Z)) : gmap Z Z * gmap Z Z :=
  match gens with
  | [] => (∅, ∅)
  | p :: rest => delta_loop ft p rest (∅, ∅)
  end.

(** [list(d.values())]; [normalize] sorts it, so only the multiset matters. *)
Definition dict_values (d : gmap Z Z) : list Z := (map_to_list d).*2.

Definition base : Q := 1 # 10.

(** The loop [for i, (gid, ts) in enumerate(gens)] filling [score]. *)
Fixpoint score_loop (lines_delta paths_delta : gmap Z Z) (norm_lines norm_paths : gmap Z Q)
    (i : nat) (gens : list (Z * Z)) (score : gmap Z Q) : gmap Z Q :=
  match gens with
  | [] => score
  | (gid, ts) :: rest =>
      let sc :=
        if decide (i = 0%nat) then base
        else (base + (5 # 10) * dict_get norm_lines (dict_get lines_delta gid 0%Z) 0
                   + (4 # 10) * dict_get norm_paths (dict_get paths_delta gid 0%Z) 0)%Q in
      score_loop lines_delta paths_delta norm_lines norm_paths (S i) rest (<[gid := sc]> score)
  end.

Definition scores (ft : features) (gens : list (Z * Z)) : gmap Z Q :=
  let '(lines_delta, paths_delta) := deltas ft gens in
  let norm_lines := normalize (dict_values lines_delta) in
  let norm_paths := normalize (dict_values paths_delta) in
  score_loop lines_delta paths_delta norm_lines norm_paths 0 gens ∅.

(** ** select_integral_windows *)

(** What the selector does with the values of the grid, which are Python
    [float]s: [0.0], [x + y], [x - y], [x >= y] and [x > y]. *)
Class Arith (F : Type) := {
  fzero : F;
  fadd : F → F → F;
  fsub : F → F → F;
  fge : F → F → bool;
  fgt : F → F → bool;
}.

(** The idealised floats of the development: exact rationals. *)
#[global] Instance Q_arith : Arith Q :=
  {| fzero := 0%Q; fadd := Qplus; fsub := Qminus;
     fge := λ x y, Qle_bool y x; fgt := λ x y, Qlt_bool y x |}.

(** Python's own floats: binary64 with round-to-nearest. *)
#[global] Instance binary64_arith : Arith PrimFloat.float :=
  {| fzero := PrimFloat.zero; fadd := PrimFloat.add; fsub := PrimFloat.sub;
     fge := λ x y, PrimFloat.leb y x; fgt := λ x y, PrimFloat.ltb y x |}.

(** [pref = [0.0]; for v in vals: pref.append(pref[-1] + v)]. *)
Fixpoint prefix_from {F} `{Arith F} (acc : F) (vals : list F) : list F :=
  match vals with
  | [] => []
  | v :: r => fadd acc v :: prefix_from (fadd acc v) r
  end.

Definition prefix_sums {F} `{Arith F} (vals : list F) : list F :=
  fzero :: prefix_from fzero vals.

(** [area(i, j) = pref[j] - pref[i]]. *)
Definition area {F} `{Arith F} (pref : list F) (i j : Z) : option F :=
  pj ← py_index pref j; pi ← py_index pref i; Some (fsub pj pi).

Fixpoint first_unused_from (i : Z) (used : list bool) : option Z :=
  match used with
  | [] => None
  | f :: r => if f then first_unused_from (i + 1) r else Some i
  end.

Definition first_unused (used : list bool) : option Z := first_unused_from 0 used.

(** The loop [for L in range(HMIN, HMAX+1)] at a fixed [i0], with its [break];
    the outer [option] is the [IndexError] of [area]. *)
Fixpoint scan_lengths {F} `{Arith F} (n : Z) (pref : list F) (min_area : F) (i0 : Z)
    (Ls : list Z) (best : option (Z * Z * F)) : option (option (Z * Z * F)) :=
  match Ls with
  | [] => Some best
  | L :: rest =>
      let j := i0 + L in
      if decide (n < j) then Some best
      else
        a ← area pref i0 j;
        if fge a min_area then
          if match best with None => true | Some (_, _, b) => fgt a b end
          then scan_lengths n pref min_area i0 rest (Some (i0, j, a))
          else scan_lengths n pref min_area i0 rest best
        else scan_lengths n pref min_area i0 rest best
  end.

(** [for k in range(max(0,i-12), min(len(grid), j+12)): used[k] = True]. *)
Definition mask (n : Z) (used : list bool) (i j : Z) : list bool :=
  let lo := Z.max 0 (i - 12) in
  let hi := Z.min n (j + 12) in
  foldl (λ u k, <[Z.to_nat k := true]> u) used (seqZ lo (hi - lo)).

(** The [while i0 is not None] loop.  Every round of the source claims at
    least one more index when [0 ≤ HMIN]; [fuel] bounds the rounds and [None]
    is returned when it is used up ([select_indices_ok] shows that it is
    not, for such parameters). *)
Fixpoint select_loop {F} `{Arith F} (fuel : nat) (n : Z) (pref : list F) (min_area : F)
    (Ls : list Z) (used : list bool) (selected : list (Z * Z)) : option (list (Z * Z)) :=
  match first_unused used with
  | None => Some selected
  | Some i0 =>
      match fuel with
      | O => None
      | S fuel' =>
          best ← scan_lengths n pref min_area i0 Ls None;
          match best with
          | None =>
              select_loop fuel' n pref min_area Ls (<[Z.to_nat i0 := true]> used) selected
          | Some (i, j, _) =>
              select_loop fuel' n pref min_area Ls (mask n used i j) (selected ++ [(i, j)])
          end
      end
  end.

(** The list [selected] of index pairs at the end of the loop. *)
Definition select_indices {F} `{Arith F} (grid : list (Z * F)) (min_days max_days : Z)
    (min_area : F) : option (list (Z * Z)) :=
  let n := Z.of_nat (length grid) in
  let used := replicate (length grid) false in
  let HMIN := min_days * 24 in
  let HMAX := max_days * 24 in
  let pref := prefix_sums grid.*2 in
  select_loop (S (length grid)) n pref min_area (seqZ HMIN (HMAX + 1 - HMIN)) used [].

Definition select_integral_windows {F} `{Arith F} (grid : list (Z * F))
    (min_days max_days : Z) (min_area : F) : option (list (Z * Z)) :=
  selected ← select_indices grid min_days max_days min_area;
  mapM (λ '(i, j), s ← py_index grid i; e ← py_index grid (j - 1); Some (s.1, e.1)) selected.

(** A grid with one entry per hour, from [start] on. *)
Definition hourly_grid {F} (start : Z) (vals : list F) : list (Z * F) :=
  zip ((λ i, start + HOUR * i) <$> seqZ 0 (Z.of_nat (length vals))) vals.

(** ** The tiered planner (the middle part of [main]) *)

(** The pair of [keep] (a set) and [reasons] (a dict). *)
Definition kstate : Type := gset Z * gmap Z string.

(** [keep.add(g); reasons[g] = r]. *)
Definition keep_add (g : Z) (r : string) (st : kstate) : kstate :=
  ({[g]} ∪ st.1, <[g := r]> st.2).

(** [if g not in keep: keep.add(g); reasons[g] = r]. *)
Definition keep_new (g : Z) (r : string) (st : kstate) : kstate :=
  if decide (g ∈ st.1) then st else keep_add g r st.

(** [if cur: keep.add(cur); reasons[cur] = r]. *)
Definition keep_booted (o : option Z) (r : string) (st : kstate) : kstate :=
  match o with
  | Some c => if truthy o then keep_add c r st else st
  | None => st
  end.

(** 0-3 days. *)
Definition keep_recent (now : Z) (gens : list (Z * Z)) (st : kstate) : kstate :=
  foldl (λ st '(gid, ts), if decide (now - ts ≤ 3 * DAY) then keep_add gid "<=3d" st else st)
        st gens.

Definition in_mid_tier (now ts : Z) : bool :=
  bool_decide (3 * DAY < now - ts ∧ now - ts ≤ 10 * DAY).

(** [if k not in d or ts > d[k][1]: d[k] = (gid, ts)]. *)
Definition latest_insert (k : Z) (g : Z * Z) (d : gmap Z (Z * Z)) : gmap Z (Z * Z) :=
  match d !! k with
  | None => <[k := g]> d
  | Some old => if decide (old.2 < g.2) then <[k := g]> d else d
  end.

Definition daily_dict (now : Z) (gens : list (Z * Z)) : gmap Z (Z * Z) :=
  foldl (λ d '(gid, ts), if in_mid_tier now ts then latest_insert (date_key ts) (gid, ts) d else d)
        ∅ gens.

(** [for gid, ts in d.values(): if gid not in keep: ...]; the outcome does not
    depend on the order of the values. *)
Definition keep_values (r : string) (d : gmap Z (Z * Z)) (st : kstate) : kstate :=
  foldl (λ st '(_, (gid, _)), keep_new gid r st) st (map_to_list d).

Definition keep_daily (now : Z) (gens : list (Z * Z)) (st : kstate) : kstate :=
  keep_values "daily" (daily_dict now gens) st.

(** The inner [while j < len(subset)] of the productive-stretch scan, from
    [j] on, [rest] being [subset[j:]]: [Some j] at the [break], [None] when the
    loop runs to its [else]. *)
Fixpoint find_stretch (i : nat) (ti : Z) (j : nat) (rest : list (Z * Z)) : option nat :=
  match rest with
  | [] => None
  | (_, tj) :: rest' =>
      let span := tj - ti in
      if decide (36 * HOUR ≤ span) then
        let total := span in
        let intervals := Z.of_nat j - Z.of_nat i in
        let mean := if decide (0 < intervals) then (inject_Z total / inject_Z intervals)%Q
                    else inject_Z 1000000000 in
        if Qle_bool mean (inject_Z (12 * 3600)) then Some j
        else find_stretch i ti (S j) rest'
      else find_stretch i ti (S j) rest'
  end.

(** The search of the generation closest to [target] over [subset[i..j]]:
    [(mid_gid, mid_ts, mdiff)]. *)
Definition closest_to (target : Z) (l : list (Z * Z)) : option (Z * Z * Z) :=
  foldl (λ acc '(gidk, tsk),
           let diff := Z.abs (tsk - target) in
           match acc with
           | None => Some (gidk, tsk, diff)
           | Some (_, _, mdiff) => if decide (diff < mdiff) then Some (gidk, tsk, diff) else acc
           end) None l.

(** The outer [while i < len(subset)-1]; [i] grows in every round, [fuel]
    bounds the rounds ([prod_loop_total]). *)
Fixpoint prod_loop (fuel : nat) (subset : list (Z * Z)) (i : nat) (st : kstate)
    : option kstate :=
  if decide (Z.of_nat i < Z.of_nat (length subset) - 1) then
    match fuel with
    | O => None
    | S fuel' =>
        '(first_gid, first_ts) ← subset !! i;
        match find_stretch i first_ts (S i) (drop (S i) subset) with
        | Some j =>
            '(last_gid, last_ts) ← subset !! j;
            let target := first_ts + 24 * HOUR in
            let mid := closest_to target (take (S j - i) (drop i subset)) in
            let st := keep_new first_gid "prod-first" st in
            let st := match mid with
                      | Some (mid_gid, _, _) => keep_new mid_gid "prod-+24h" st
                      | None => st
                      end in
            let st := keep_new last_gid "prod-last" st in
            prod_loop fuel' subset j st
        | None => prod_loop fuel' subset (S i) st
        end
    end
  else Some st.

Definition keep_productive (now : Z) (gens : list (Z * Z)) (st : kstate) : option kstate :=
  let subset := filter (λ g, in_mid_tier now g.2 = true) gens in
  if decide (2 ≤ length subset)%nat then prod_loop (length subset) subset 0 st
  else Some st.

(** [for (ws, we) in windows: cand = ...; if cand: ...]. *)
Definition keep_windows (gens : list (Z * Z)) (windows : list (Z * Z)) (st : kstate) : kstate :=
  foldl (λ st '(ws, we),
           let cand := filter (λ g, ws ≤ g.2 ∧ g.2 ≤ we) gens in
           match last cand with
           | Some (gid_keep, _) => keep_new gid_keep "clump-longterm" st
           | None => st
           end) st windows.

Definition keep_clumps (now : Z) (gens : list (Z * Z)) (grid : list (Z * Q)) (st : kstate)
    : option kstate :=
  let cutoff := now - 10 * DAY in
  let grid_tail := filter (λ p, p.1 ≤ cutoff) grid in
  match grid_tail with
  | [] => Some st
  | _ => windows ← select_integral_windows grid_tail 5 10 0%Q;
         Some (keep_windows gens windows st)
  end.

Definition months_dict (now : Z) (gens : list (Z * Z)) : gmap Z (Z * Z) :=
  foldl (λ d '(gid, ts), if decide (90 * DAY < now - ts)
                         then latest_insert (month_key ts) (gid, ts) d else d)
        ∅ gens.

Definition keep_monthly (now : Z) (gens : list (Z * Z)) (st : kstate) : kstate :=
  keep_values "monthly" (months_dict now gens) st.

(** ** JSON documents *)

(** A number of a JSON text as Python reads it: an [int], a [float]
    (idealised like the other floats), or one of the constants [NaN],
    [Infinity] and [-Infinity] that [json.load] accepts. *)
Inductive number :=
  | Int (n : Z)
  | Float (x : Q)
  | NaN
  | Infinity (negative : bool).

(** What [json.load] returns: [None], a [bool], a number, a [str], a [list]
    or a [dict] with string keys.  No claim needs an induction on it. *)
Local Unset Elimination Schemes.
Inductive json :=
  | JNull
  | JBool (b : bool)
  | JNum (x : number)
  | JStr (s : string)
  | JArr (l : list json)
  | JObj (m : gmap string json).
Local Set Elimination Schemes.

(** [str(n)] for an [int]. *)
Definition str (n : Z) : string := pretty n.

Fixpoint zeros (n : nat) : string :=
  match n with
  | O => EmptyString
  | S n => "0" +:+ zeros n
  end.

(** [%0wd] for a number that is not negative. *)
Definition zfill (width : nat) (n : Z) : string :=
  zeros (width - String.length (pretty n)) +:+ pretty n.

(** [ts.isoformat()] for an aware UTC [datetime] with whole seconds:
    [YYYY-MM-DDTHH:MM:SS+00:00]. *)
Definition isoformat (ts : Z) : string :=
  let '(y, m, d) := civil_from_days (ts / DAY) in
  let s := ts mod DAY in
  zfill 4 y +:+ "-" +:+ zfill 2 m +:+ "-" +:+ zfill 2 d +:+ "T"
  +:+ zfill 2 (s / 3600) +:+ ":" +:+ zfill 2 (s mod 3600 / 60) +:+ ":" +:+ zfill 2 (s mod 60)
  +:+ "+00:00".

(** [obj[key]] for a string [key]: [KeyError] when the dict has no such key,
    [TypeError] when [obj] is not a dict. *)
Definition getitem (obj : json) (key : string) : option json :=
  match obj with
  | JObj m => m !! key
  | _ => None
  end.

(** [obj[key] = v] for a string [key]: [TypeError] unless [obj] is a
    dict. *)
Definition setitem (obj : json) (key : string) (v : json) : option json :=
  match obj with
  | JObj m => Some (JObj (<[key := v]> m))
  | _ => None
  end.

(** [obj.get(key, d)]: [AttributeError] unless [obj] is a dict. *)
Definition get (obj : json) (key : string) (d : json) : option json :=
  match obj with
  | JObj m => Some (default d (m !! key))
  | _ => None
  end.

(** [needle in hay] for two strings. *)
Fixpoint substring_of (needle hay : string) : bool :=
  String.prefix needle hay
  || match hay with
     | EmptyString => false
     | String _ rest => substring_of needle rest
     end.

(** [key in obj] for a string [key]: a key of a dict, an element of a list,
    a substring of a string; [TypeError] for the values that are not
    iterable. *)
Definition contains (obj : json) (key : string) : option bool :=
  match obj with
  | JObj m => Some (bool_decide (is_Some (m !! key)))
  | JArr l => Some (existsb (λ x, match x with
                                  | JStr s => bool_decide (s = key)
                                  | _ => false
                                  end) l)
  | JStr s => Some (substring_of key s)
  | _ => None
  end.

(** ** The state store *)

(** [{"gens":{}, "kept":{}, "deleted":[], "pinned":{}, "meta":{}}]. *)
Definition empty_state : json :=
  JObj {[ "gens" := JObj ∅; "kept" := JObj ∅; "deleted" := JArr [];
          "pinned" := JObj ∅; "meta" := JObj ∅ ]}.

(** What is at the state path: nothing, a file on which [open] or
    [json.load] raises, or a JSON document, of whatever shape. *)
Inductive file :=
  | Absent
  | Corrupt
  | Document (s : json).

(** [load_state]: there is no handler around [json.load], and what is
    loaded is returned unchecked. *)
Definition load_state (f : file) : option json :=
  match f with
  | Absent => Some empty_state
  | Corrupt => None
  | Document s => Some s
  end.

(** [save_state]: the file at the path after the atomic replace.  Reading
    back what [json.dump] wrote gives the document again. *)
Definition save_state (data : json) : file := Document data.

(** ** Persist and decide (the last part of the planning in [main]) *)

(** [s = state["gens"].setdefault(str(gid), {}); s["ts"] = ts.isoformat();
    s["score"] = score.get(gid, 0.0)].  The entry is changed in place, inside
    [state]; [state["gens"]] without a [setdefault] is an
    [AttributeError]. *)
Definition record_gen (score : gmap Z Q) (state : json) (gid ts : Z) : option json :=
  gens ← getitem state "gens";
  match gens with
  | JObj g =>
      let s := default (JObj ∅) (g !! str gid) in
      s ← setitem s "ts" (JStr (isoformat ts));
      s ← setitem s "score" (JNum (Float (dict_get score gid 0%Q)));
      setitem state "gens" (JObj (<[str gid := s]> g))
  | _ => None
  end.

(** [str(gid) in state.get("pinned", {})]. *)
Definition is_pinned (state : json) (gid : Z) : option bool :=
  p ← get state "pinned" (JObj ∅); contains p (str gid).

(** One round of the loop [for gid, ts in gens] that records [ts] and
    [score] and keeps the pinned generations. *)
Definition persist_step (score : gmap Z Q) (acc : json * kstate) (g : Z * Z)
    : option (json * kstate) :=
  let '(state, st) := acc in
  let '(gid, ts) := g in
  state ← record_gen score state gid ts;
  b ← is_pinned state gid;
  Some (state, if b : bool then keep_add gid "pinned" st else st).

Fixpoint persist_loop (score : gmap Z Q) (gens : list (Z * Z)) (acc : json * kstate)
    : option (json * kstate) :=
  match gens with
  | [] => Some acc
  | g :: rest => acc ← persist_step score acc g; persist_loop score rest acc
  end.

(** [if x in delete_ids: delete_ids.remove(x)], for [x] an optional id. *)
Definition remove_if_in (o : option Z) (l : list Z) : list Z :=
  match o with
  | Some c => if decide (c ∈ l) then list_remove_first c l else l
  | None => l
  end.

(** The printed [{g: reasons.get(g, '') for g in sorted(keep)}], the default
    reason being the empty string. *)
Definition kept_map (keep : gset Z) (reasons : gmap Z string) : gmap Z string :=
  set_to_map (λ g, (g, dict_get reasons g EmptyString)) keep.

(** [{str(g): {"reason": reasons.get(g, '')} for g in sorted(keep)}]. *)
Definition kept_json (keep : gset Z) (reasons : gmap Z string) : json :=
  JObj (set_to_map
          (λ g, (str g, JObj {[ "reason" := JStr (dict_get reasons g EmptyString) ]})) keep).

(** [state["meta"]["last_run"] = now], [now] being the string
    [datetime.now(TZ).isoformat()]. *)
Definition stamp (state : json) (now : string) : option json :=
  meta ← getitem state "meta";
  meta ← setitem meta "last_run" (JStr now);
  setitem state "meta" meta.

(** [state["deleted"].extend(plan_delete)]: [AttributeError] unless
    [state["deleted"]] is a list. *)
Definition extend_deleted (state : json) (ids : list Z) : option json :=
  d ← getitem state "deleted";
  match d with
  | JArr l => setitem state "deleted" (JArr (l ++ ((λ g, JNum (Int g)) <$> ids)))
  | _ => None
  end.

Record plan := {
  plan_state : json;             (* [state] after [state["kept"] = ...] *)
  plan_keep : gmap Z string;     (* the printed [Kept (id: reason)] *)
  plan_delete : list Z;          (* [plan_delete] *)
}.

(** ** The run and its surroundings *)

Record args := {
  apply : bool;          (* --apply *)
  dry_run : bool;        (* --dry-run *)
  sigma_hours : Z;       (* --sigma-hours *)
}.

(** What the run finds outside itself. *)
Record world := {
  listing : list (Z * Z);      (* list_generations(): (id, ts), sorted by ts *)
  link_id : option Z;          (* the id in the resolved /run/current-system *)
  feats : features;
  state_file : file;           (* what is at args.state *)
  delete_returncode : Z;       (* of nix-env --delete-generations *)
  clock : string;              (* datetime.now(TZ).isoformat() *)
}.

(** The commands run after the plan is made, and the report on stderr. *)
Inductive event :=
  | RunDeleteGenerations (ids : list Z)
  | PrintStderr
  | RunCollectGarbage
  | RunStoreGC.

Record outcome := {
  exit_code : option Z;                         (* [None]: uncaught exception *)
  trace : list event;
  file_after : file;                            (* what is at args.state afterwards *)
  report : option (gmap Z string * list Z);     (* kept (id: reason), plan to delete *)
}.

(** The run ends with an uncaught exception before anything is written. *)
Definition raised (f : file) : outcome :=
  {| exit_code := None; trace := []; file_after := f; report := None |}.

Section Model.

(** [math.exp] on the idealised floats. *)
Variable exp : Q → Q.

(** ** kernel_smooth *)

(** One summand [sc * math.exp(-(dh*dh)/s2)]; dividing by [s2 = 0] raises
    [ZeroDivisionError]. *)
Definition kernel_term (s2 : Z) (t : Z) (p : Z * Q) : option Q :=
  let '(pt, sc) := p in
  let dh := (inject_Z (Z.abs (pt - t)) / inject_Z HOUR)%Q in
  if decide (s2 = 0) then None
  else Some (sc * exp (- (dh * dh) / inject_Z s2))%Q.

(** The inner loop [for (pt, sc) in points: val += ...]. *)
Fixpoint kernel_sum (s2 : Z) (t : Z) (points : list (Z * Q)) (val : Q) : option Q :=
  match points with
  | [] => Some val
  | p :: rest => x ← kernel_term s2 t p; kernel_sum s2 t rest (val + x)%Q
  end.

(** The hourly grid from the hour of the first point to the hour of the last
    one; [hours] is not positive, and the grid empty, when the input is not in
    chronological order. *)
Definition kernel_smooth (points : list (Z * Q)) (sigma_hours : Z) : option (list (Z * Q)) :=
  match points with
  | [] => Some []
  | p0 :: _ =>
      let start := floor_hour p0.1 in
      let end_ := floor_hour (List.last points p0).1 in
      let hours := (end_ - start) / HOUR + 1 in
      let s2 := 2 * sigma_hours ^ 2 in
      mapM (λ i, let t := start + HOUR * i in
                 val ← kernel_sum s2 t points 0%Q; Some (t, val))
           (seqZ 0 hours)
  end.

(** [main] from the feature loop to the end of the age tiers, for a
    non-empty [gens]: the pair of [keep] and [reasons] before the state is
    touched. *)
Definition tiers (ft : features) (gens : list (Z * Z)) (cur prev : option Z)
    (sigma_hours : Z) : option kstate :=
  let score := scores ft gens in
  (* score[gid] is set for every gid of gens *)
  let points := (λ '(gid, ts), (ts, dict_get score gid 0%Q)) <$> gens in
  grid ← kernel_smooth points sigma_hours;
  let now := (List.last gens (0, 0)).2 in
  let st : kstate := (∅, ∅) in
  let st := keep_booted cur "booted-current" st in
  let st := keep_booted prev "booted-previous" st in
  let st := keep_recent now gens st in
  let st := keep_daily now gens st in
  st ← keep_productive now gens st;
  st ← keep_clumps now gens grid st;
  Some (keep_monthly now gens st).

(** [main] from [# Persist state & decide deletions] to [plan_delete];
    [None] is the exception raised in the loop. *)
Definition decide_deletions (ft : features) (gens : list (Z * Z)) (cur prev : option Z)
    (st0 : json) (st : kstate) : option plan :=
  let score := scores ft gens in
  '(s, (keep, reasons)) ← persist_loop score gens (st0, st);
  let all_ids := gens.*1 in
  let delete_ids := filter (λ gid, gid ∉ keep) all_ids in
  let delete_ids := remove_if_in cur delete_ids in
  let delete_ids := remove_if_in prev delete_ids in
  s ← setitem s "kept" (kept_json keep reasons);
  Some {| plan_state := s; plan_keep := kept_map keep reasons;
          plan_delete := sorted delete_ids |}.

(** The planning of [main], from the features to [plan_delete]; [None] is the
    exception raised on the way. *)
Definition planner (ft : features) (gens : list (Z * Z)) (cur prev : option Z)
    (st0 : json) (sigma_hours : Z) : option plan :=
  st ← tiers ft gens cur prev sigma_hours;
  decide_deletions ft gens cur prev st0 st.

(** ** main *)

(** One run: the exit code, the commands issued after the plan, what is at
    the state path afterwards, and the printed plan. *)
Definition main (a : args) (w : world) : outcome :=
  let dry := negb (apply a) || dry_run a in
  let gens := listing w in
  match gens with
  | [] => {| exit_code := Some 0; trace := []; file_after := state_file w; report := None |}
  | _ :: _ =>
      let '(cur, prev) := booted_generations (link_id w) in
      match load_state (state_file w) with
      | None => raised (state_file w)
      | Some st0 =>
          match planner (feats w) gens cur prev st0 (sigma_hours a) with
          | None => raised (state_file w)
          | Some p =>
              let rep := Some (plan_keep p, plan_delete p) in
              match stamp (plan_state p) (clock w) with
              | None => {| exit_code := None; trace := []; file_after := state_file w;
                           report := rep |}
              | Some s =>
                  let f := save_state s in
                  if dry then
                    {| exit_code := Some 0; trace := []; file_after := f; report := rep |}
                  else
                    match plan_delete p with
                    | [] => {| exit_code := Some 0; trace := []; file_after := f;
                               report := rep |}
                    | _ :: _ =>
                        let tr := [RunDeleteGenerations (plan_delete p)]
                                  ++ (if decide (delete_returncode w ≠ 0)
                                      then [PrintStderr] else [])
                                  ++ [RunCollectGarbage; RunStoreGC] in
                        match s' ← load_state f; extend_deleted s' (plan_delete p) with
                        | None => {| exit_code := None; trace := tr; file_after := f;
                                     report := rep |}
                        | Some s' =>
                            {| exit_code := Some 0; trace := tr; file_after := save_state s';
                               report := rep |}
                        end
                    end
              end
          end
      end
  end.

End Model.

(** ** Vocabulary of the properties *)

(** A score in the closed interval [0.1, 1.0]. *)
Definition score_ok (s : Q) : Prop := (1 # 10 <= s /\ s <= 1)%Q.

(** The length the grid would have by the formula
    [floor(hoursBetween(first, last)) + 1]. *)
Definition hours_between_plus_one (points : list (Z * Q)) : Z :=
  match points with
  | [] => 0
  | p0 :: _ => ((List.last points p0).1 - p0.1) / HOUR + 1
  end.

(** The number of whole hours from the hour of the first point to the hour of
    the last one, both included. *)
Definition hour_span (points : list (Z * Q)) : Z :=
  match points with
  | [] => 0
  | p0 :: _ => (floor_hour (List.last points p0).1 - floor_hour p0.1) / HOUR + 1
  end.

(** What the scan at [i0] may hold in [best]. *)
Definition best_ok {F} (n lo hi i0 : Z) (best : option (Z * Z * F)) : Prop :=
  match best with
  | None => True
  | Some (i, j, _) => i = i0 ∧ i0 + lo ≤ j ∧ j ≤ i0 + hi ∧ j ≤ n
  end.

(** The claimed indices are a prefix of the grid: exactly those below [p]. *)
Definition used_prefix (n p : Z) (used : list bool) : Prop :=
  Z.of_nat (length used) = n ∧
  ∀ k : nat, Z.of_nat k < n → used !! k = Some (bool_decide (Z.of_nat k < p)).

(** A selected pair [(i, j)]: it starts inside the grid and covers between
    [lo] and [hi] grid entries. *)
Definition win_ok (n lo hi : Z) (e : Z * Z) : Prop :=
  0 ≤ e.1 ∧ e.1 < n ∧ e.1 + lo ≤ e.2 ∧ e.2 ≤ e.1 + hi ∧ e.2 ≤ n.

(** The next pair starts at least 12 entries after the end of this one. *)
Definition gap12 (e e' : Z * Z) : Prop := e.2 + 12 ≤ e'.1.

(** The timestamps reported for a selected pair on an hourly grid. *)
Definition win_times (start : Z) (e : Z * Z) : Z * Z :=
  (start + HOUR * e.1, start + HOUR * (e.2 - 1)).

(** Closed time intervals that do not meet. *)
Definition apart (w w' : Z * Z) : Prop := w.2 < w'.1 ∨ w'.2 < w.1.

(** A window with its guard band of 12 hours on both sides. *)
Definition guard_band (w : Z * Z) : Z * Z := (w.1 - 12 * HOUR, w.2 + 12 * HOUR).

(** [obj[k1][k2]...]: what is found in a document along a path of keys. *)
Definition getpath (obj : json) (path : list string) : option json :=
  foldl (λ o key, j ← o; getitem j key) (Some obj) path.

(** The entry of [state["gens"]] that one round of the loop leaves for
    [gid]: the entry found there, or a new dict, with [ts] and [score]
    set. *)
Definition gen_entry (score : gmap Z Q) (g : gmap string json) (gid ts : Z) : json :=
  JObj (<["score" := JNum (Float (dict_get score gid 0%Q))]>
          (<["ts" := JStr (isoformat ts)]>
             (match g !! str gid with
              | Some (JObj o) => o
              | _ => ∅
              end))).

(** [state["gens"]] after the loop, where the loop does not raise. *)
Definition persist_gens (score : gmap Z Q) (gens : list (Z * Z)) (g : gmap string json)
    : gmap string json :=
  foldl (λ g '(gid, ts), <[str gid := gen_entry score g gid ts]> g) g gens.

(** The test [str(gid) in state.get("pinned", {})] holds. *)
Definition pinned (state : json) (gid : Z) : bool :=
  bool_decide (is_pinned state gid = Some true).

(** The second component of [persist_loop]: the pinned generations are
    kept. *)
Definition persist_keep (pinned : Z → bool) (gens : list (Z * Z)) (st : kstate) : kstate :=
  foldl (λ st '(gid, _), if pinned gid then keep_add gid "pinned" st else st) st gens.

(** The shapes of a document on which the run does not raise.
    [entry_ok]: the dict has no entry for [gid], or one that is a dict. *)
Definition entry_ok (g : gmap string json) (gid : Z) : bool :=
  match g !! str gid with
  | None | Some (JObj _) => true
  | _ => false
  end.

(** [gens_ok]: [state["gens"]] is a dict whose entries for the listed ids,
    where there are any, are dicts (lines 337-339). *)
Definition gens_ok (gens : list (Z * Z)) (state : json) : bool :=
  match getitem state "gens" with
  | Some (JObj g) => forallb (entry_ok g) gens.*1
  | _ => false
  end.

(** [pinned_ok]: [state] is a dict and [state["pinned"]], when there is one,
    is a dict, a list or a string (line 340). *)
Definition pinned_ok (state : json) : bool :=
  match get state "pinned" (JObj ∅) with
  | Some (JObj _) | Some (JArr _) | Some (JStr _) => true
  | _ => false
  end.

(** [meta_ok]: [state["meta"]] is a dict (line 359). *)
Definition meta_ok (state : json) : bool :=
  match getitem state "meta" with
  | Some (JObj _) => true
  | _ => false
  end.

(** [deleted_ok]: [state["deleted"]] is a list (line 378). *)
Definition deleted_ok (state : json) : bool :=
  match getitem state "deleted" with
  | Some (JArr _) => true
  | _ => false
  end.

(** [delete_ids] after the two removals. *)
Definition delete_ids (cur prev : option Z) (keep : gset Z) (gens : list (Z * Z)) : list Z :=
  remove_if_in prev (remove_if_in cur (filter (λ gid, gid ∉ keep) gens.*1)).

(** The persisted [deleted] list of what is at the state path: the list
    under [deleted] of the document there, empty when there is none. *)
Definition deleted_history (f : file) : list json :=
  match f with
  | Document s =>
      match getitem s "deleted" with
      | Some (JArr l) => l
      | _ => []
      end
  | _ => []
  end.

(** The ids of a plan as they are appended to the [deleted] list. *)
Definition json_ids (ids : list Z) : list json := (λ g, JNum (Int g)) <$> ids.

(** [current] or [prev] of [booted_generations] is [c]. *)
Definition protected (w : world) (c : Z) : Prop :=
  (booted_generations (link_id w)).1 = Some c ∨ (booted_generations (link_id w)).2 = Some c.

(** Plan-only mode: [--apply] is absent or [--dry-run] is given. *)
Definition plan_only (a : args) : bool := negb (apply a) || dry_run a.

(** ** The claims as the specification words them *)


(** A failed deletion leaves the persisted [deleted] list as it was. *)
Definition history_unchanged_on_failure_claim (w : world) (o : outcome) : Prop :=
  delete_returncode w ≠ 0 → deleted_history (file_after o) = deleted_history (state_file w).

(** A file that cannot be read or parsed loads as the empty initial state. *)
Definition corrupt_loads_empty_claim : Prop := load_state Corrupt = Some empty_state.

(** Every window spans between [minDays·24] and [maxDays·24] hours. *)
Definition window_length_claim (grid : list (Z * Q)) (min_days max_days : Z) (min_area : Q)
    : Prop :=
  min_days ≤ max_days →
  ∀ ws s e, select_integral_windows grid min_days max_days min_area = Some ws →
            (s, e) ∈ ws →
            min_days * 24 * HOUR ≤ e - s ≤ max_days * 24 * HOUR.

(** The windows stay disjoint when each is expanded by its guard band. *)
Definition guard_bands_disjoint_claim (grid : list (Z * Q)) (min_days max_days : Z)
    (min_area : Q) : Prop :=
  ∀ ws (a b : nat) w w',
    select_integral_windows grid min_days max_days min_area = Some ws →
    a ≠ b → ws !! a = Some w → ws !! b = Some w' →
    apart w w' ∧ apart (guard_band w) (guard_band w').

(** The grid has [floor(hoursBetween(first, last)) + 1] entries. *)
Definition grid_length_claim (points : list (Z * Q)) (smoothed : option (list (Z * Q))) : Prop :=
  ∀ grid, smoothed = Some grid → Z.of_nat (length grid) = hours_between_plus_one points.


(** ** Example runs *)

(** A rational stand-in for [math.exp] at the arguments of the kernel. *)
Definition exp_q (x : Q) : Q := (1 / (1 + x * x))%Q.

(** No closure and no git activity at all. *)
Definition no_features : features :=
  {| closure_paths := λ _, ∅; git_lines_delta := λ _ _, 0 |}.

(** Generation 3 adds one store path; the git delta is the time elapsed. *)
Definition some_features : features :=
  {| closure_paths := λ g, if decide (g = 3) then {["a"; "b"]} else {["a"]};
     git_lines_delta := λ older newer, newer - older |}.

(** The default plan-only run and a run with [--apply]. *)
Definition plan_args : args := {| apply := false; dry_run := false; sigma_hours := 12 |}.
Definition apply_args : args := {| apply := true; dry_run := false; sigma_hours := 12 |}.

(** Two generations of the same day five days ago and one of today. *)
Definition three_gens : list (Z * Z) := [(2, 0); (3, 7200); (4, 5 * DAY)].


(** As before, with the id 0 listed twice, twelve days before the latest
    generation. *)
Definition world_zero_twice : world :=
  {| listing := [(0, 0); (0, 3600); (5, 12 * DAY)]; link_id := Some 0; feats := no_features;
     state_file := Absent; delete_returncode := 0; clock := "1970-01-13T00:01:00.000250+00:00" |}.

(** Generation 4 is booted; there is no state file yet. *)
Definition world_booted : world :=
  {| listing := three_gens; link_id := Some 4; feats := some_features;
     state_file := Absent; delete_returncode := 0; clock := "1970-01-06T00:01:00.000250+00:00" |}.

(** Nothing is booted from the profile and the delete command fails. *)
Definition world_failing : world :=
  {| listing := three_gens; link_id := None; feats := no_features;
     state_file := Absent; delete_returncode := 1; clock := "1970-01-06T00:01:00.000250+00:00" |}.

(** The state file cannot be parsed. *)
Definition world_corrupt : world :=
  {| listing := three_gens; link_id := None; feats := no_features;
     state_file := Corrupt; delete_returncode := 0; clock := "1970-01-06T00:01:00.000250+00:00" |}.

(** The world after a run of [plan_args] in [world_booted]. *)
Definition world_rerun : world :=
  {| listing := three_gens; link_id := Some 4; feats := some_features;
     state_file := file_after (main exp_q plan_args world_booted);
     delete_returncode := 0; clock := "1970-01-07T00:00:00+00:00" |}.

(** Two points two minutes apart, on both sides of a full hour. *)
Definition two_points : list (Z * Q) := [(3540, (1 # 10)%Q); (3660, (1 # 2)%Q)].

(** An hourly grid of [n] zero densities. *)
Definition flat_grid (n : nat) : list (Z * Q) := hourly_grid 0 (replicate n 0%Q).

(** An hourly grid whose first density is 1 and whose 129 others are
    [2^-70], in binary64 and in exact rationals. *)
Definition tiny64 : PrimFloat.float :=
  Nat.iter 70 (λ x, PrimFloat.div x PrimFloat.two) PrimFloat.one.

Definition absorbing_grid : list (Z * PrimFloat.float) :=
  hourly_grid 0 (PrimFloat.one :: replicate 129 tiny64).

Definition exact_grid : list (Z * Q) :=
  hourly_grid 0 (1%Q :: replicate 129 (1 # 2 ^ 70)%Q).

(** ** Further vocabulary *)

(** The length [L] is a candidate at [i0]: the slice [[i0, i0+L)] fits the
    grid and its area reaches [min_area]. *)
Definition candidate {F} `{Arith F} (n : Z) (pref : list F) (min_area : F) (i0 L : Z) (a : F)
    : Prop :=
  i0 + L ≤ n ∧ area pref i0 (i0 + L) = Some a ∧ fge a min_area = true.

(** The candidate [L] of area [a] is not greater than [best], and [best] is
    greater when [L] is the shorter one. *)
Definition beats {F} `{Arith F} (i0 : Z) (best : option (Z * Z * F)) (L : Z) (a : F) : Prop :=
  match best with
  | Some (_, j, ab) => fgt a ab = false ∧ (i0 + L < j → fgt ab a = true)
  | None => False
  end.

(** What [scan_lengths] knows after the lengths [seen]: [best] beats every
    candidate among them and is one of them. *)
Definition scan_inv {F} `{Arith F} (n : Z) (pref : list F) (min_area : F) (i0 : Z)
    (seen : Z → Prop) (best : option (Z * Z * F)) : Prop :=
  (∀ L a, seen L → candidate n pref min_area i0 L a → beats i0 best L a) ∧
  (∀ i j ab, best = Some (i, j, ab) →
             i = i0 ∧ ∃ L0, seen L0 ∧ j = i0 + L0 ∧ candidate n pref min_area i0 L0 ab).

(** A selected pair has the largest area among the candidates at its start
    (no candidate is greater), and is the shortest of those with that area
    (it is greater than every shorter candidate). *)
Definition best_window {F} `{Arith F} (n : Z) (pref : list F) (min_area : F) (lo hi : Z)
    (e : Z * Z) : Prop :=
  ∃ a, area pref e.1 e.2 = Some a ∧ fge a min_area = true ∧
       ∀ L a', lo ≤ L ≤ hi → candidate n pref min_area e.1 L a' →
               fgt a' a = false ∧ (e.1 + L < e.2 → fgt a a' = true).

(** [>] orders the values that satisfy [ok] (every rational; every binary64
    float but NaN): of two values at most one is greater than the other, and
    a value that is greater than [y] is greater than every [z] that is not
    greater than [y]. *)
Definition gt_orders {F} `{Arith F} (ok : F → Prop) : Prop :=
  (∀ x y, ok x → ok y → fgt x y = true → fgt y x = false) ∧
  (∀ x y z, ok x → ok y → ok z → fgt x y = true → fgt z y = false → fgt x z = true).

(** The reasons that [main] records. *)
Definition reason_vocabulary : list string :=
  ["booted-current"; "booted-previous"; "<=3d"; "daily"; "prod-first"; "prod-+24h";
   "prod-last"; "clump-longterm"; "monthly"; "pinned"].

(** [keep] holds only ids that [A] allows, [reasons] has an entry for the ids
    of [keep] and for no other, and every reason is one of the vocabulary. *)
Definition keep_inv (A : Z → Prop) (st : kstate) : Prop :=
  (∀ g, g ∈ st.1 → A g) ∧
  (∀ g, g ∈ st.1 ↔ is_Some (st.2 !! g)) ∧
  (∀ g r, st.2 !! g = Some r → r ∈ reason_vocabulary).

(** The timestamp that [main] calls [now]: the one of the last listed
    generation. *)
Definition now_of (gens : list (Z * Z)) : Z := (List.last gens (0, 0)).2.

(** ** list_generations *)

(** [gens.sort(key=lambda x: x[1])] on the rows matched in the output of
    [nix-env --list-generations], each already read as [(int(id), ts)].
    Python's sort is stable, and a stable sort has one possible result: the
    one of this insertion sort, which puts a row before the first row that
    is not earlier. *)
Fixpoint insert_by_ts (g : Z * Z) (l : list (Z * Z)) : list (Z * Z) :=
  match l with
  | [] => [g]
  | h :: r => if decide (g.2 ≤ h.2) then g :: h :: r else h :: insert_by_ts g r
  end.

Definition list_generations (rows : list (Z * Z)) : list (Z * Z) :=
  foldr insert_by_ts [] rows.

(** ** git_lines_delta *)

Module Git.

(** What git answers: whether [repo_dir/.git] is a directory, the stripped
    output of [git rev-list -1 --before=ts HEAD], and the lines of
    [git diff --numstat c_old c_new], each already cut into its parts by
    [line.strip().split()].  The output is taken to be ASCII. *)
Record repo := {
  has_git_dir : bool;
  rev_list : Z → string;
  diff_numstat : string → string → list (list string);
}.

Definition is_digit (c : Ascii.ascii) : bool :=
  (48 <=? Ascii.nat_of_ascii c)%nat && (Ascii.nat_of_ascii c <=? 57)%nat.

Fixpoint all_digits (s : string) : bool :=
  match s with
  | EmptyString => true
  | String c r => is_digit c && all_digits r
  end.

(** [s.isdigit()]: not empty, and digits only. *)
Definition isdigit (s : string) : bool :=
  match s with
  | EmptyString => false
  | String _ _ => all_digits s
  end.

Fixpoint int_from (acc : Z) (s : string) : Z :=
  match s with
  | EmptyString => acc
  | String c r => int_from (10 * acc + (Z.of_nat (Ascii.nat_of_ascii c) - 48)) r
  end.

(** [int(s)] for a string of digits. *)
Definition int (s : string) : Z := int_from 0 s.

(** The inner [commit_at]: [c if c else None]. *)
Definition commit_at (r : repo) (ts : Z) : option string :=
  let c := rev_list r ts in
  if decide (c = EmptyString) then None else Some c.

(** One round of the loop over the lines of the diff. *)
Definition count_line (acc : Z * Z) (parts : list string) : Z * Z :=
  let '(adds, dels) := acc in
  match parts with
  | p0 :: p1 :: _ :: _ =>
      if isdigit p0 && isdigit p1 then (adds + int p0, dels + int p1) else (adds, dels)
  | _ => (adds, dels)
  end.

Definition git_lines_delta (r : repo) (older_ts newer_ts : Z) : Z :=
  if negb (has_git_dir r) then 0
  else
    match commit_at r older_ts, commit_at r newer_ts with
    | Some c_old, Some c_new =>
        if decide (c_old = c_new) then 0
        else
          let '(adds, dels) := foldl count_line (0, 0) (diff_numstat r c_old c_new) in
          adds + dels
    | _, _ => 0
    end.

End Git.

(** ** Further example runs *)

(** A run with [--apply --sigma-hours 0]. *)
Definition zero_sigma_args : args := {| apply := true; dry_run := false; sigma_hours := 0 |}.

(** Generation 2 is pinned in the state file, which records an earlier
    deletion of generation 9 and holds a key of its own. *)
Definition pinned_state : json :=
  JObj {[ "gens" := JObj {[ "9" := JObj {[ "ts" := JStr "1969-12-01T00:00:00+00:00" ]} ]};
          "kept" := JObj ∅; "deleted" := JArr [JNum (Int 9)];
          "pinned" := JObj {[ "2" := JBool true ]};
          "meta" := JObj {[ "schema" := JNum (Int 1) ]};
          "note" := JStr "keep 2" ]}.

Definition world_pinned : world :=
  {| listing := three_gens; link_id := None; feats := no_features;
     state_file := Document pinned_state; delete_returncode := 0; clock := "1970-01-06T00:01:00.000250+00:00" |}.

(** A state file written by hand to pin generation 2: it has no [gens]. *)
Definition pinned_only : json := JObj {[ "pinned" := JObj {[ "2" := JBool true ]} ]}.

Definition world_pinned_only : world :=
  {| listing := three_gens; link_id := None; feats := no_features;
     state_file := Document pinned_only; delete_returncode := 0;
     clock := "1970-01-06T00:01:00.000250+00:00" |}.

(** A state file without [meta], and one with [meta] and without
    [deleted]. *)
Definition no_meta : json := JObj {[ "gens" := JObj ∅ ]}.
Definition no_deleted : json := JObj {[ "gens" := JObj ∅; "meta" := JObj ∅ ]}.

Definition world_no_meta : world :=
  {| listing := three_gens; link_id := None; feats := no_features;
     state_file := Document no_meta; delete_returncode := 0;
     clock := "1970-01-06T00:01:00.000250+00:00" |}.

Definition world_no_deleted : world :=
  {| listing := three_gens; link_id := None; feats := no_features;
     state_file := Document no_deleted; delete_returncode := 0;
     clock := "1970-01-06T00:01:00.000250+00:00" |}.

(** As [world_booted], at another time and with a failing delete command. *)
Definition world_booted_later : world :=
  {| listing := three_gens; link_id := Some 4; feats := some_features;
     state_file := Absent; delete_returncode := 1; clock := "1970-01-10T00:00:00+00:00" |}.

(** Two generations of the same day, a hundred days before the latest. *)
Definition world_old : world :=
  {| listing := [(1, 0); (2, 7200); (3, 100 * DAY)]; link_id := None; feats := no_features;
     state_file := Absent; delete_returncode := 0; clock := "1970-04-11T00:01:00.000250+00:00" |}.

(** Four builds twelve hours apart. *)
Definition four_builds : list (Z * Z) :=
  [(1, 0); (2, 12 * HOUR); (3, 24 * HOUR); (4, 36 * HOUR)].

(** Rows of a listing that is not in the order of the timestamps. *)
Definition unordered_rows : list (Z * Z) := [(3, 50); (1, 10); (2, 50)].

(** A repository with two commits, whose diff changes one text file and one
    binary file. *)
Definition two_commits : Git.repo :=
  {| Git.has_git_dir := true;
     Git.rev_list := λ ts, if decide (ts < 100) then "c0ffee"%string else "decade"%string;
     Git.diff_numstat := λ _ _, [["3"; "4"; "flake.nix"]; ["-"; "-"; "logo.png"]]%string |}.

(** * Properties *)

(** ** The normaliser and the scorer *)

Lemma pct_bounds (v : list Z) (x : Z) : (0 <= pct v x /\ pct v x <= 1)%Q.
Proof.
  unfold pct.
  destruct (decide (length v = 1%nat)); [split; discriminate|].
  cbv zeta.
  destruct (decide (_ = _)).
  - destruct (decide (_ ≤ _)); split; discriminate.
  - split; [apply Q.le_max_l|].
    apply Q.max_lub; [discriminate | apply Q.le_min_l].
Qed.

Lemma dict_comprehension_lookup {V} (f : Z → V) (keys : list Z) (k : Z) (x : V) :
  dict_comprehension f keys !! k = Some x → x = f k.
Proof.
  unfold dict_comprehension.
  assert (G : ∀ m : gmap Z V, (∀ y, m !! k = Some y → y = f k) →
              ∀ y, foldl (λ m k, <[k := f k]> m) m keys !! k = Some y → y = f k).
  { induction keys as [|a keys IH]; intros m Hm y; simpl; [apply Hm|].
    apply IH. intros z. destruct (decide (a = k)) as [->|Hne].
    - rewrite lookup_insert_eq. congruence.
    - rewrite lookup_insert_ne by done. apply Hm. }
  apply G. intros y. rewrite lookup_empty. discriminate.
Qed.

Lemma normalize_get_bounds (values : list Z) (k : Z) :
  (0 <= dict_get (normalize values) k 0 /\ dict_get (normalize values) k 0 <= 1)%Q.
Proof.
  unfold dict_get.
  destruct (normalize values !! k) as [q|] eqn:E; simpl; [|split; discriminate].
  unfold normalize in E. destruct values as [|a l]; [rewrite lookup_empty in E; discriminate|].
  apply dict_comprehension_lookup in E. subst q. apply pct_bounds.
Qed.

Section ScoreLoop.
Variables (lines_delta paths_delta : gmap Z Z) (norm_lines norm_paths : gmap Z Q).
Hypothesis Hlines : ∀ k, (0 <= dict_get norm_lines k 0 /\ dict_get norm_lines k 0 <= 1)%Q.
Hypothesis Hpaths : ∀ k, (0 <= dict_get norm_paths k 0 /\ dict_get norm_paths k 0 <= 1)%Q.

Local Abbreviation loop := (score_loop lines_delta paths_delta norm_lines norm_paths).

Lemma score_loop_other (i : nat) (gens : list (Z * Z)) (score : gmap Z Q) (g : Z) :
  g ∉ gens.*1 → loop i gens score !! g = score !! g.
Proof.
  revert i score. induction gens as [|[gid ts] gens IH]; intros i score Hg; simpl; [done|].
  simpl in Hg. apply not_elem_of_cons in Hg as [Hne Hg].
  rewrite IH by done. by rewrite lookup_insert_ne.
Qed.

Lemma score_loop_range (i : nat) (gens : list (Z * Z)) (score : gmap Z Q) :
  (∀ g s, score !! g = Some s → score_ok s) →
  ∀ g s, loop i gens score !! g = Some s → score_ok s.
Proof.
  revert i score. induction gens as [|[gid ts] gens IH]; intros i score Hs; simpl; [done|].
  apply IH. intros g s. destruct (decide (gid = g)) as [->|Hne].
  - rewrite lookup_insert_eq. intros [= <-].
    destruct (decide (i = 0%nat)); [unfold score_ok, base; lra|].
    specialize (Hlines (dict_get lines_delta g 0)).
    specialize (Hpaths (dict_get paths_delta g 0)).
    unfold score_ok, base. lra.
  - rewrite lookup_insert_ne by done. apply Hs.
Qed.

Lemma score_loop_dom (i : nat) (gens : list (Z * Z)) (score : gmap Z Q) (g : Z) :
  g ∈ gens.*1 ∨ is_Some (score !! g) → is_Some (loop i gens score !! g).
Proof.
  revert i score. induction gens as [|[gid ts] gens IH]; intros i score Hg; simpl.
  - destruct Hg as [Hg|Hg]; [by apply elem_of_nil in Hg | done].
  - apply IH. destruct (decide (gid = g)) as [->|Hne].
    + right. rewrite lookup_insert_eq. eauto.
    + rewrite lookup_insert_ne by done. destruct Hg as [Hg|Hg]; [|by right].
      simpl in Hg. apply elem_of_cons in Hg as [?|?]; [congruence | by left].
Qed.
End ScoreLoop.

Lemma scores_unfold (ft : features) (gens : list (Z * Z)) :
  scores ft gens =
  score_loop (deltas ft gens).1 (deltas ft gens).2
             (normalize (dict_values (deltas ft gens).1))
             (normalize (dict_values (deltas ft gens).2)) 0 gens ∅.
Proof. unfold scores. by destruct (deltas ft gens). Qed.

Lemma scores_range (ft : features) (gens : list (Z * Z)) (g : Z) (s : Q) :
  scores ft gens !! g = Some s → score_ok s.
Proof.
  rewrite scores_unfold. apply score_loop_range; try apply normalize_get_bounds.
  intros g' s'. rewrite lookup_empty. discriminate.
Qed.

Lemma scores_dom (ft : features) (gens : list (Z * Z)) (g : Z) :
  g ∈ gens.*1 → is_Some (scores ft gens !! g).
Proof. intros Hg. rewrite scores_unfold. apply score_loop_dom. by left. Qed.

(** C8. For a non-empty sequence of snapshots with distinct ids, the score of
    the first snapshot is exactly 0.1, and the score of every snapshot lies in
    the closed interval [0.1, 1.0]. *)
Theorem first_score_base_and_scores_in_range
    (ft : features) (g0 t0 : Z) (rest : list (Z * Z)) :
  NoDup ((g0, t0) :: rest).*1 →
  scores ft ((g0, t0) :: rest) !! g0 = Some (1 # 10)%Q ∧
  ∀ g, g ∈ ((g0, t0) :: rest).*1 →
       ∃ s, scores ft ((g0, t0) :: rest) !! g = Some s ∧ (1 # 10 <= s)%Q ∧ (s <= 1)%Q.
Proof.
  intros Hnd. split.
  - rewrite scores_unfold. simpl. simpl in Hnd. apply NoDup_cons in Hnd as [Hg0 _].
    rewrite score_loop_other by done. by rewrite lookup_insert_eq.
  - intros g Hg. destruct (scores_dom ft _ g Hg) as [s Hs].
    exists s. split; [done|]. by apply scores_range in Hs.
Qed.

(** ** The temporal smoother *)

Lemma mapM_total {A B} (f : A → option B) (P : B → Prop) (l : list A) :
  (∀ x, x ∈ l → ∃ y, f x = Some y ∧ P y) →
  ∃ k, mapM f l = Some k ∧ length k = length l ∧ Forall P k.
Proof.
  induction l as [|x l IH]; intros H; simpl.
  - exists []. by repeat split.
  - destruct (H x) as (y & Hy & Py); [by left|].
    destruct IH as (k & Hk & Hlen & HP); [intros z Hz; apply H; by right|].
    exists (y :: k). rewrite Hy. simpl. rewrite Hk. simpl.
    repeat split; [by rewrite Hlen | by constructor].
Qed.

Section SmootherProperties.
Variable exp : Q → Q.
Hypothesis exp_nonneg : ∀ x, (0 <= exp x)%Q.

Lemma kernel_sum_nonneg (s2 t : Z) (points : list (Z * Q)) (val : Q) :
  s2 ≠ 0 → (0 <= val)%Q → Forall (λ p, 0 <= p.2)%Q points →
  ∃ v, kernel_sum exp s2 t points val = Some v ∧ (0 <= v)%Q.
Proof.
  intros Hs2. revert val. induction points as [|[pt sc] points IH]; intros val Hval Hp; simpl.
  - by exists val.
  - apply Forall_cons in Hp as [Hsc Hp]. simpl in Hsc.
    destruct (decide (s2 = 0)); [done|]. simpl. apply IH; [|done].
    pose proof (exp_nonneg (- (inject_Z (Z.abs (pt - t)) / inject_Z HOUR
                               * (inject_Z (Z.abs (pt - t)) / inject_Z HOUR)) / inject_Z s2)).
    pose proof (Qmult_le_0_compat _ _ Hsc H). lra.
Qed.

Lemma last_elem_of {A} (l : list A) (d : A) : l ≠ [] → List.last l d ∈ l.
Proof.
  induction l as [|x l IH]; [done|]. intros _. destruct l as [|y l]; [by left|].
  right. by apply IH.
Qed.

Lemma first_le_last (p0 : Z * Q) (rest : list (Z * Q)) :
  StronglySorted Z.le (p0 :: rest).*1 → p0.1 ≤ (List.last (p0 :: rest) p0).1.
Proof.
  intros Hs. rewrite fmap_cons in Hs. apply StronglySorted_cons in Hs as [Hall _].
  pose proof (last_elem_of (p0 :: rest) p0 ltac:(done)) as Hin.
  apply elem_of_cons in Hin as [->|Hin]; [lia|].
  rewrite Forall_forall in Hall. apply Hall. by apply list_elem_of_fmap_2.
Qed.

(** C7, as the code has it. For a chronologically ordered input with
    non-negative scores and a non-zero bandwidth, the smoother returns a grid
    with exactly one entry per hour from the hour of the first timestamp to
    the hour of the last one, both included, that is
    [(floorHour(last) - floorHour(first)) / 1h + 1] entries for a non-empty
    input, and every density of the grid is at least 0.  The empty input
    yields the empty grid. *)
Theorem kernel_smooth_grid (points : list (Z * Q)) (sigma_hours : Z) :
  sigma_hours ≠ 0 →
  Forall (λ p, 0 <= p.2)%Q points →
  StronglySorted Z.le points.*1 →
  kernel_smooth exp [] sigma_hours = Some [] ∧
  ∃ grid, kernel_smooth exp points sigma_hours = Some grid ∧
          Z.of_nat (length grid) = hour_span points ∧
          Forall (λ e, 0 <= e.2)%Q grid.
Proof.
  intros Hsig Hsc Hord. split; [done|].
  destruct points as [|p0 rest]; [by exists []|].
  apply first_le_last in Hord.
  unfold kernel_smooth, hour_span.
  set (pts := p0 :: rest) in *.
  set (hours := (floor_hour (List.last pts p0).1 - floor_hour p0.1) / HOUR + 1).
  assert (Hs2 : 2 * sigma_hours ^ 2 ≠ 0) by nia.
  destruct (mapM_total
    (λ i, val ← kernel_sum exp (2 * sigma_hours ^ 2) (floor_hour p0.1 + HOUR * i) pts 0%Q;
          Some (floor_hour p0.1 + HOUR * i, val))
    (λ e, 0 <= e.2)%Q (seqZ 0 hours)) as (grid & Hg & Hlen & Hpos).
  { intros i _.
    destruct (kernel_sum_nonneg (2 * sigma_hours ^ 2) (floor_hour p0.1 + HOUR * i) pts 0%Q)
      as (v & Hv & Hv0); [done | discriminate | done |].
    exists (floor_hour p0.1 + HOUR * i, v). rewrite Hv. by split. }
  exists grid. split; [done|]. split; [|done].
  rewrite Hlen, length_seqZ.
  assert (0 ≤ hours); [|lia].
  unfold hours, floor_hour, HOUR.
  assert (p0.1 / 3600 ≤ (List.last pts p0).1 / 3600) by (apply Z.div_le_mono; lia).
  rewrite <- Z.mul_sub_distr_l, Z.mul_comm, Z.div_mul by lia. lia.
Qed.

(** The grid of the smoother is an hourly grid. *)
Lemma kernel_smooth_hourly (points : list (Z * Q)) (sigma_hours : Z) (grid : list (Z * Q)) :
  kernel_smooth exp points sigma_hours = Some grid →
  ∃ start, grid = hourly_grid start grid.*2.
Proof.
  destruct points as [|p0 rest]; [intros [= <-]; by exists 0|].
  unfold kernel_smooth. set (start := floor_hour p0.1).
  set (hours := (floor_hour (List.last (p0 :: rest) p0).1 - start) / HOUR + 1).
  intros Hg. exists start. pose proof (length_mapM _ _ _ Hg) as Hlen.
  apply mapM_Some_1 in Hg.
  assert (Hfst : grid.*1 = (λ i, start + HOUR * i) <$> seqZ 0 hours).
  { clear Hlen. revert Hg. generalize (seqZ 0 hours). intros l Hg.
    induction Hg as [|i e l k Hie _ IH]; [done|]. rewrite !fmap_cons. f_equal; [|exact IH].
    cbv zeta in Hie. destruct (kernel_sum _ _ _ _ _); [|done]. by injection Hie as <-. }
  unfold hourly_grid. rewrite length_fmap, <- Hlen, length_seqZ.
  replace (seqZ 0 (Z.of_nat (Z.to_nat hours))) with (seqZ 0 hours).
  - by rewrite <- Hfst, zip_fst_snd.
  - destruct (decide (0 ≤ hours)); [by rewrite Z2Nat.id|].
    by rewrite !seqZ_nil by lia.
Qed.
End SmootherProperties.

(** ** The window selector *)

Section Selector.
Context {F : Type} `{Arith F}.

Lemma length_prefix_from (acc : F) (vals : list F) :
  length (prefix_from acc vals) = length vals.
Proof. revert acc. induction vals as [|v r IH]; intros acc; simpl; [done|]. by rewrite IH. Qed.

Lemma length_prefix_sums (vals : list F) : length (prefix_sums vals) = S (length vals).
Proof. unfold prefix_sums. simpl. by rewrite length_prefix_from. Qed.

Lemma py_index_is_Some {A} (l : list A) (k : Z) :
  - Z.of_nat (length l) ≤ k < Z.of_nat (length l) → is_Some (py_index l k).
Proof.
  intros Hk. unfold py_index. repeat case_decide; try lia; apply lookup_lt_is_Some; lia.
Qed.

Lemma py_index_nonneg {A} (l : list A) (k : Z) :
  0 ≤ k → py_index l k = l !! Z.to_nat k.
Proof. intros Hk. unfold py_index. by rewrite decide_True. Qed.

Lemma area_is_Some (pref : list F) (n i j : Z) :
  Z.of_nat (length pref) = n + 1 → 0 ≤ i ≤ n → 0 ≤ j ≤ n → is_Some (area pref i j).
Proof.
  intros Hlen Hi Hj. unfold area.
  destruct (py_index_is_Some pref j) as [pj ->]; [lia|].
  destruct (py_index_is_Some pref i) as [pi ->]; [lia|]. simpl. eauto.
Qed.

Lemma scan_lengths_ok (n lo hi : Z) (pref : list F) (min_area : F) (i0 : Z)
    (Ls : list Z) (best : option (Z * Z * F)) :
  Z.of_nat (length pref) = n + 1 → 0 ≤ i0 ≤ n → 0 ≤ lo →
  Forall (λ L, lo ≤ L ≤ hi) Ls →
  best_ok n lo hi i0 best →
  ∃ b, scan_lengths n pref min_area i0 Ls best = Some b ∧ best_ok n lo hi i0 b.
Proof.
  intros Hlen Hi0 Hlo HLs. revert best.
  induction HLs as [|L Ls HL HLs IH]; intros best Hb; simpl; [by exists best|].
  destruct (decide (n < i0 + L)); [by exists best|].
  destruct (area_is_Some pref n i0 (i0 + L)) as [a ->]; [lia..|]. simpl.
  destruct (fge a min_area); [|by apply IH].
  destruct (match best with None => true | Some (_, _, b) => fgt a b end);
    [|by apply IH].
  apply IH. simpl. lia.
Qed.

Lemma first_unused_from_found (used : list bool) (i : Z) (p : nat) :
  (∀ k, (k < p)%nat → used !! k = Some true) → used !! p = Some false →
  first_unused_from i used = Some (i + Z.of_nat p).
Proof.
  revert i p. induction used as [|f r IH]; intros i p Hlt Hp; [done|].
  destruct p as [|p]; simpl in *.
  - injection Hp as ->. f_equal. lia.
  - pose proof (Hlt 0%nat ltac:(lia)) as H0. injection H0 as ->.
    rewrite (IH (i + 1) p); [f_equal; lia | | done].
    intros k Hk. apply (Hlt (S k)). lia.
Qed.

Lemma first_unused_from_none (used : list bool) (i : Z) :
  (∀ k, (k < length used)%nat → used !! k = Some true) → first_unused_from i used = None.
Proof.
  revert i. induction used as [|f r IH]; intros i Hall; [done|]. simpl.
  pose proof (Hall 0%nat ltac:(simpl; lia)) as H0. injection H0 as ->.
  apply IH. intros k Hk. apply (Hall (S k)). simpl. lia.
Qed.

Lemma first_unused_prefix (n p : Z) (used : list bool) :
  used_prefix n p used → 0 ≤ p ≤ n →
  first_unused used = if decide (p < n) then Some p else None.
Proof.
  intros [Hlen Hu] Hp. unfold first_unused. case_decide.
  - rewrite (first_unused_from_found used 0 (Z.to_nat p)); [f_equal; lia | |].
    + intros k Hk. rewrite Hu by lia. by rewrite bool_decide_eq_true_2 by lia.
    + rewrite Hu by lia. by rewrite bool_decide_eq_false_2 by lia.
  - apply first_unused_from_none. intros k Hk.
    rewrite Hu by lia. by rewrite bool_decide_eq_true_2 by lia.
Qed.

Lemma foldl_mark_length (l : list Z) (used : list bool) :
  length (foldl (λ u k, <[Z.to_nat k := true]> u) used l) = length used.
Proof.
  revert used. induction l as [|x l IH]; intros used; simpl; [done|].
  by rewrite IH, length_insert.
Qed.

Lemma foldl_mark_lookup (l : list Z) (used : list bool) (k : nat) :
  foldl (λ u x, <[Z.to_nat x := true]> u) used l !! k =
  (λ b, b || bool_decide (k ∈ Z.to_nat <$> l)) <$> used !! k.
Proof.
  revert used. induction l as [|x l IH]; intros used.
  - simpl. destruct (used !! k) as [b|]; simpl; [|done]. by rewrite orb_false_r.
  - cbn [foldl]. rewrite IH, list_lookup_insert, fmap_cons.
    destruct (decide (Z.to_nat x = k ∧ (Z.to_nat x < length used)%nat)) as [[<- Hlt]|Hx].
    + destruct (lookup_lt_is_Some_2 used _ Hlt) as [b ->]. simpl.
      rewrite (bool_decide_eq_true_2 (_ ∈ _ :: _)) by left. by rewrite orb_true_r.
    + destruct (used !! k) as [b|] eqn:E; simpl; [|done]. f_equal. f_equal.
      apply bool_decide_ext. rewrite elem_of_cons.
      split; [by right|]. intros [->|?]; [|done].
      exfalso. apply Hx. split; [done|]. by apply lookup_lt_Some in E.
Qed.

Lemma mask_prefix (n p j : Z) (used : list bool) :
  used_prefix n p used → 0 ≤ p < n → p ≤ j →
  used_prefix n (Z.min n (j + 12)) (mask n used p j).
Proof.
  intros [Hlen Hu] Hp Hj. unfold mask. split; [by rewrite foldl_mark_length|].
  intros k Hk. rewrite foldl_mark_lookup, Hu by done. simpl. f_equal.
  apply eq_bool_prop_intro. rewrite orb_True, !bool_decide_spec.
  rewrite list_elem_of_fmap. setoid_rewrite elem_of_seqZ. split.
  - intros [?|(x & -> & Hx)]; lia.
  - intros Hlt. destruct (decide (Z.of_nat k < p)); [by left|]. right.
    exists (Z.of_nat k). split; lia.
Qed.

Lemma skip_prefix (n p : Z) (used : list bool) :
  used_prefix n p used → 0 ≤ p < n →
  used_prefix n (p + 1) (<[Z.to_nat p := true]> used).
Proof.
  intros [Hlen Hu] Hp. split; [by rewrite length_insert|].
  intros k Hk. rewrite list_lookup_insert. case_decide as Hx.
  - destruct Hx as [<- _]. by rewrite bool_decide_eq_true_2 by lia.
  - rewrite Hu by done. f_equal. apply bool_decide_ext.
    assert (Z.to_nat p ≠ k) by (intros <-; apply Hx; split; [done|lia]). lia.
Qed.

Lemma select_loop_ok (n lo hi : Z) (pref : list F) (min_area : F) (Ls : list Z) :
  Z.of_nat (length pref) = n + 1 → 0 ≤ lo → Forall (λ L, lo ≤ L ≤ hi) Ls →
  ∀ (fuel : nat) (p : Z) (used : list bool) (selected : list (Z * Z)),
    used_prefix n p used → 0 ≤ p ≤ n → n - p < Z.of_nat fuel →
    Forall (win_ok n lo hi) selected →
    Forall (λ e, e.2 + 12 ≤ p ∨ p = n) selected →
    StronglySorted gap12 selected →
    ∃ res, select_loop fuel n pref min_area Ls used selected = Some res ∧
           Forall (win_ok n lo hi) res ∧ StronglySorted gap12 res.
Proof.
  intros Hlen Hlo HLs fuel.
  induction fuel as [|fuel IH]; intros p used selected Hu Hp Hfuel Hok Hfront Hsep.
  - lia.
  - simpl. rewrite (first_unused_prefix n p used) by done.
    destruct (decide (p < n)) as [Hlt|]; [|by exists selected].
    destruct (scan_lengths_ok n lo hi pref min_area p Ls None) as (b & -> & Hb);
      [done | lia | done | done | done |].
    simpl. destruct b as [[[i j] a]|].
    + simpl in Hb. destruct Hb as (-> & Hj1 & Hj2 & Hj3).
      apply (IH (Z.min n (j + 12))).
      * apply mask_prefix; [done | lia | lia].
      * lia.
      * lia.
      * apply Forall_app. split; [done|]. apply Forall_singleton. unfold win_ok. simpl. lia.
      * apply Forall_app. split.
        -- eapply Forall_impl; [exact Hfront|]. simpl. intros e He. lia.
        -- apply Forall_singleton. simpl. lia.
      * apply StronglySorted_app_2; [|done|repeat constructor].
        intros x1 x2 Hx1 Hx2. apply list_elem_of_singleton in Hx2 as ->.
        rewrite Forall_forall in Hfront. specialize (Hfront x1 Hx1).
        unfold gap12. simpl. lia.
    + apply (IH (p + 1)).
      * apply skip_prefix; [done | lia].
      * lia.
      * lia.
      * done.
      * eapply Forall_impl; [exact Hfront|]. simpl. intros e He. lia.
      * done.
Qed.

Lemma select_indices_ok (grid : list (Z * F)) (min_days max_days : Z) (min_area : F) :
  0 ≤ min_days →
  ∃ selected, select_indices grid min_days max_days min_area = Some selected ∧
    Forall (win_ok (Z.of_nat (length grid)) (min_days * 24) (max_days * 24)) selected ∧
    StronglySorted gap12 selected.
Proof.
  intros Hmin. unfold select_indices.
  apply (select_loop_ok _ (min_days * 24) (max_days * 24)) with (p := 0).
  - rewrite length_prefix_sums, length_fmap. lia.
  - lia.
  - apply Forall_forall. intros L HL. apply elem_of_seqZ in HL. lia.
  - split; [by rewrite length_replicate|].
    intros k Hk. rewrite lookup_replicate_2 by lia. by rewrite bool_decide_eq_false_2 by lia.
  - lia.
  - lia.
  - constructor.
  - constructor.
  - constructor.
Qed.

(** The window loop returns for every grid when [min_days] is not negative. *)
Lemma select_integral_windows_total (grid : list (Z * F)) (min_days max_days : Z) (min_area : F) :
  0 ≤ min_days → is_Some (select_integral_windows grid min_days max_days min_area).
Proof.
  intros Hmin. unfold select_integral_windows.
  destruct (select_indices_ok grid min_days max_days min_area Hmin) as (sel & -> & Hok & _).
  simpl. apply mapM_is_Some_2. eapply Forall_impl; [exact Hok|].
  intros [i j] (H1 & H2 & H3 & H4 & H5). simpl in *.
  destruct (py_index_is_Some grid i) as [s ->]; [lia|].
  destruct (py_index_is_Some grid (j - 1)) as [e ->]; [lia|]. simpl. eauto.
Qed.

Lemma length_hourly_grid (start : Z) (vals : list F) :
  length (hourly_grid start vals) = length vals.
Proof.
  unfold hourly_grid. rewrite length_zip_with, length_fmap, length_seqZ. lia.
Qed.

Lemma hourly_grid_lookup (start : Z) (vals : list F) (k : nat) :
  (k < length vals)%nat →
  ∃ v, hourly_grid start vals !! k = Some (start + HOUR * Z.of_nat k, v).
Proof.
  intros Hk. destruct (lookup_lt_is_Some_2 vals k Hk) as [v Hv]. exists v.
  unfold hourly_grid. rewrite lookup_zip_with, list_lookup_fmap, Hv.
  rewrite lookup_seqZ_lt by lia. simpl. do 3 f_equal.
Qed.

Lemma mapM_fmap_Forall {A B} (g : A → option B) (f : A → B) (l : list A) :
  Forall (λ x, g x = Some (f x)) l → mapM g l = Some (f <$> l).
Proof.
  induction 1 as [|x l Hx _ IH]; [done|]. simpl. rewrite Hx. simpl. by rewrite IH.
Qed.

Lemma StronglySorted_lookup_lt {A} (R : relation A) (l : list A) (a b : nat) (x y : A) :
  StronglySorted R l → (a < b)%nat → l !! a = Some x → l !! b = Some y → R x y.
Proof.
  intros Hs. revert a b. induction Hs as [|z l Hs IH Hz]; intros a b Hab Ha Hb; [done|].
  destruct b as [|b]; [lia|]. simpl in Hb. destruct a as [|a]; simpl in Ha.
  - injection Ha as ->. rewrite Forall_forall in Hz. apply Hz.
    by eapply list_elem_of_lookup_2.
  - apply (IH a b); [lia | done | done].
Qed.

Lemma select_windows_hourly (start : Z) (vals : list F) (min_days max_days : Z) (min_area : F) :
  1 ≤ min_days →
  ∃ sel,
    Forall (win_ok (Z.of_nat (length vals)) (min_days * 24) (max_days * 24)) sel ∧
    StronglySorted gap12 sel ∧
    select_integral_windows (hourly_grid start vals) min_days max_days min_area
      = Some (win_times start <$> sel).
Proof.
  intros Hmin. unfold select_integral_windows.
  destruct (select_indices_ok (hourly_grid start vals) min_days max_days min_area)
    as (sel & -> & Hok & Hsep); [lia|].
  rewrite length_hourly_grid in Hok.
  exists sel. split; [done|]. split; [done|]. simpl.
  apply mapM_fmap_Forall. eapply Forall_impl; [exact Hok|].
  intros [i j] (H1 & H2 & H3 & H4 & H5). simpl in *.
  rewrite !py_index_nonneg by lia.
  destruct (hourly_grid_lookup start vals (Z.to_nat i)) as [v ->]; [lia|].
  destruct (hourly_grid_lookup start vals (Z.to_nat (j - 1))) as [v' ->]; [lia|].
  rewrite !Z2Nat.id by lia. done.
Qed.

(** C4, as the code has it. On an hourly grid and for [1 ≤ minDays], the
    selector returns, and every window [(start, end)] it returns covers [L]
    grid entries with [minDays·24 ≤ L ≤ maxDays·24]: [end - start] is
    [(L - 1)] hours, between [minDays·24 - 1] and [maxDays·24 - 1] hours. *)
Theorem window_length_bounds (start : Z) (vals : list F) (min_days max_days : Z) (min_area : F) :
  1 ≤ min_days →
  ∃ ws, select_integral_windows (hourly_grid start vals) min_days max_days min_area = Some ws ∧
        ∀ s e, (s, e) ∈ ws →
          (∃ L, min_days * 24 ≤ L ≤ max_days * 24 ∧ e - s = (L - 1) * HOUR) ∧
          (min_days * 24 - 1) * HOUR ≤ e - s ≤ (max_days * 24 - 1) * HOUR.
Proof.
  intros Hmin.
  destruct (select_windows_hourly start vals min_days max_days min_area Hmin)
    as (sel & Hok & _ & ->).
  eexists. split; [done|]. intros s e Hin.
  apply list_elem_of_fmap in Hin as ([i j] & Heq & Hin).
  rewrite Forall_forall in Hok. destruct (Hok _ Hin) as (H1 & H2 & H3 & H4 & H5).
  unfold win_times in Heq. simpl in *. injection Heq as -> ->. unfold HOUR.
  split; [exists (j - i); lia | lia].
Qed.

(** C6, as the code has it. On an hourly grid and for [1 ≤ minDays], the
    selector returns, and any two windows it returns are disjoint and at least
    13 hours apart, so that each window, expanded by its guard band of 12
    hours on both sides, is still disjoint from every other window. *)
Theorem windows_disjoint_with_guard (start : Z) (vals : list F) (min_days max_days : Z)
    (min_area : F) :
  1 ≤ min_days →
  ∃ ws, select_integral_windows (hourly_grid start vals) min_days max_days min_area = Some ws ∧
        ∀ (a b : nat) (w w' : Z * Z),
          a ≠ b → ws !! a = Some w → ws !! b = Some w' →
          w.1 ≤ w.2 ∧ apart w w' ∧ apart (guard_band w) w' ∧
          ((a < b)%nat → w.2 + 13 * HOUR ≤ w'.1).
Proof.
  intros Hmin.
  destruct (select_windows_hourly start vals min_days max_days min_area Hmin)
    as (sel & Hok & Hsep & ->).
  eexists. split; [done|].
  assert (Hs : StronglySorted (λ w w', w.2 + 13 * HOUR ≤ w'.1) (win_times start <$> sel)).
  { eapply StronglySorted_fmap; [|exact Hsep].
    intros [i j] [i' j']. unfold gap12, win_times, HOUR. simpl. lia. }
  assert (Hle : ∀ k w, (win_times start <$> sel) !! k = Some w → w.1 ≤ w.2).
  { intros k w Hk. apply list_lookup_fmap_Some in Hk as ([i j] & -> & Hk).
    rewrite Forall_forall in Hok.
    destruct (Hok (i, j)) as (H1 & H2 & H3 & H4 & H5); [by eapply list_elem_of_lookup_2|].
    unfold win_times, HOUR. simpl in *. lia. }
  intros a b w w' Hab Ha Hb.
  pose proof (Hle a w Ha). pose proof (Hle b w' Hb).
  unfold apart, guard_band, HOUR in *. simpl.
  destruct (decide (a < b)%nat) as [Hlt|Hge].
  - pose proof (StronglySorted_lookup_lt _ _ a b w w' Hs Hlt Ha Hb) as G. simpl in G.
    unfold HOUR in G. repeat split; try lia. 
  - pose proof (StronglySorted_lookup_lt _ _ b a w' w Hs ltac:(lia) Hb Ha) as G. simpl in G.
    unfold HOUR in G. repeat split; try lia.
Qed.

End Selector.

(** ** The planner: termination *)

Lemma find_stretch_bound (i : nat) (ti : Z) (rest : list (Z * Z)) (j j' : nat) :
  find_stretch i ti j rest = Some j' → (j ≤ j' < j + length rest)%nat.
Proof.
  revert j. induction rest as [|[g tj] rest IH]; intros j; simpl; [done|].
  assert (find_stretch i ti (S j) rest = Some j' → (j ≤ j' < j + S (length rest))%nat)
    by (intros H; apply IH in H; lia).
  destruct (decide (36 * HOUR ≤ tj - ti)); [|done].
  destruct (Qle_bool _ _); [|done]. intros [= <-]. lia.
Qed.

Lemma prod_loop_total (subset : list (Z * Z)) (fuel i : nat) (st : kstate) :
  (length subset ≤ fuel + i)%nat → is_Some (prod_loop fuel subset i st).
Proof.
  revert i st. induction fuel as [|fuel IH]; intros i st Hf; simpl.
  - rewrite decide_False by lia. eauto.
  - destruct (decide (Z.of_nat i < Z.of_nat (length subset) - 1)) as [Hi|]; [|eauto].
    destruct (lookup_lt_is_Some_2 subset i) as [[first_gid first_ts] ->]; [lia|]. simpl.
    destruct (find_stretch i first_ts (S i) (drop (S i) subset)) as [j|] eqn:E.
    + apply find_stretch_bound in E. rewrite length_drop in E.
      destruct (lookup_lt_is_Some_2 subset j) as [[last_gid last_ts] ->]; [lia|]. simpl.
      apply IH. lia.
    + apply IH. lia.
Qed.

Lemma keep_productive_total (now : Z) (gens : list (Z * Z)) (st : kstate) :
  is_Some (keep_productive now gens st).
Proof.
  unfold keep_productive. case_decide; [|eauto]. apply prod_loop_total. lia.
Qed.

Lemma keep_clumps_total (now : Z) (gens : list (Z * Z)) (grid : list (Z * Q)) (st : kstate) :
  is_Some (keep_clumps now gens grid st).
Proof.
  unfold keep_clumps. destruct (filter _ grid) as [|e tail]; [eauto|].
  destruct (select_integral_windows_total (e :: tail) 5 10 0%Q) as [ws ->]; [lia|].
  simpl. eauto.
Qed.

(** ** The planner: the keep-set only grows *)

Lemma keep_add_grows (g : Z) (r : string) (st : kstate) : st.1 ⊆ (keep_add g r st).1.
Proof. unfold keep_add. simpl. set_solver. Qed.

Lemma keep_add_elem (g : Z) (r : string) (st : kstate) : g ∈ (keep_add g r st).1.
Proof. unfold keep_add. simpl. set_solver. Qed.

Lemma keep_new_grows (g : Z) (r : string) (st : kstate) : st.1 ⊆ (keep_new g r st).1.
Proof. unfold keep_new. case_decide; [done | apply keep_add_grows]. Qed.

Lemma foldl_grows {A} (f : kstate → A → kstate) (l : list A) (st : kstate) :
  (∀ st x, st.1 ⊆ (f st x).1) → st.1 ⊆ (foldl f st l).1.
Proof.
  intros Hf. revert st. induction l as [|x l IH]; intros st; simpl; [done|].
  etrans; [apply (Hf st x) | apply IH].
Qed.

Lemma keep_booted_grows (o : option Z) (r : string) (st : kstate) :
  st.1 ⊆ (keep_booted o r st).1.
Proof.
  unfold keep_booted. destruct o as [c|]; [|done].
  destruct (truthy _); [apply keep_add_grows | done].
Qed.

Lemma keep_booted_elem (c : Z) (r : string) (st : kstate) :
  c ≠ 0 → c ∈ (keep_booted (Some c) r st).1.
Proof.
  intros Hc. unfold keep_booted, truthy.
  destruct (Z.eqb_spec c 0); [done|]. apply keep_add_elem.
Qed.

Lemma keep_recent_grows (now : Z) (gens : list (Z * Z)) (st : kstate) :
  st.1 ⊆ (keep_recent now gens st).1.
Proof.
  apply foldl_grows. intros st' [gid ts]. case_decide; [apply keep_add_grows | done].
Qed.

Lemma keep_values_grows (r : string) (d : gmap Z (Z * Z)) (st : kstate) :
  st.1 ⊆ (keep_values r d st).1.
Proof. apply foldl_grows. intros st' [k [gid ts]]. apply keep_new_grows. Qed.

Lemma prod_loop_grows (subset : list (Z * Z)) (fuel i : nat) (st st' : kstate) :
  prod_loop fuel subset i st = Some st' → st.1 ⊆ st'.1.
Proof.
  revert i st. induction fuel as [|fuel IH]; intros i st; simpl.
  - case_decide; [done|]. by intros [= <-].
  - case_decide; [|by intros [= <-]].
    destruct (subset !! i) as [[first_gid first_ts]|]; [|done]. simpl.
    destruct (find_stretch _ _ _ _) as [j|].
    + destruct (subset !! j) as [[last_gid last_ts]|]; [|done]. simpl.
      intros Hloop. apply IH in Hloop. etrans; [|exact Hloop].
      etrans; [|apply keep_new_grows].
      destruct (closest_to _ _) as [[[mid_gid mid_ts] mdiff]|].
      * etrans; [|apply keep_new_grows]. apply keep_new_grows.
      * apply keep_new_grows.
    + apply IH.
Qed.

Lemma keep_productive_grows (now : Z) (gens : list (Z * Z)) (st st' : kstate) :
  keep_productive now gens st = Some st' → st.1 ⊆ st'.1.
Proof.
  unfold keep_productive. case_decide; [apply prod_loop_grows | by intros [= <-]].
Qed.

Lemma keep_windows_grows (gens windows : list (Z * Z)) (st : kstate) :
  st.1 ⊆ (keep_windows gens windows st).1.
Proof.
  apply foldl_grows. intros st' [ws we].
  cbv zeta.
  match goal with |- context [last ?l] => destruct (last l) as [[gid_keep ts_keep]|] end;
    [apply keep_new_grows | done].
Qed.

Lemma keep_clumps_grows (now : Z) (gens : list (Z * Z)) (grid : list (Z * Q)) (st st' : kstate) :
  keep_clumps now gens grid st = Some st' → st.1 ⊆ st'.1.
Proof.
  unfold keep_clumps. destruct (filter _ grid); [by intros [= <-]|].
  destruct (select_integral_windows _ _ _ _) as [ws|]; [|done]. simpl.
  intros [= <-]. apply keep_windows_grows.
Qed.

(** ** Persisting and deciding *)

Lemma str_inj (x y : Z) : str x = str y → x = y.
Proof. apply pretty_Z_inj. Qed.

Lemma is_pinned_insert (m : gmap string json) (k : string) (v : json) (gid : Z) :
  k ≠ "pinned"%string → is_pinned (JObj (<[k := v]> m)) gid = is_pinned (JObj m) gid.
Proof. intros Hk. unfold is_pinned, get. by rewrite lookup_insert_ne. Qed.

Lemma pinned_insert (m : gmap string json) (k : string) (v : json) (gid : Z) :
  k ≠ "pinned"%string → pinned (JObj (<[k := v]> m)) gid = pinned (JObj m) gid.
Proof. intros Hk. unfold pinned. by rewrite is_pinned_insert. Qed.

Lemma pinned_ok_insert (m : gmap string json) (k : string) (v : json) :
  k ≠ "pinned"%string → pinned_ok (JObj (<[k := v]> m)) = pinned_ok (JObj m).
Proof. intros Hk. unfold pinned_ok, get. by rewrite lookup_insert_ne. Qed.

(** The test of line 340 raises exactly on the documents that [pinned_ok]
    excludes, whatever the id. *)
Lemma is_pinned_cases (state : json) (gid : Z) :
  if pinned_ok state then is_pinned state gid = Some (pinned state gid)
  else is_pinned state gid = None.
Proof.
  unfold pinned, pinned_ok, is_pinned.
  destruct (get state "pinned" (JObj ∅)) as [p|]; [|done]. cbn [mbind option_bind].
  destruct p; try done; cbn [contains];
    match goal with |- Some ?b = _ => by destruct b end.
Qed.

Lemma entry_ok_insert (g : gmap string json) (gid gid' : Z) (o : gmap string json) :
  entry_ok g gid = true →
  entry_ok (<[str gid := JObj o]> g) gid' = entry_ok g gid'.
Proof.
  intros Hok. unfold entry_ok in *. destruct (decide (gid = gid')) as [<-|Hne].
  - rewrite lookup_insert_eq. by rewrite Hok.
  - rewrite lookup_insert_ne; [done|]. intros E. by apply str_inj in E.
Qed.

Lemma persist_keep_ext (p q : Z → bool) (gens : list (Z * Z)) (st : kstate) :
  (∀ g, p g = q g) → persist_keep p gens st = persist_keep q gens st.
Proof.
  intros Hpq. unfold persist_keep. revert st.
  induction gens as [|[gid ts] gens IH]; intros st; cbn [foldl]; [done|].
  by rewrite Hpq, IH.
Qed.

(** One round of the loop on a document whose [gens] is a dict. *)
Lemma persist_step_eq (score : gmap Z Q) (m g : gmap string json) (st : kstate)
    (gid ts : Z) :
  m !! "gens"%string = Some (JObj g) →
  persist_step score (JObj m, st) (gid, ts) =
  if entry_ok g gid && pinned_ok (JObj m) then
    Some (JObj (<["gens"%string := JObj (<[str gid := gen_entry score g gid ts]> g)]> m),
          if pinned (JObj m) gid then keep_add gid "pinned" st else st)
  else None.
Proof.
  intros Hg. unfold persist_step, record_gen. cbn [getitem]. rewrite Hg.
  cbn [mbind option_bind]. unfold entry_ok, gen_entry.
  assert (Hpin : ∀ v, is_pinned (JObj (<["gens"%string := v]> m)) gid = is_pinned (JObj m) gid)
    by (intros v; by apply is_pinned_insert).
  pose proof (is_pinned_cases (JObj m) gid) as Hc.
  destruct (g !! str gid) as [[| | | | |o]|] eqn:Ee; try done.
  - cbn [default from_option id setitem mbind option_bind andb]. rewrite Hpin.
    destruct (pinned_ok (JObj m)); by rewrite Hc.
  - cbn [default from_option id setitem mbind option_bind andb]. rewrite Hpin.
    destruct (pinned_ok (JObj m)); by rewrite Hc.
Qed.

(** The loop on a document whose [gens] is a dict: it raises on the first
    listed id whose entry is not a dict and, when there is a generation, on a
    [pinned] that is not a container; otherwise every listed id gets its
    entry and the listed pinned ids are kept. *)
Lemma persist_loop_dict (score : gmap Z Q) (gens : list (Z * Z)) (m g : gmap string json)
    (st : kstate) :
  m !! "gens"%string = Some (JObj g) →
  persist_loop score gens (JObj m, st) =
  if forallb (entry_ok g) gens.*1 && (bool_decide (gens = []) || pinned_ok (JObj m)) then
    Some (JObj (<["gens"%string := JObj (persist_gens score gens g)]> m),
          persist_keep (pinned (JObj m)) gens st)
  else None.
Proof.
  revert m g st. induction gens as [|[gid ts] gens IH]; intros m g st Hg.
  - cbn. by rewrite insert_id.
  - cbn [persist_loop]. rewrite (persist_step_eq score m g st gid ts Hg).
    cbn [fmap list_fmap forallb fst]. rewrite bool_decide_eq_false_2 by done.
    cbn [orb].
    destruct (entry_ok g gid) eqn:Hok; cbn [andb]; [|done].
    destruct (pinned_ok (JObj m)) eqn:Hp; cbn [mbind option_bind];
      [|by rewrite andb_false_r].
    rewrite (IH _ (<[str gid := gen_entry score g gid ts]> g)) by apply lookup_insert_eq.
    rewrite pinned_ok_insert, Hp, orb_true_r, !andb_true_r by done.
    assert (Hall : forallb (entry_ok (<[str gid := gen_entry score g gid ts]> g)) gens.*1
                   = forallb (entry_ok g) gens.*1).
    { clear IH. generalize (gens.*1). intros l.
      induction l as [|x l IHl]; [done|]. cbn [forallb]. rewrite IHl.
      unfold gen_entry. by rewrite entry_ok_insert. }
    rewrite Hall. destruct (forallb (entry_ok g) gens.*1); [|done].
    rewrite insert_insert_eq.
    rewrite (persist_keep_ext _ (pinned (JObj m))) by (intros x; by apply pinned_insert).
    done.
Qed.

(** The loop on any document, for a listing that is not empty. *)
Lemma persist_loop_eq (score : gmap Z Q) (gens : list (Z * Z)) (state : json) (st : kstate) :
  gens ≠ [] →
  persist_loop score gens (state, st) =
  if gens_ok gens state && pinned_ok state then
    match state with
    | JObj m =>
        match m !! "gens"%string with
        | Some (JObj g) =>
            Some (JObj (<["gens"%string := JObj (persist_gens score gens g)]> m),
                  persist_keep (pinned state) gens st)
        | _ => None
        end
    | _ => None
    end
  else None.
Proof.
  intros Hne. unfold gens_ok.
  destruct (getitem state "gens") as [e|] eqn:Hg; cycle 1.
  { destruct gens as [|[gid ts] gens]; [done|].
    cbn [persist_loop]. unfold persist_step, record_gen. by rewrite Hg. }
  destruct e as [| | | | |g];
    try (destruct gens as [|[gid ts] gens]; [done|];
         cbn [persist_loop]; unfold persist_step, record_gen; by rewrite Hg).
  destruct state as [| | | | |m]; try done. cbn [getitem] in Hg. rewrite Hg.
  rewrite (persist_loop_dict score gens m g st Hg).
  by rewrite bool_decide_eq_false_2 by done.
Qed.

Lemma persist_gens_records (score : gmap Z Q) (gens : list (Z * Z)) (g : gmap string json)
    (gid : Z) :
  gid ∈ gens.*1 →
  ∃ ts o, (gid, ts) ∈ gens ∧
          persist_gens score gens g !! str gid = Some (JObj o) ∧
          o !! "ts"%string = Some (JStr (isoformat ts)) ∧
          o !! "score"%string = Some (JNum (Float (dict_get score gid 0%Q))).
Proof.
  unfold persist_gens. revert g.
  induction gens as [|[g' t] gens IH] using rev_ind; intros g Hin.
  - by apply elem_of_nil in Hin.
  - rewrite foldl_app. cbn [foldl]. destruct (decide (g' = gid)) as [->|Hne].
    + exists t. eexists. split; [apply elem_of_app; right; by left|].
      unfold gen_entry. rewrite lookup_insert_eq. split; [done|].
      split; [by rewrite lookup_insert_ne, lookup_insert_eq | by rewrite lookup_insert_eq].
    + rewrite lookup_insert_ne by (intros E; by apply str_inj in E).
      rewrite fmap_app in Hin. apply elem_of_app in Hin as [Hin|Hin].
      * destruct (IH g Hin) as (ts & o & Hts & Hl). exists ts, o. split; [|done].
        apply elem_of_app. by left.
      * cbn in Hin. apply list_elem_of_singleton in Hin. congruence.
Qed.

Lemma persist_gens_other (score : gmap Z Q) (gens : list (Z * Z)) (g : gmap string json)
    (k : string) :
  (∀ gid, gid ∈ gens.*1 → k ≠ str gid) →
  persist_gens score gens g !! k = g !! k.
Proof.
  unfold persist_gens. revert g.
  induction gens as [|[g' t] gens IH]; intros g Hk; cbn [foldl]; [done|].
  rewrite IH.
  - rewrite lookup_insert_ne; [done|]. intros E. apply (Hk g'); [by left | done].
  - intros gid Hgid. apply Hk. by right.
Qed.

(** After the loop every listed id has a dict for its entry. *)
Lemma persist_gens_ok (score : gmap Z Q) (gens : list (Z * Z)) (g : gmap string json) :
  forallb (entry_ok (persist_gens score gens g)) gens.*1 = true.
Proof.
  apply forallb_forall. intros gid Hgid. apply list_elem_of_In in Hgid.
  destruct (persist_gens_records score gens g gid Hgid) as (ts & o & _ & Hl & _).
  unfold entry_ok. by rewrite Hl.
Qed.

Lemma persist_keep_grows (pin : Z → bool) (gens : list (Z * Z)) (st : kstate) :
  st.1 ⊆ (persist_keep pin gens st).1.
Proof.
  apply foldl_grows. intros st' [gid ts]. destruct (pin gid); [apply keep_add_grows | done].
Qed.

(** What the planning gives from the keep-set of the tiers on. *)
Lemma decide_deletions_eq (ft : features) (gens : list (Z * Z)) (cur prev : option Z)
    (st0 : json) (st : kstate) :
  gens ≠ [] →
  let fin := persist_keep (pinned st0) gens st in
  decide_deletions ft gens cur prev st0 st =
  if gens_ok gens st0 && pinned_ok st0 then
    match st0 with
    | JObj m =>
        match m !! "gens"%string with
        | Some (JObj g) =>
            Some {| plan_state :=
                      JObj (<["kept"%string := kept_json fin.1 fin.2]>
                              (<["gens"%string := JObj (persist_gens (scores ft gens) gens g)]>
                                 m));
                    plan_keep := kept_map fin.1 fin.2;
                    plan_delete := sorted (delete_ids cur prev fin.1 gens) |}
        | _ => None
        end
    | _ => None
    end
  else None.
Proof.
  intros Hne fin. unfold decide_deletions. rewrite (persist_loop_eq _ _ _ _ Hne).
  destruct (gens_ok gens st0 && pinned_ok st0); [|done].
  destruct st0 as [| | | | |m]; try done.
  destruct (m !! "gens"%string) as [[| | | | |g]|]; try done.
  cbn [mbind option_bind]. fold fin. by destruct fin as [keep reasons].
Qed.

Lemma kept_map_lookup (keep : gset Z) (reasons : gmap Z string) (g : Z) :
  kept_map keep reasons !! g
  = if decide (g ∈ keep) then Some (dict_get reasons g EmptyString) else None.
Proof.
  unfold kept_map. case_decide as Hg.
  - apply lookup_set_to_map; [by intros ?? _ _ [= ->]|]. by exists g.
  - destruct (set_to_map _ keep !! g) as [x|] eqn:E; [|done].
    apply lookup_set_to_map in E as (y & Hy & Heq); [|by intros ?? _ _ [= ->]].
    by injection Heq as -> _.
Qed.

Lemma list_remove_first_subseteq (x : Z) (l : list Z) : list_remove_first x l ⊆ l.
Proof.
  induction l as [|y l IH]; simpl; [done|]. destruct (decide (x = y)).
  - intros z Hz. by right.
  - intros z Hz. apply elem_of_cons in Hz as [->|Hz]; [by left | right; by apply IH].
Qed.

Lemma list_remove_first_NoDup (x : Z) (l : list Z) :
  NoDup l → x ∉ list_remove_first x l.
Proof.
  induction l as [|y l IH]; simpl; intros Hnd; [apply not_elem_of_nil|].
  apply NoDup_cons in Hnd as [Hy Hnd]. case_decide as Hxy.
  - by subst.
  - apply not_elem_of_cons. split; [done | by apply IH].
Qed.

Lemma list_remove_first_NoDup_2 (x : Z) (l : list Z) :
  NoDup l → NoDup (list_remove_first x l).
Proof.
  induction l as [|y l IH]; simpl; intros Hnd; [done|].
  apply NoDup_cons in Hnd as [Hy Hnd]. case_decide; [done|].
  apply NoDup_cons. split; [|by apply IH].
  intros Hin. apply Hy. by apply list_remove_first_subseteq in Hin.
Qed.

Lemma remove_if_in_subseteq (o : option Z) (l : list Z) : remove_if_in o l ⊆ l.
Proof.
  unfold remove_if_in. destruct o as [c|]; [|done].
  case_decide; [apply list_remove_first_subseteq | done].
Qed.

Lemma remove_if_in_absent (c : Z) (l : list Z) : NoDup l → c ∉ remove_if_in (Some c) l.
Proof.
  intros Hnd. unfold remove_if_in. case_decide; [by apply list_remove_first_NoDup | done].
Qed.

Lemma elem_of_sorted (x : Z) (l : list Z) : x ∈ sorted l ↔ x ∈ l.
Proof. unfold sorted. by rewrite merge_sort_Permutation. Qed.

Lemma delete_ids_not_kept (cur prev : option Z) (keep : gset Z) (gens : list (Z * Z)) (g : Z) :
  g ∈ delete_ids cur prev keep gens → g ∈ gens.*1 ∧ g ∉ keep.
Proof.
  unfold delete_ids. intros Hin.
  do 2 apply remove_if_in_subseteq in Hin. by apply list_elem_of_filter in Hin as [? ?].
Qed.

(** ** The run *)

Section RunProperties.
Variable exp : Q → Q.

Lemma kernel_sum_total (s2 t : Z) (points : list (Z * Q)) (val : Q) :
  s2 ≠ 0 → is_Some (kernel_sum exp s2 t points val).
Proof.
  intros Hs2. revert val. induction points as [|[pt sc] points IH]; intros val; simpl; [eauto|].
  destruct (decide (s2 = 0)); [done|]. simpl. apply IH.
Qed.

Lemma kernel_smooth_total (points : list (Z * Q)) (sigma : Z) :
  sigma ≠ 0 → is_Some (kernel_smooth exp points sigma).
Proof.
  intros Hsig. destruct points as [|p0 rest]; [by eexists|].
  unfold kernel_smooth. apply mapM_is_Some_2, Forall_forall. intros i _.
  unfold compose. cbv beta zeta.
  destruct (kernel_sum_total (2 * sigma ^ 2) (floor_hour p0.1 + HOUR * i) (p0 :: rest) 0%Q)
    as [v ->]; [nia|]. simpl. eauto.
Qed.

Lemma tiers_total (ft : features) (gens : list (Z * Z)) (cur prev : option Z) (sigma : Z) :
  sigma ≠ 0 → is_Some (tiers exp ft gens cur prev sigma).
Proof.
  intros Hsig. unfold tiers.
  destruct (kernel_smooth_total
              ((λ '(gid, ts), (ts, dict_get (scores ft gens) gid 0%Q)) <$> gens) sigma Hsig)
    as [grid ->]. simpl.
  match goal with |- context [keep_productive ?n ?g ?s] =>
    destruct (keep_productive_total n g s) as [st1 ->] end. simpl.
  match goal with |- context [keep_clumps ?n ?g ?gr ?s] =>
    destruct (keep_clumps_total n g gr s) as [st2 ->] end. simpl. eauto.
Qed.

Lemma tiers_protected (ft : features) (gens : list (Z * Z)) (cur prev : option Z)
    (sigma : Z) (st : kstate) (c : Z) :
  tiers exp ft gens cur prev sigma = Some st →
  cur = Some c ∨ prev = Some c → c ≠ 0 → c ∈ st.1.
Proof.
  unfold tiers. intros Ht Hc Hc0.
  destruct (kernel_smooth _ _ _) as [grid|]; [|done]. simpl in Ht.
  destruct (keep_productive _ _ _) as [st1|] eqn:E1; [|done]. simpl in Ht.
  destruct (keep_clumps _ _ _ _) as [st2|] eqn:E2; [|done]. simpl in Ht.
  injection Ht as <-.
  apply keep_values_grows. apply (keep_clumps_grows _ _ _ _ _ E2).
  apply (keep_productive_grows _ _ _ _ E1).
  apply keep_values_grows, keep_recent_grows.
  destruct Hc as [->| ->].
  - apply keep_booted_grows. by apply keep_booted_elem.
  - by apply keep_booted_elem.
Qed.

Lemma main_empty (a : args) (w : world) :
  listing w = [] →
  main exp a w
  = {| exit_code := Some 0; trace := []; file_after := state_file w; report := None |}.
Proof. intros El. unfold main. by rewrite El. Qed.

Lemma main_load_fails (a : args) (w : world) :
  listing w ≠ [] → load_state (state_file w) = None → main exp a w = raised (state_file w).
Proof.
  intros Hne Hload. unfold main. destruct (listing w); [done|]. simpl. by rewrite Hload.
Qed.

Lemma main_tiers_fail (a : args) (w : world) (st0 : json) :
  listing w ≠ [] → load_state (state_file w) = Some st0 →
  tiers exp (feats w) (listing w) (link_id w) (booted_generations (link_id w)).2
        (sigma_hours a) = None →
  main exp a w = raised (state_file w).
Proof.
  intros Hne Hload Ht. unfold main. destruct (listing w); [done|].
  unfold booted_generations in *. cbn [fst snd] in *. rewrite Hload. unfold planner.
  by rewrite Ht.
Qed.

(** The run from the loaded state and the keep-set of the tiers on. *)
Lemma main_planned (a : args) (w : world) (st0 : json) (st : kstate) :
  listing w ≠ [] →
  load_state (state_file w) = Some st0 →
  tiers exp (feats w) (listing w) (link_id w) (booted_generations (link_id w)).2
        (sigma_hours a) = Some st →
  main exp a w =
  match decide_deletions (feats w) (listing w) (link_id w)
                         (booted_generations (link_id w)).2 st0 st with
  | None => raised (state_file w)
  | Some p =>
      let rep := Some (plan_keep p, plan_delete p) in
      match stamp (plan_state p) (clock w) with
      | None => {| exit_code := None; trace := []; file_after := state_file w; report := rep |}
      | Some s =>
          if plan_only a then
            {| exit_code := Some 0; trace := []; file_after := Document s; report := rep |}
          else
            match plan_delete p with
            | [] => {| exit_code := Some 0; trace := []; file_after := Document s;
                       report := rep |}
            | _ :: _ =>
                let tr := [RunDeleteGenerations (plan_delete p)]
                          ++ (if decide (delete_returncode w ≠ 0) then [PrintStderr] else [])
                          ++ [RunCollectGarbage; RunStoreGC] in
                match extend_deleted s (plan_delete p) with
                | None => {| exit_code := None; trace := tr; file_after := Document s;
                             report := rep |}
                | Some s' => {| exit_code := Some 0; trace := tr; file_after := Document s';
                                report := rep |}
                end
            end
      end
  end.
Proof.
  intros Hne Hload Ht. unfold main, plan_only.
  destruct (listing w) as [|g0 gs] eqn:El; [done|].
  unfold booted_generations in *. cbn [fst snd] in *. rewrite Hload. unfold planner.
  rewrite Ht. cbn [mbind option_bind].
  destruct (decide_deletions _ _ _ _ _ _) as [p|]; [|done].
  cbv zeta. destruct (stamp _ _) as [s|]; [|done].
  destruct (negb (apply a) || dry_run a); [done|].
  by destruct (plan_delete p).
Qed.

(** A run on a document on which the loop raises. *)
Lemma main_not_ready (a : args) (w : world) (st0 : json) :
  listing w ≠ [] →
  load_state (state_file w) = Some st0 →
  gens_ok (listing w) st0 && pinned_ok st0 = false →
  main exp a w = raised (state_file w).
Proof.
  intros Hne Hload Hok.
  destruct (tiers exp (feats w) (listing w) (link_id w) (booted_generations (link_id w)).2
              (sigma_hours a)) as [st|] eqn:Ht; [|by apply (main_tiers_fail a w st0)].
  rewrite (main_planned a w st0 st Hne Hload Ht).
  rewrite (decide_deletions_eq _ _ _ _ _ _ Hne). cbv zeta. by rewrite Hok.
Qed.

Lemma ready_dict (gens : list (Z * Z)) (st0 : json) :
  gens_ok gens st0 = true →
  ∃ m g, st0 = JObj m ∧ m !! "gens"%string = Some (JObj g) ∧
         forallb (entry_ok g) gens.*1 = true.
Proof.
  unfold gens_ok. destruct st0 as [| | | | |m]; try done. cbn [getitem].
  destruct (m !! "gens"%string) as [[| | | | |g]|] eqn:Hg; try done.
  intros Hall. by exists m, g.
Qed.

(** A run on a document on which the loop does not raise: the plan is
    reported, and what follows depends on [state["meta"]] and, when there is
    something to delete, on [state["deleted"]]. *)
Lemma main_on_dict (a : args) (w : world) (m g : gmap string json) (st : kstate) :
  listing w ≠ [] →
  load_state (state_file w) = Some (JObj m) →
  tiers exp (feats w) (listing w) (link_id w) (booted_generations (link_id w)).2
        (sigma_hours a) = Some st →
  m !! "gens"%string = Some (JObj g) →
  gens_ok (listing w) (JObj m) && pinned_ok (JObj m) = true →
  let fin := persist_keep (pinned (JObj m)) (listing w) st in
  let del := sorted (delete_ids (link_id w) (booted_generations (link_id w)).2 fin.1
                                (listing w)) in
  let rep := Some (kept_map fin.1 fin.2, del) in
  let m1 := <["kept"%string := kept_json fin.1 fin.2]>
              (<["gens"%string := JObj (persist_gens (scores (feats w) (listing w))
                                                     (listing w) g)]> m) in
  main exp a w =
  match m !! "meta"%string with
  | Some (JObj meta) =>
      let m2 := <["meta"%string := JObj (<["last_run"%string := JStr (clock w)]> meta)]> m1 in
      if plan_only a then
        {| exit_code := Some 0; trace := []; file_after := Document (JObj m2); report := rep |}
      else
        match del with
        | [] => {| exit_code := Some 0; trace := []; file_after := Document (JObj m2);
                   report := rep |}
        | _ :: _ =>
            let tr := [RunDeleteGenerations del]
                      ++ (if decide (delete_returncode w ≠ 0) then [PrintStderr] else [])
                      ++ [RunCollectGarbage; RunStoreGC] in
            match m !! "deleted"%string with
            | Some (JArr l) =>
                {| exit_code := Some 0; trace := tr;
                   file_after :=
                     Document (JObj (<["deleted"%string := JArr (l ++ json_ids del)]> m2));
                   report := rep |}
            | _ => {| exit_code := None; trace := tr; file_after := Document (JObj m2);
                      report := rep |}
            end
        end
  | _ => {| exit_code := None; trace := []; file_after := state_file w; report := rep |}
  end.
Proof.
  intros Hne Hload Ht Hg Hok fin del rep m1.
  rewrite (main_planned a w (JObj m) st Hne Hload Ht).
  rewrite (decide_deletions_eq _ _ _ _ _ _ Hne). cbv zeta. rewrite Hok, Hg.
  cbn [plan_state plan_keep plan_delete]. fold fin. fold del. fold rep. fold m1.
  assert (Hm1 : ∀ k : string, k ≠ "kept"%string → k ≠ "gens"%string → m1 !! k = m !! k).
  { intros k ? ?. unfold m1. by rewrite !lookup_insert_ne. }
  clearbody m1 rep.
  unfold stamp. cbn [getitem]. rewrite Hm1 by done.
  destruct (m !! "meta"%string) as [[| | | | |meta]|] eqn:Hmeta; try done.
  cbn [mbind option_bind setitem].
  destruct (plan_only a); [done|]. destruct del as [|d0 del']; [done|].
  unfold extend_deleted. cbn [getitem]. rewrite lookup_insert_ne, Hm1 by done.
  destruct (m !! "deleted"%string) as [[| | | |l|]|] eqn:Hdel; try done.
Qed.

(** What a run reports, from the loaded state and the keep-set of the
    tiers. *)
Lemma main_report (a : args) (w : world) (st0 : json) (st : kstate) :
  listing w ≠ [] →
  load_state (state_file w) = Some st0 →
  tiers exp (feats w) (listing w) (link_id w) (booted_generations (link_id w)).2
        (sigma_hours a) = Some st →
  let fin := persist_keep (pinned st0) (listing w) st in
  report (main exp a w) =
  if gens_ok (listing w) st0 && pinned_ok st0 then
    Some (kept_map fin.1 fin.2,
          sorted (delete_ids (link_id w) (booted_generations (link_id w)).2 fin.1 (listing w)))
  else None.
Proof.
  intros Hne Hload Ht fin.
  destruct (gens_ok (listing w) st0 && pinned_ok st0) eqn:Hok; cycle 1.
  { by rewrite (main_not_ready a w st0 Hne Hload Hok). }
  destruct (ready_dict (listing w) st0) as (m & g & -> & Hg & _).
  { by apply andb_prop in Hok as [? _]. }
  rewrite (main_on_dict a w m g st Hne Hload Ht Hg Hok). cbv zeta.
  destruct (m !! "meta"%string) as [[| | | | |meta]|]; try done.
  destruct (plan_only a); [done|].
  destruct (sorted _) eqn:Es; [done|].
  destruct (m !! "deleted"%string) as [[| | | |hist|]|]; done.
Qed.

(** A run reports a plan exactly when it gets as far as the plan. *)
Lemma main_report_inv (a : args) (w : world) (kept : gmap Z string) (del : list Z) :
  report (main exp a w) = Some (kept, del) →
  ∃ st0 st,
    listing w ≠ [] ∧ load_state (state_file w) = Some st0 ∧
    tiers exp (feats w) (listing w) (link_id w) (booted_generations (link_id w)).2
          (sigma_hours a) = Some st ∧
    gens_ok (listing w) st0 && pinned_ok st0 = true ∧
    let fin := persist_keep (pinned st0) (listing w) st in
    kept = kept_map fin.1 fin.2 ∧
    del = sorted (delete_ids (link_id w) (booted_generations (link_id w)).2 fin.1 (listing w)).
Proof.
  intros Hrep.
  destruct (decide (listing w = [])) as [El|Hne].
  { by rewrite (main_empty a w El) in Hrep. }
  destruct (load_state (state_file w)) as [st0|] eqn:Hload; cycle 1.
  { by rewrite (main_load_fails a w Hne Hload) in Hrep. }
  destruct (tiers exp (feats w) (listing w) (link_id w) (booted_generations (link_id w)).2
              (sigma_hours a)) as [st|] eqn:Ht; cycle 1.
  { by rewrite (main_tiers_fail a w st0 Hne Hload Ht) in Hrep. }
  exists st0, st. split; [done|]. split; [done|]. split; [done|].
  rewrite (main_report a w st0 st Hne Hload Ht) in Hrep. cbv zeta in Hrep |- *.
  destruct (gens_ok (listing w) st0 && pinned_ok st0); [|done].
  split; [done|]. by injection Hrep as <- <-.
Qed.

Lemma main_total (a : args) (w : world) :
  listing w ≠ [] → state_file w ≠ Corrupt → sigma_hours a ≠ 0 →
  ∃ st0 st, load_state (state_file w) = Some st0 ∧
            tiers exp (feats w) (listing w) (link_id w) (booted_generations (link_id w)).2
                  (sigma_hours a) = Some st.
Proof.
  intros Hne Hf Hsig.
  destruct (tiers_total (feats w) (listing w) (link_id w) (booted_generations (link_id w)).2
              (sigma_hours a) Hsig) as [st Hst].
  destruct (state_file w) as [| |s0] eqn:Ef; [|done|].
  - exists empty_state, st. by rewrite Hst.
  - exists s0, st. by rewrite Hst.
Qed.

(** A run on a document that the loop accepts reports a plan. *)
Lemma main_reports (a : args) (w : world) (st0 : json) :
  listing w ≠ [] → sigma_hours a ≠ 0 →
  load_state (state_file w) = Some st0 →
  gens_ok (listing w) st0 = true → pinned_ok st0 = true →
  ∃ kept del, report (main exp a w) = Some (kept, del).
Proof.
  intros Hne Hsig Hload Hg Hp.
  destruct (tiers_total (feats w) (listing w) (link_id w) (booted_generations (link_id w)).2
              (sigma_hours a) Hsig) as [st Ht].
  rewrite (main_report a w st0 st Hne Hload Ht). cbv zeta. rewrite Hg, Hp. by eexists _, _.
Qed.

Lemma report_protected_kept (a : args) (w : world) (kept : gmap Z string)
    (del : list Z) (c : Z) :
  report (main exp a w) = Some (kept, del) →
  protected w c → c ≠ 0 → c ∈ dom kept ∧ c ∉ del.
Proof.
  intros Hrep Hc Hc0.
  destruct (main_report_inv a w kept del Hrep)
    as (st0 & st & Hne & Hload & Ht & _ & Hk & Hd).
  cbv zeta in Hk, Hd.
  set (fin := persist_keep (pinned st0) (listing w) st) in *.
  assert (Hin : c ∈ fin.1).
  { apply persist_keep_grows. by apply (tiers_protected _ _ _ _ _ _ c Ht). }
  split.
  - apply elem_of_dom. rewrite Hk, kept_map_lookup. rewrite decide_True by auto. eauto.
  - intros Hdel. rewrite Hd, elem_of_sorted in Hdel.
    by apply delete_ids_not_kept in Hdel as [_ ?].
Qed.

Lemma report_protected_distinct (a : args) (w : world) (kept : gmap Z string)
    (del : list Z) (c : Z) :
  report (main exp a w) = Some (kept, del) →
  protected w c → NoDup (listing w).*1 → c ∉ del.
Proof.
  intros Hrep Hc Hnd.
  destruct (main_report_inv a w kept del Hrep)
    as (st0 & st & Hne & Hload & Ht & _ & Hk & Hd).
  cbv zeta in Hk, Hd.
  set (fin := persist_keep (pinned st0) (listing w) st) in *.
  rewrite Hd, elem_of_sorted. unfold delete_ids.
  assert (NoDup (filter (λ gid, gid ∉ fin.1) (listing w).*1)) as Hf
    by by apply NoDup_filter.
  destruct Hc as [Hc|Hc].
  - cbn [booted_generations fst] in Hc. rewrite Hc. intros Hin'.
    apply remove_if_in_subseteq in Hin'. by apply (remove_if_in_absent c) in Hin'.
  - rewrite Hc. apply remove_if_in_absent.
    unfold remove_if_in. destruct (link_id w) as [c'|]; [|done].
    case_decide; [by apply list_remove_first_NoDup_2 | done].
Qed.

(** X28. For every run that reports a plan, a nonzero currently-active or
    previously-active id is in the keep-set from the start of planning on
    (so it is in the reported keep map) and is absent from the final delete
    list, whatever the tier rules select; and any protected id, 0 included,
    is absent from the final delete list when the enumerated ids are
    distinct, by the removal before the plan is reported. *)
Theorem protected_not_deleted (a : args) (w : world) (kept : gmap Z string)
    (del : list Z) (c : Z) :
  report (main exp a w) = Some (kept, del) →
  protected w c →
  (c ≠ 0 → c ∈ dom kept ∧ c ∉ del) ∧
  (NoDup (listing w).*1 → c ∉ del).
Proof.
  intros Hrep Hc. split.
  - intros Hc0. by apply (report_protected_kept a w).
  - intros Hnd. by apply (report_protected_distinct a w kept).
Qed.

(** X29. Whenever a current id [c] is known, the previously-active id is
    [max(c - 1, 1)]; it is in the reported keep map whether or not it is
    enumerated, and so is [c] itself when it is not 0; hence for some inputs
    the reported keep map contains an id that does not occur in the
    enumerated sequence. *)
Theorem previous_id_kept_unlisted (a : args) (w : world) (kept : gmap Z string)
    (del : list Z) (c : Z) :
  link_id w = Some c →
  report (main exp a w) = Some (kept, del) →
  booted_generations (link_id w) = (Some c, Some (Z.max (c - 1) 1)) ∧
  Z.max (c - 1) 1 ∈ dom kept ∧
  (c ≠ 0 → c ∈ dom kept) ∧
  (∃ a' w' kept' del' g,
     report (main exp a' w') = Some (kept', del') ∧ g ∈ dom kept' ∧ g ∉ (listing w').*1).
Proof.
  intros Hl Hrep.
  assert (Hb : booted_generations (link_id w) = (Some c, Some (Z.max (c - 1) 1)))
    by by rewrite Hl.
  assert (Hp : protected w (Z.max (c - 1) 1)) by (right; by rewrite Hb).
  assert (Hcur : protected w c) by (left; by rewrite Hb).
  split; [done|].
  split; [apply (report_protected_kept a w kept del _ Hrep Hp); lia|].
  split; [intros Hc0; by apply (report_protected_kept a w kept del _ Hrep Hcur)|].
  set (a1 := {| apply := false; dry_run := true; sigma_hours := 12 |}).
  set (w1 := {| listing := [(5, 0)]; link_id := Some 5;
                feats := {| closure_paths := λ _, ∅; git_lines_delta := λ _ _, 0 |};
                state_file := Absent; delete_returncode := 0; clock := EmptyString |}).
  destruct (main_total a1 w1) as (st0 & st & Hload & Ht); [done..|].
  pose proof (main_report a1 w1 st0 st ltac:(done) Hload Ht) as Hrep1.
  cbv zeta in Hrep1. injection Hload as <-.
  change (gens_ok (listing w1) empty_state && pinned_ok empty_state) with true in Hrep1.
  cbv iota in Hrep1.
  eexists a1, w1, _, _, 4. split; [exact Hrep1|].
  split; [|simpl; by intros ?%list_elem_of_singleton].
  assert (Hp1 : protected w1 4) by (by right).
  by apply (report_protected_kept a1 w1 _ _ 4 Hrep1 Hp1).
Qed.

Lemma gens_ok_insert (gens : list (Z * Z)) (m : gmap string json) (k : string) (v : json) :
  k ≠ "gens"%string → gens_ok gens (JObj (<[k := v]> m)) = gens_ok gens (JObj m).
Proof. intros Hk. unfold gens_ok. cbn [getitem]. by rewrite lookup_insert_ne. Qed.

Lemma gens_ok_persisted (score : gmap Z Q) (gens : list (Z * Z)) (m g : gmap string json) :
  gens_ok gens (JObj (<["gens"%string := JObj (persist_gens score gens g)]> m)) = true.
Proof.
  unfold gens_ok. cbn [getitem]. rewrite lookup_insert_eq. apply persist_gens_ok.
Qed.

(** The report depends on the loaded state only through the shapes that the
    loop needs and through the pinned ids. *)
Lemma report_same_state (a a' : args) (w w' : world) (st0 st0' : json) :
  sigma_hours a' = sigma_hours a →
  listing w' = listing w →
  link_id w' = link_id w →
  feats w' = feats w →
  listing w ≠ [] →
  load_state (state_file w) = Some st0 →
  load_state (state_file w') = Some st0' →
  gens_ok (listing w) st0' && pinned_ok st0' = gens_ok (listing w) st0 && pinned_ok st0 →
  (∀ g, pinned st0' g = pinned st0 g) →
  report (main exp a' w') = report (main exp a w).
Proof.
  intros Hsig Hl Hid Hft Hne Hload Hload' Hok Hpin.
  assert (Hne' : listing w' ≠ []) by congruence.
  destruct (tiers exp (feats w) (listing w) (link_id w) (booted_generations (link_id w)).2
              (sigma_hours a)) as [st|] eqn:Ht; cycle 1.
  { rewrite (main_tiers_fail a w st0 Hne Hload Ht).
    rewrite (main_tiers_fail a' w' st0'); [done | done | done |].
    by rewrite Hsig, Hl, Hid, Hft. }
  assert (Ht' : tiers exp (feats w') (listing w') (link_id w')
                      (booted_generations (link_id w')).2 (sigma_hours a') = Some st)
    by by rewrite Hsig, Hl, Hid, Hft.
  rewrite (main_report a w st0 st Hne Hload Ht), (main_report a' w' st0' st Hne' Hload' Ht').
  cbv zeta. rewrite Hl, Hid, Hok.
  by rewrite (persist_keep_ext (pinned st0') (pinned st0)).
Qed.

(** What a run leaves at the state path: what was there, or the document
    saved before the action, or, after the action, that document with the
    plan appended to its [deleted] list.  In each case a document on which
    the loop does not raise again, with the same pinned ids. *)
Lemma file_after_ready (a : args) (w : world) (st0 : json) :
  listing w ≠ [] →
  load_state (state_file w) = Some st0 →
  file_after (main exp a w) = state_file w ∨
  ∃ s, file_after (main exp a w) = Document s ∧
       gens_ok (listing w) st0 && pinned_ok st0 = true ∧
       gens_ok (listing w) s && pinned_ok s = true ∧
       ∀ g, pinned s g = pinned st0 g.
Proof.
  intros Hne Hload.
  destruct (tiers exp (feats w) (listing w) (link_id w) (booted_generations (link_id w)).2
              (sigma_hours a)) as [st|] eqn:Ht; cycle 1.
  { left. by rewrite (main_tiers_fail a w st0 Hne Hload Ht). }
  destruct (gens_ok (listing w) st0 && pinned_ok st0) eqn:Hok; cycle 1.
  { left. by rewrite (main_not_ready a w st0 Hne Hload Hok). }
  destruct (ready_dict (listing w) st0) as (m & g & -> & Hg & _).
  { by apply andb_prop in Hok as [? _]. }
  apply andb_prop in Hok as Hok'. destruct Hok' as [_ Hp].
  rewrite (main_on_dict a w m g st Hne Hload Ht Hg Hok). cbv zeta.
  set (score := scores (feats w) (listing w)).
  set (fin := persist_keep (pinned (JObj m)) (listing w) st).
  assert (Hsaved : ∀ meta : json,
            let s := JObj (<["meta"%string := meta]>
                             (<["kept"%string := kept_json fin.1 fin.2]>
                                (<["gens"%string := JObj (persist_gens score (listing w) g)]>
                                   m))) in
            gens_ok (listing w) s && pinned_ok s = true ∧ ∀ x, pinned s x = pinned (JObj m) x).
  { intros meta s. unfold s. split.
    - rewrite !gens_ok_insert, gens_ok_persisted by done.
      by rewrite !pinned_ok_insert by done.
    - intros x. by rewrite !pinned_insert by done. }
  assert (Hdone : ∀ (meta d : json),
            let s := JObj (<["deleted"%string := d]>
                             (<["meta"%string := meta]>
                                (<["kept"%string := kept_json fin.1 fin.2]>
                                   (<["gens"%string := JObj (persist_gens score (listing w) g)]>
                                      m)))) in
            gens_ok (listing w) s && pinned_ok s = true ∧ ∀ x, pinned s x = pinned (JObj m) x).
  { intros meta d s. unfold s. destruct (Hsaved meta) as [H1 H2]. split.
    - by rewrite gens_ok_insert, pinned_ok_insert by done.
    - intros x. by rewrite pinned_insert by done. }
  destruct (m !! "meta"%string) as [[| | | | |meta]|]; try (by left).
  right.
  destruct (plan_only a); [eexists; split; [done|]; split; [done|]; apply Hsaved|].
  destruct (sorted _); [eexists; split; [done|]; split; [done|]; apply Hsaved|].
  destruct (m !! "deleted"%string) as [[| | | |hist|]|];
    eexists; (split; [done|]); (split; [done|]); first [apply Hdone | apply Hsaved].
Qed.

(** C9. A second run on the same snapshot list, the same protected ids and
    the same raw features, started from the state that the first run left
    behind (whose pinned set the first run did not change), reports exactly
    the keep map and the delete list of the first run. *)
Theorem rerun_same_plan (a a' : args) (w w' : world) :
  sigma_hours a' = sigma_hours a →
  listing w' = listing w →
  link_id w' = link_id w →
  feats w' = feats w →
  state_file w' = file_after (main exp a w) →
  report (main exp a' w') = report (main exp a w).
Proof.
  intros Hsig Hl Hid Hft Hfile.
  destruct (decide (listing w = [])) as [El|Hne].
  { rewrite (main_empty a w El), (main_empty a' w') by congruence. done. }
  destruct (load_state (state_file w)) as [st0|] eqn:Hload; cycle 1.
  { rewrite (main_load_fails a w Hne Hload) in Hfile |- *. simpl in Hfile.
    rewrite (main_load_fails a' w'); [done | congruence | congruence]. }
  destruct (file_after_ready a w st0 Hne Hload) as [Hsame|(s & Hs & Hok0 & Hok & Hpin)].
  - apply (report_same_state a a' w w' st0 st0); try done. congruence.
  - apply (report_same_state a a' w w' st0 s); try done.
    + by rewrite Hfile, Hs.
    + by rewrite Hok, Hok0.
Qed.

Lemma deleted_history_loaded (f : file) (st0 : json) :
  load_state f = Some st0 →
  deleted_history f = match getitem st0 "deleted" with
                      | Some (JArr l) => l
                      | _ => []
                      end.
Proof. destruct f; cbn; by intros [= <-]. Qed.




(** C2, as the code has it. When a run outside plan-only mode has a
    non-empty plan and the delete-generations command returns a nonzero exit
    code, the error output is printed and the two garbage collections are run
    all the same; and when the loaded document has a dict under [meta] and a
    list under [deleted], the run ends with exit code 0 and the planned ids
    are appended to the persisted [deleted] list exactly as after a
    successful deletion. *)
Theorem failed_deletion_still_recorded (a : args) (w : world) (kept : gmap Z string)
    (del : list Z) (st0 : json) :
  plan_only a = false →
  delete_returncode w ≠ 0 →
  report (main exp a w) = Some (kept, del) →
  del ≠ [] →
  load_state (state_file w) = Some st0 →
  meta_ok st0 = true →
  deleted_ok st0 = true →
  trace (main exp a w)
    = [RunDeleteGenerations del; PrintStderr; RunCollectGarbage; RunStoreGC] ∧
  exit_code (main exp a w) = Some 0 ∧
  deleted_history (file_after (main exp a w)) = deleted_history (state_file w) ++ json_ids del.
Proof.
  intros Hmode Hrc Hrep Hdel Hload Hmeta Hdeleted.
  destruct (main_report_inv a w kept del Hrep)
    as (st0' & st & Hne & Hload' & Ht & Hok & _ & Hd).
  assert (st0' = st0) as -> by congruence. cbv zeta in Hd.
  destruct (ready_dict (listing w) st0) as (m & g & -> & Hg & _).
  { by apply andb_prop in Hok as [? _]. }
  rewrite (main_on_dict a w m g st Hne Hload Ht Hg Hok). cbv zeta.
  rewrite <- Hd, Hmode. rewrite (deleted_history_loaded _ _ Hload).
  unfold meta_ok, deleted_ok in Hmeta, Hdeleted. cbn [getitem] in *.
  destruct (m !! "meta"%string) as [[| | | | |meta]|]; try done.
  destruct del as [|d0 del']; [done|].
  destruct (m !! "deleted"%string) as [[| | | |hist|]|]; try done.
  cbn [trace exit_code file_after deleted_history getitem].
  rewrite lookup_insert_eq. by rewrite decide_True.
Qed.

(** C3, as the code has it. Loading from a path with no file yields the
    empty initial state; loading a file on which [open] or [json.load]
    raises is not handled, and a run with at least one generation then ends
    with the uncaught exception: it reports no plan, runs no command and
    leaves the file as it was. *)
Theorem corrupt_state_aborts (a : args) (w : world) :
  listing w ≠ [] →
  state_file w = Corrupt →
  load_state Absent = Some empty_state ∧
  load_state (state_file w) = None ∧
  exit_code (main exp a w) = None ∧
  report (main exp a w) = None ∧
  trace (main exp a w) = [] ∧
  file_after (main exp a w) = state_file w.
Proof.
  intros Hne Hf. split; [done|]. split; [by rewrite Hf|].
  rewrite (main_load_fails a w Hne); [done | by rewrite Hf].
Qed.

End RunProperties.

(** * Counterexamples and witnesses *)

(** The stand-in for [math.exp] is never negative. *)
Lemma exp_q_nonneg (x : Q) : (0 <= exp_q x)%Q.
Proof.
  unfold exp_q. assert (0 <= x * x)%Q by nra.
  apply Qle_shift_div_l; lra.
Qed.


(** When the id 0 is current and is listed twice, one of its two entries is
    removed from the delete list and the other stays. *)
Lemma repeated_zero_stays_listed :
  ∃ kept, report (main exp_q plan_args world_zero_twice) = Some (kept, [0]).
Proof. eexists. vm_compute. reflexivity. Qed.

(** C2 as worded fails: the delete command returns 1 and the planned id is
    appended to the persisted [deleted] list all the same. *)
Lemma failed_deletion_extends_history :
  ¬ history_unchanged_on_failure_claim world_failing (main exp_q apply_args world_failing).
Proof.
  intros H. specialize (H ltac:(done)). vm_compute in H. discriminate.
Qed.

(** C3 as worded fails: loading a file that cannot be parsed raises. *)
Lemma corrupt_state_raises : ¬ corrupt_loads_empty_claim.
Proof. unfold corrupt_loads_empty_claim. simpl. discriminate. Qed.

(** C4 as worded fails on a flat grid of 120 hours: the only window is
    reported from hour 0 to hour 119, one hour short of five days. *)
Lemma shortest_window_is_119_hours : ¬ window_length_claim (flat_grid 120) 5 10 0%Q.
Proof.
  intros H. specialize (H ltac:(lia) [(0, 119 * HOUR)] 0 (119 * HOUR)).
  assert (E : select_integral_windows (flat_grid 120) 5 10 0%Q = Some [(0, 119 * HOUR)])
    by (vm_compute; reflexivity).
  specialize (H E ltac:(by left)). unfold HOUR in H. lia.
Qed.

(** C6 as worded fails on a flat grid of 252 hours: the two windows are 13
    hours apart, so their guard bands overlap. *)
Lemma neighbouring_guard_bands_overlap : ¬ guard_bands_disjoint_claim (flat_grid 252) 5 10 0%Q.
Proof.
  intros H.
  assert (E : select_integral_windows (flat_grid 252) 5 10 0%Q
              = Some [(0, 119 * HOUR); (132 * HOUR, 251 * HOUR)])
    by (vm_compute; reflexivity).
  destruct (H _ 0%nat 1%nat _ _ E ltac:(done) eq_refl eq_refl) as [_ [G|G]];
    unfold guard_band, HOUR in G; simpl in G; lia.
Qed.

(** C7 as worded fails for two points at 00:59 and 01:01: the grid has two
    entries, the formula gives one. *)
Lemma grid_spans_two_hours :
  ¬ grid_length_claim two_points (kernel_smooth exp_q two_points 12).
Proof.
  intros H.
  destruct (kernel_smooth exp_q two_points 12) as [grid|] eqn:E; [|by vm_compute in E].
  specialize (H grid eq_refl). apply length_mapM in E. rewrite <- E in H.
  vm_compute in H. discriminate.
Qed.


(** X28 at a run where generation 4 is booted: generation 3 is protected. *)
Lemma protected_not_deleted_witness :
  ∃ kept del,
    report (main exp_q plan_args world_booted) = Some (kept, del) ∧
    protected world_booted 3 ∧
    (3 ≠ 0 → 3 ∈ dom kept ∧ 3 ∉ del) ∧
    (NoDup (listing world_booted).*1 → 3 ∉ del).
Proof.
  eexists _, _. split; [vm_compute; reflexivity|]. split; [right; reflexivity|].
  eapply (protected_not_deleted exp_q plan_args world_booted _ _ 3);
    [vm_compute; reflexivity | right; reflexivity].
Defined.

(** C2 at a run whose delete command returns 1. *)
Lemma failed_deletion_still_recorded_witness :
  plan_only apply_args = false ∧
  delete_returncode world_failing ≠ 0 ∧
  load_state (state_file world_failing) = Some empty_state ∧
  meta_ok empty_state = true ∧ deleted_ok empty_state = true ∧
  ∃ kept del,
    report (main exp_q apply_args world_failing) = Some (kept, del) ∧
    del ≠ [] ∧
    trace (main exp_q apply_args world_failing)
      = [RunDeleteGenerations del; PrintStderr; RunCollectGarbage; RunStoreGC] ∧
    exit_code (main exp_q apply_args world_failing) = Some 0 ∧
    deleted_history (file_after (main exp_q apply_args world_failing))
      = deleted_history (state_file world_failing) ++ json_ids del.
Proof.
  split; [reflexivity|]. split; [simpl; lia|]. split; [reflexivity|].
  split; [reflexivity|]. split; [reflexivity|].
  eexists _, _. split; [vm_compute; reflexivity|]. split; [discriminate|].
  eapply (failed_deletion_still_recorded exp_q apply_args world_failing _ _ empty_state);
    [reflexivity | simpl; lia | vm_compute; reflexivity | discriminate
    | reflexivity | reflexivity | reflexivity].
Defined.

(** C3 at a run whose state file cannot be parsed. *)
Lemma corrupt_state_aborts_witness :
  listing world_corrupt ≠ [] ∧
  state_file world_corrupt = Corrupt ∧
  load_state Absent = Some empty_state ∧
  load_state (state_file world_corrupt) = None ∧
  exit_code (main exp_q apply_args world_corrupt) = None ∧
  report (main exp_q apply_args world_corrupt) = None ∧
  trace (main exp_q apply_args world_corrupt) = [] ∧
  file_after (main exp_q apply_args world_corrupt) = state_file world_corrupt.
Proof.
  split; [discriminate|]. split; [reflexivity|].
  apply (corrupt_state_aborts exp_q apply_args world_corrupt); [discriminate | reflexivity].
Defined.

(** C4 on a flat grid of 130 hours. *)
Lemma window_length_bounds_witness :
  1 ≤ 5 ∧
  ∃ ws, select_integral_windows (hourly_grid 0 (replicate 130 0%Q)) 5 10 0%Q = Some ws ∧
        ∀ s e, (s, e) ∈ ws →
          (∃ L, 5 * 24 ≤ L ≤ 10 * 24 ∧ e - s = (L - 1) * HOUR) ∧
          (5 * 24 - 1) * HOUR ≤ e - s ≤ (10 * 24 - 1) * HOUR.
Proof.
  split; [lia|]. apply (window_length_bounds 0 (replicate 130 0%Q) 5 10 0%Q). lia.
Defined.

(** C6 on a flat grid of 252 hours. *)
Lemma windows_disjoint_with_guard_witness :
  1 ≤ 5 ∧
  ∃ ws, select_integral_windows (hourly_grid 0 (replicate 252 0%Q)) 5 10 0%Q = Some ws ∧
        ∀ (a b : nat) (w w' : Z * Z),
          a ≠ b → ws !! a = Some w → ws !! b = Some w' →
          w.1 ≤ w.2 ∧ apart w w' ∧ apart (guard_band w) w' ∧
          ((a < b)%nat → w.2 + 13 * HOUR ≤ w'.1).
Proof.
  split; [lia|]. apply (windows_disjoint_with_guard 0 (replicate 252 0%Q) 5 10 0%Q). lia.
Defined.


(** C7 at two points on both sides of a full hour. *)
Lemma kernel_smooth_grid_witness :
  12 ≠ 0 ∧
  Forall (λ p, 0 <= p.2)%Q two_points ∧
  StronglySorted Z.le two_points.*1 ∧
  kernel_smooth exp_q [] 12 = Some [] ∧
  ∃ grid, kernel_smooth exp_q two_points 12 = Some grid ∧
          Z.of_nat (length grid) = hour_span two_points ∧
          Forall (λ e, 0 <= e.2)%Q grid.
Proof.
  assert (H1 : Forall (λ p, 0 <= p.2)%Q two_points)
    by (repeat constructor; simpl; discriminate).
  assert (H2 : StronglySorted Z.le two_points.*1)
    by (repeat constructor; simpl; lia).
  split; [lia|]. split; [exact H1|]. split; [exact H2|].
  apply (kernel_smooth_grid exp_q exp_q_nonneg two_points 12); [lia | exact H1 | exact H2].
Defined.

(** C8 at three generations. *)
Lemma first_score_witness :
  NoDup ((2, 0) :: [(3, 7200); (4, 5 * DAY)]).*1 ∧
  scores some_features ((2, 0) :: [(3, 7200); (4, 5 * DAY)]) !! 2 = Some (1 # 10)%Q ∧
  ∀ g, g ∈ ((2, 0) :: [(3, 7200); (4, 5 * DAY)]).*1 →
       ∃ s, scores some_features ((2, 0) :: [(3, 7200); (4, 5 * DAY)]) !! g = Some s ∧
            (1 # 10 <= s)%Q ∧ (s <= 1)%Q.
Proof.
  assert (H : NoDup ((2, 0) :: [(3, 7200); (4, 5 * DAY)]).*1)
    by (apply (bool_decide_unpack _); vm_compute; reflexivity).
  split; [exact H|].
  apply (first_score_base_and_scores_in_range some_features 2 0 [(3, 7200); (4, 5 * DAY)] H).
Defined.

(** C9 at a second run, with [--apply], after a plan-only run. *)
Lemma rerun_same_plan_witness :
  sigma_hours apply_args = sigma_hours plan_args ∧
  listing world_rerun = listing world_booted ∧
  link_id world_rerun = link_id world_booted ∧
  feats world_rerun = feats world_booted ∧
  state_file world_rerun = file_after (main exp_q plan_args world_booted) ∧
  report (main exp_q apply_args world_rerun) = report (main exp_q plan_args world_booted).
Proof.
  repeat (split; [reflexivity|]).
  apply (rerun_same_plan exp_q plan_args apply_args world_booted world_rerun); reflexivity.
Defined.

(** X29 at a run where generation 4 is booted. *)
Lemma previous_id_kept_unlisted_witness :
  link_id world_booted = Some 4 ∧
  ∃ kept del,
    report (main exp_q plan_args world_booted) = Some (kept, del) ∧
    booted_generations (link_id world_booted) = (Some 4, Some (Z.max (4 - 1) 1)) ∧
    Z.max (4 - 1) 1 ∈ dom kept ∧
    (4 ≠ 0 → 4 ∈ dom kept) ∧
    (∃ a' w' kept' del' g,
       report (main exp_q a' w') = Some (kept', del') ∧ g ∈ dom kept' ∧ g ∉ (listing w').*1).
Proof.
  split; [reflexivity|].
  eexists _, _. split; [vm_compute; reflexivity|].
  eapply (previous_id_kept_unlisted exp_q plan_args world_booted _ _ 4);
    [reflexivity | vm_compute; reflexivity].
Defined.

(** * Further properties *)

(** ** normalize *)

Lemma dict_comprehension_lookup_eq {V} (f : Z → V) (keys : list Z) (k : Z) :
  dict_comprehension f keys !! k = if decide (k ∈ keys) then Some (f k) else None.
Proof.
  unfold dict_comprehension.
  assert (G : ∀ m : gmap Z V,
    foldl (λ m k, <[k := f k]> m) m keys !! k
    = if decide (k ∈ keys) then Some (f k) else m !! k).
  { induction keys as [|a keys IH]; intros m; cbn [foldl].
    - rewrite decide_False by apply not_elem_of_nil. done.
    - rewrite IH. destruct (decide (k ∈ keys)) as [Hin|Hnin].
      + rewrite decide_True by (by right). done.
      + destruct (decide (a = k)) as [->|Hne].
        * rewrite decide_True by (by left). by rewrite lookup_insert_eq.
        * rewrite lookup_insert_ne by done. rewrite decide_False; [done|].
          intros [->|?]%elem_of_cons; done. }
  rewrite G. by rewrite lookup_empty.
Qed.

Lemma normalize_lookup (values : list Z) (x : Z) :
  normalize values !! x
  = if decide (x ∈ values) then Some (pct (sorted values) x) else None.
Proof.
  unfold normalize. destruct values as [|a l].
  - rewrite lookup_empty. rewrite decide_False by apply not_elem_of_nil. done.
  - apply dict_comprehension_lookup_eq.
Qed.

Lemma sorted_StronglySorted (l : list Z) : StronglySorted Z.le (sorted l).
Proof. unfold sorted. apply (StronglySorted_merge_sort _). Qed.

Lemma length_sorted (l : list Z) : length (sorted l) = length l.
Proof. unfold sorted. by rewrite merge_sort_Permutation. Qed.

Lemma nth_elem_of (v : list Z) (i : nat) : (i < length v)%nat → nth i v 0 ∈ v.
Proof.
  intros Hi. apply list_elem_of_In. by apply nth_In.
Qed.

Lemma StronglySorted_nth_le (v : list Z) (i j : nat) :
  StronglySorted Z.le v → (i ≤ j)%nat → (j < length v)%nat → nth i v 0 ≤ nth j v 0.
Proof.
  intros Hs. revert i j. induction Hs as [|x v Hs IH Hx]; intros i j Hij Hj; [simpl in Hj; lia|].
  destruct j as [|j]; [replace i with 0%nat by lia; done|].
  destruct i as [|i]; simpl in *.
  - rewrite Forall_forall in Hx. apply Hx. apply nth_elem_of. lia.
  - apply IH; lia.
Qed.

(** The two percentile values of [pct] on the sorted values. *)
Lemma percentiles_ordered (values : list Z) :
  let v := sorted values in
  let n1 := Z.of_nat (length v) - 1 in
  values ≠ [] →
  nth (Z.to_nat (5 * n1 / 100)) v 0 ≤ nth (Z.to_nat (95 * n1 / 100)) v 0 ∧
  nth (Z.to_nat (5 * n1 / 100)) v 0 ∈ values ∧
  nth (Z.to_nat (95 * n1 / 100)) v 0 ∈ values.
Proof.
  intros v n1 Hne.
  assert (Hlen : (0 < length v)%nat).
  { unfold v. rewrite length_sorted. destruct values; [done|simpl; lia]. }
  assert (H5 : 0 ≤ 5 * n1 / 100 ≤ 95 * n1 / 100).
  { split; [apply Z.div_pos; lia | apply Z.div_le_mono; lia]. }
  assert (H95 : 95 * n1 / 100 ≤ n1).
  { apply Z.div_le_upper_bound; lia. }
  split; [apply StronglySorted_nth_le; [apply sorted_StronglySorted | lia | lia]|].
  assert (Hel : ∀ i, (i < length v)%nat → nth i v 0 ∈ values).
  { intros i Hi. apply (proj1 (elem_of_sorted _ values)). by apply nth_elem_of. }
  split; apply Hel; lia.
Qed.

Lemma pct_monotone (values : list Z) (x y : Z) :
  values ≠ [] → x ≤ y → (pct (sorted values) x <= pct (sorted values) y)%Q.
Proof.
  intros Hne Hxy. destruct (percentiles_ordered values Hne) as (Hle & _ & _).
  unfold pct. destruct (decide (length (sorted values) = 1%nat)); [discriminate|].
  cbv zeta in *.
  set (p5 := nth _ _ 0) in *. set (p95 := nth (Z.to_nat (95 * _ / 100)) _ 0) in *.
  destruct (decide (p95 = p5)).
  - destruct (decide (x ≤ p5)), (decide (y ≤ p5)); try discriminate; try lia.
  - apply Q.max_le_compat_l, Q.min_le_compat_l.
    apply Qmult_le_compat_r.
    + rewrite <- Zle_Qle. lia.
    + apply Qinv_le_0_compat. replace 0%Q with (inject_Z 0) by done. rewrite <- Zle_Qle. lia.
Qed.

(** X1. Every input value is a key of the result of [normalize], nothing
    else is, and every value of the result lies in [0, 1]. *)
Theorem normalize_keys_and_range (values : list Z) (x : Z) :
  (is_Some (normalize values !! x) ↔ x ∈ values) ∧
  ∀ q, normalize values !! x = Some q → (0 <= q)%Q ∧ (q <= 1)%Q.
Proof.
  rewrite normalize_lookup. split.
  - case_decide as Hx.
    + split; [done | intros _; eauto].
    + split; [intros [? ?]; done | done].
  - case_decide; [|done]. intros q [= <-]. apply pct_bounds.
Qed.

(** X2. [normalize] is monotone: of two input values, the larger one does
    not get the smaller result. *)
Theorem normalize_monotone (values : list Z) (x y : Z) :
  x ∈ values → y ∈ values → x ≤ y →
  ∃ qx qy, normalize values !! x = Some qx ∧ normalize values !! y = Some qy ∧ (qx <= qy)%Q.
Proof.
  intros Hx Hy Hxy. rewrite !normalize_lookup, !decide_True by done.
  eexists _, _. split; [done|]. split; [done|].
  apply pct_monotone; [|done]. intros ->. by apply elem_of_nil in Hx.
Qed.

(** X3. When all input values are equal (in particular when there is only
    one), each of them is normalised to exactly 0.0; and whatever the input,
    its smallest value is normalised to 0. *)
Theorem normalize_constant_and_minimum (values : list Z) (x : Z) :
  x ∈ values →
  (∀ y, y ∈ values → x ≤ y) →
  (∃ q, normalize values !! x = Some q ∧ (q == 0)%Q) ∧
  ((∀ y, y ∈ values → y = x) → normalize values !! x = Some 0%Q).
Proof.
  intros Hx Hmin. rewrite normalize_lookup, decide_True by done.
  assert (Hne : values ≠ []) by (intros ->; by apply elem_of_nil in Hx).
  destruct (percentiles_ordered values Hne) as (Hle & H5 & H95). cbv zeta in *.
  unfold pct. destruct (decide (length (sorted values) = 1%nat)).
  { split; [by exists 0%Q|done]. }
  cbv zeta.
  set (p5 := nth _ _ 0) in *. set (p95 := nth (Z.to_nat (95 * _ / 100)) _ 0) in *.
  pose proof (Hmin p5 H5) as Hx5.
  destruct (decide (p95 = p5)) as [Heq|Hneq].
  - rewrite decide_True by done. split; [by exists 0%Q|done].
  - split.
    + eexists. split; [done|].
      assert (inject_Z (x - p5) / inject_Z (p95 - p5) <= 0)%Q as Hneg.
      { apply Qle_shift_div_r.
        - replace 0%Q with (inject_Z 0) by done. rewrite <- Zlt_Qlt. lia.
        - rewrite Qmult_0_l. replace 0%Q with (inject_Z 0) by done. rewrite <- Zle_Qle. lia. }
      apply Qle_antisym; [|apply Q.le_max_l].
      apply Q.max_lub; [discriminate|].
      eapply Qle_trans; [apply Q.le_min_r | exact Hneg].
    + intros Hall. exfalso. apply Hneq. by rewrite (Hall p5 H5), (Hall p95 H95).
Qed.

(** ** The features and the scorer *)



(** Every recorded delta is the delta of some pair of timestamps, or of some
    pair of closures. *)
Lemma delta_loop_values (ft : features) (p : Z * Z) (rest : list (Z * Z))
    (acc : gmap Z Z * gmap Z Z) (P1 P2 : Z → Prop) :
  (∀ a b, P1 (git_lines_delta ft a b)) →
  (∀ g g', P2 (Z.of_nat (size (closure_paths ft g ∖ closure_paths ft g'))
               + Z.of_nat (size (closure_paths ft g' ∖ closure_paths ft g)))) →
  (∀ k v, acc.1 !! k = Some v → P1 v) →
  (∀ k v, acc.2 !! k = Some v → P2 v) →
  (∀ k v, (delta_loop ft p rest acc).1 !! k = Some v → P1 v) ∧
  (∀ k v, (delta_loop ft p rest acc).2 !! k = Some v → P2 v).
Proof.
  intros H1 H2. revert p acc. induction rest as [|[gid ts] rest IH]; intros [gid_p ts_p] acc A1 A2;
    [done|].
  cbn [delta_loop]. cbv zeta. apply IH; cbn [fst snd]; intros k v.
  - destruct (decide (gid = k)) as [->|Hne].
    + rewrite lookup_insert_eq. intros [= <-]. apply H1.
    + rewrite lookup_insert_ne by done. apply A1.
  - destruct (decide (gid = k)) as [->|Hne].
    + rewrite lookup_insert_eq. intros [= <-]. apply H2.
    + rewrite lookup_insert_ne by done. apply A2.
Qed.

Lemma deltas_values (ft : features) (gens : list (Z * Z)) (P1 P2 : Z → Prop) :
  (∀ a b, P1 (git_lines_delta ft a b)) →
  (∀ g g', P2 (Z.of_nat (size (closure_paths ft g ∖ closure_paths ft g'))
               + Z.of_nat (size (closure_paths ft g' ∖ closure_paths ft g)))) →
  (∀ k v, (deltas ft gens).1 !! k = Some v → P1 v) ∧
  (∀ k v, (deltas ft gens).2 !! k = Some v → P2 v).
Proof.
  intros H1 H2. unfold deltas. destruct gens as [|p rest].
  - split; intros k v; cbn; rewrite lookup_empty; discriminate.
  - apply delta_loop_values; try done; intros k v; cbn; rewrite lookup_empty; discriminate.
Qed.

Lemma elem_of_dict_values (d : gmap Z Z) (v : Z) :
  v ∈ dict_values d ↔ ∃ k, d !! k = Some v.
Proof.
  unfold dict_values. rewrite list_elem_of_fmap. split.
  - intros ([k v'] & -> & Hin). exists k. by apply elem_of_map_to_list in Hin.
  - intros [k Hk]. exists (k, v). split; [done|]. by apply elem_of_map_to_list.
Qed.

(** When all values are equal, nothing is normalised to anything but 0.0. *)
Lemma normalize_flat (values : list Z) (k : Z) :
  (∀ v v', v ∈ values → v' ∈ values → v = v') →
  dict_get (normalize values) k 0%Q = 0%Q.
Proof.
  intros Hall. unfold dict_get. rewrite normalize_lookup.
  destruct (decide (k ∈ values)) as [Hk|]; [|done]. cbn.
  assert (Hne : values ≠ []) by (intros ->; by apply elem_of_nil in Hk).
  destruct (percentiles_ordered values Hne) as (_ & H5 & H95). cbv zeta in *.
  unfold pct. destruct (decide (length (sorted values) = 1%nat)); [done|]. cbv zeta.
  rewrite decide_True by (by apply Hall).
  rewrite decide_True; [done|]. rewrite (Hall k _ Hk H5). done.
Qed.

Lemma score_loop_flat (lines_delta paths_delta : gmap Z Z) (norm_lines norm_paths : gmap Z Q)
    (i : nat) (gens : list (Z * Z)) (score : gmap Z Q) :
  (∀ k, dict_get norm_lines k 0%Q = 0%Q) →
  (∀ k, dict_get norm_paths k 0%Q = 0%Q) →
  (∀ g s, score !! g = Some s → (s == 1 # 10)%Q) →
  ∀ g s, score_loop lines_delta paths_delta norm_lines norm_paths i gens score !! g = Some s →
         (s == 1 # 10)%Q.
Proof.
  intros Hl Hp. revert i score. induction gens as [|[gid ts] gens IH]; intros i score Hs; [done|].
  cbn [score_loop]. cbv zeta. apply IH. intros g s.
  destruct (decide (gid = g)) as [->|Hne].
  - rewrite lookup_insert_eq. intros [= <-].
    destruct (decide (i = 0%nat)); [done|]. rewrite Hl, Hp. unfold base. reflexivity.
  - rewrite lookup_insert_ne by done. apply Hs.
Qed.

(** X4. When the git delta is the same for every pair of timestamps and all
    closures are the same set (no repository, unchanged system), every
    generation scores 0.1. *)
Theorem scores_without_activity (ft : features) (gens : list (Z * Z)) (c : Z) (g : Z) (s : Q) :
  (∀ a b, git_lines_delta ft a b = c) →
  (∀ g1 g2, closure_paths ft g1 = closure_paths ft g2) →
  scores ft gens !! g = Some s →
  (s == 1 # 10)%Q.
Proof.
  intros Hgit Hclo. rewrite scores_unfold.
  destruct (deltas_values ft gens (λ v, v = c) (λ v, v = 0)) as [H1 H2].
  { done. }
  { intros g1 g2. rewrite (Hclo g1 g2), difference_diag_L, size_empty. done. }
  apply score_loop_flat.
  - intros k. apply normalize_flat. intros v v' [k1 Hv]%elem_of_dict_values
      [k2 Hv']%elem_of_dict_values. by rewrite (H1 _ _ Hv), (H1 _ _ Hv').
  - intros k. apply normalize_flat. intros v v' [k1 Hv]%elem_of_dict_values
      [k2 Hv']%elem_of_dict_values. by rewrite (H2 _ _ Hv), (H2 _ _ Hv').
  - intros g' s'. rewrite lookup_empty. discriminate.
Qed.

(** X5. With one or two generations every score is 0.1, whatever the deltas
    of the second generation: a single delta is normalised to 0.0. *)
Theorem scores_of_two_generations (ft : features) (gens : list (Z * Z)) (g : Z) (s : Q) :
  (length gens ≤ 2)%nat →
  scores ft gens !! g = Some s →
  (s == 1 # 10)%Q.
Proof.
  intros Hlen. rewrite scores_unfold.
  assert (Hone : ∀ d : gmap Z Z, (size d ≤ 1)%nat →
                 ∀ v v', v ∈ dict_values d → v' ∈ dict_values d → v = v').
  { intros d Hd v v' [k Hk]%elem_of_dict_values [k' Hk']%elem_of_dict_values.
    destruct (decide (k = k')) as [->|Hne]; [congruence|].
    exfalso. assert (2 ≤ size d)%nat; [|lia].
    rewrite <- (insert_id d k v), <- (insert_delete_eq d) by done.
    rewrite map_size_insert_None by apply lookup_delete_eq.
    assert (size (delete k d) ≠ 0%nat); [|lia].
    intros Hz%map_size_empty_inv. 
    assert (delete k d !! k' = Some v') by (by rewrite lookup_delete_ne).
    rewrite Hz, lookup_empty in H. done. }
  assert (Hsz : (size (deltas ft gens).1 ≤ 1)%nat ∧ (size (deltas ft gens).2 ≤ 1)%nat).
  { destruct gens as [|[g0 t0] [|[g1 t1] [|? ?]]]; [| | |simpl in Hlen; lia].
    - cbn. rewrite !map_size_empty. lia.
    - cbn. rewrite !map_size_empty. lia.
    - cbn [deltas delta_loop fst snd]. cbv zeta. cbn [fst snd].
      rewrite !insert_empty, !map_size_singleton. lia. }
  destruct Hsz as [Hs1 Hs2].
  apply score_loop_flat.
  - intros k. by apply normalize_flat, Hone.
  - intros k. by apply normalize_flat, Hone.
  - intros g' s'. rewrite lookup_empty. discriminate.
Qed.


(** ** kernel_smooth *)

Section SmootherEdges.
Variable exp : Q → Q.

Lemma floor_hour_span (a b : Z) :
  HOUR * ((floor_hour b - floor_hour a) / HOUR) = floor_hour b - floor_hour a.
Proof.
  unfold floor_hour, HOUR. rewrite <- Z.mul_sub_distr_l.
  assert (H : 3600 * (b / 3600 - a / 3600) / 3600 = b / 3600 - a / 3600)
    by (rewrite Z.mul_comm; apply Z.div_mul; lia).
  by rewrite H.
Qed.

(** X7. The grid of the smoother is hourly: its entry number [k] carries the
    timestamp of the hour of the first point plus [k] hours, and no entry is
    later than the hour of the last point. *)
Theorem kernel_smooth_timestamps (p0 : Z * Q) (rest : list (Z * Q)) (sigma_hours : Z)
    (grid : list (Z * Q)) (k : nat) (e : Z * Q) :
  kernel_smooth exp (p0 :: rest) sigma_hours = Some grid →
  grid !! k = Some e →
  e.1 = floor_hour p0.1 + HOUR * Z.of_nat k ∧
  e.1 ≤ floor_hour (List.last (p0 :: rest) p0).1.
Proof.
  unfold kernel_smooth. set (start := floor_hour p0.1).
  set (end_ := floor_hour (List.last (p0 :: rest) p0).1).
  intros Hg Hk. apply mapM_Some_1 in Hg.
  destruct (Forall2_lookup_r _ _ _ _ _ Hg Hk) as (i & Hi & Hf).
  apply lookup_seqZ in Hi as [-> Hlt]. cbv zeta in Hf.
  destruct (kernel_sum _ _ _ _ _); [|done]. injection Hf as <-. cbn [fst].
  split; [f_equal; lia|].
  pose proof (floor_hour_span p0.1 (List.last (p0 :: rest) p0).1) as Hspan.
  fold start end_ in Hspan. unfold HOUR in *. lia.
Qed.

(** X8. With bandwidth 0 the smoother raises [ZeroDivisionError] as soon as
    there is a grid entry to compute, that is for every non-empty input whose
    last point is not in an earlier hour than the first; when the last point
    is in an earlier hour, the grid is empty whatever the bandwidth. *)
Theorem kernel_smooth_zero_bandwidth (p0 : Z * Q) (rest : list (Z * Q)) :
  (floor_hour p0.1 ≤ floor_hour (List.last (p0 :: rest) p0).1 →
   kernel_smooth exp (p0 :: rest) 0 = None) ∧
  (floor_hour (List.last (p0 :: rest) p0).1 < floor_hour p0.1 →
   ∀ sigma_hours, kernel_smooth exp (p0 :: rest) sigma_hours = Some []).
Proof.
  unfold kernel_smooth. set (start := floor_hour p0.1).
  set (end_ := floor_hour (List.last (p0 :: rest) p0).1).
  pose proof (floor_hour_span p0.1 (List.last (p0 :: rest) p0).1) as Hspan.
  fold start end_ in Hspan. split.
  - intros Hle. assert (0 < (end_ - start) / HOUR + 1) as Hpos by (unfold HOUR in *; lia).
    rewrite seqZ_cons by done. destruct p0 as [pt sc]. cbn. done.
  - intros Hlt sigma_hours. rewrite seqZ_nil; [done|]. unfold HOUR in *. lia.
Qed.

End SmootherEdges.

(** ** select_integral_windows *)

Section SelectorEdges.
Context {F : Type} `{Arith F}.

Lemma scan_lengths_too_long (n : Z) (pref : list F) (min_area : F) (i0 : Z) (Ls : list Z)
    (best : option (Z * Z * F)) :
  Forall (λ L, n < i0 + L) Ls → scan_lengths n pref min_area i0 Ls best = Some best.
Proof.
  intros HLs. destruct HLs as [|L Ls HL _]; [done|]. cbn [scan_lengths]. cbv zeta.
  by rewrite decide_True.
Qed.

Lemma select_loop_short (n : Z) (pref : list F) (min_area : F) (Ls : list Z) :
  Forall (λ L, n < L) Ls →
  ∀ (fuel : nat) (p : Z) (used : list bool) (selected : list (Z * Z)),
    used_prefix n p used → 0 ≤ p ≤ n → n - p < Z.of_nat fuel →
    select_loop fuel n pref min_area Ls used selected = Some selected.
Proof.
  intros HLs fuel. induction fuel as [|fuel IH]; intros p used selected Hu Hp Hfuel; [lia|].
  cbn [select_loop]. rewrite (first_unused_prefix n p used) by done.
  destruct (decide (p < n)) as [Hlt|]; [|done].
  rewrite scan_lengths_too_long.
  - cbn. apply (IH (p + 1)); [apply skip_prefix; [done|lia] | lia | lia].
  - eapply Forall_impl; [exact HLs|]. cbn. intros L HL. lia.
Qed.

Lemma py_index_elem_of {A} (l : list A) (k : Z) (x : A) : py_index l k = Some x → x ∈ l.
Proof.
  unfold py_index. repeat case_decide; try done; apply list_elem_of_lookup_2.
Qed.

(** X9. For a non-negative [min_days] the selector always returns (the loop
    ends and no index is out of range), and both ends of every window it
    returns are timestamps of grid entries. *)
Theorem select_integral_windows_returns (grid : list (Z * F)) (min_days max_days : Z)
    (min_area : F) :
  0 ≤ min_days →
  ∃ ws, select_integral_windows grid min_days max_days min_area = Some ws ∧
        ∀ s e, (s, e) ∈ ws → s ∈ grid.*1 ∧ e ∈ grid.*1.
Proof.
  intros Hmin. unfold select_integral_windows.
  destruct (select_indices_ok grid min_days max_days min_area Hmin) as (sel & Hsel & Hok & Hs).
  rewrite Hsel. cbn.
  assert (Hm : is_Some (mapM (λ '(i, j), s ← py_index grid i; e ← py_index grid (j - 1);
                                        Some (s.1, e.1)) sel)).
  { apply mapM_is_Some_2. eapply Forall_impl; [exact Hok|].
    intros [i j] (H1 & H2 & H3 & H4 & H5). cbn in *.
    destruct (py_index_is_Some grid i) as [s ->]; [lia|].
    destruct (py_index_is_Some grid (j - 1)) as [e ->]; [lia|]. cbn. eauto. }
  destruct Hm as [ws Hws]. exists ws. split; [done|].
  intros s e Hin. apply mapM_Some_1 in Hws.
  apply list_elem_of_lookup in Hin as [k Hk].
  destruct (Forall2_lookup_r _ _ _ _ _ Hws Hk) as ([i j] & _ & Hf).
  destruct (py_index grid i) as [x|] eqn:Ex; [|done]. cbn in Hf.
  destruct (py_index grid (j - 1)) as [y|] eqn:Ey; [|done]. cbn in Hf.
  injection Hf as <- <-.
  split; apply list_elem_of_fmap_2; by eapply py_index_elem_of.
Qed.

(** X10. On a grid with fewer entries than [min_days·24], the empty grid
    included, no window is selected. *)
Theorem select_integral_windows_short_grid (grid : list (Z * F)) (min_days max_days : Z)
    (min_area : F) :
  Z.of_nat (length grid) < min_days * 24 →
  select_integral_windows grid min_days max_days min_area = Some [].
Proof.
  intros Hshort. unfold select_integral_windows, select_indices.
  rewrite (select_loop_short (Z.of_nat (length grid)) _ _ _) with (p := 0).
  - done.
  - apply Forall_forall. intros L HL%elem_of_seqZ. lia.
  - split; [by rewrite length_replicate|].
    intros k Hk. rewrite lookup_replicate_2 by lia. by rewrite bool_decide_eq_false_2 by lia.
  - lia.
  - lia.
Qed.

Lemma scan_lengths_inv (ok : F → Prop) (n : Z) (pref : list F) (min_area : F) (i0 : Z)
    (Ls : list Z) :
  gt_orders ok →
  (∀ i j a, area pref i j = Some a → ok a) →
  StronglySorted Z.lt Ls →
  ∀ (seen : Z → Prop) (best b : option (Z * Z * F)),
    (∀ L L', seen L → L' ∈ Ls → L < L') →
    scan_inv n pref min_area i0 seen best →
    scan_lengths n pref min_area i0 Ls best = Some b →
    scan_inv n pref min_area i0 (λ L, seen L ∨ L ∈ Ls) b.
Proof.
  intros [Hasym Hco] Hok.
  assert (Hcand : ∀ L a, candidate n pref min_area i0 L a → ok a).
  { intros L a (_ & Ha & _). by apply (Hok _ _ _ Ha). }
  induction 1 as [|L Ls Hs IH HL]; intros seen best b Hlt [Hb1 Hb2] Hscan.
  { injection Hscan as <-. split.
    - intros L a [HL|HL%elem_of_nil]; [by apply Hb1 | done].
    - intros i j ab Hbest. destruct (Hb2 i j ab Hbest) as (-> & L0 & H0 & -> & Hc).
      split; [done|]. exists L0. split; [by left|]. by split. }
  rewrite Forall_forall in HL.
  cbn [scan_lengths] in Hscan. cbv zeta in Hscan.
  destruct (decide (n < i0 + L)) as [Hbreak|Hfit].
  { injection Hscan as <-. split.
    - intros L' a [HL'|HL']; [by apply Hb1|]. intros (Hfit & _).
      apply elem_of_cons in HL' as [->|HL']; [lia|]. specialize (HL L' HL'). lia.
    - intros i j ab Hbest. destruct (Hb2 i j ab Hbest) as (-> & L0 & H0 & -> & Hc).
      split; [done|]. exists L0. split; [by left|]. by split. }
  destruct (area pref i0 (i0 + L)) as [a|] eqn:Ea; [|done]. cbn in Hscan.
  assert (Hoka : ok a) by (by apply (Hok _ _ _ Ea)).
  (* what holds after this round, whichever branch is taken *)
  assert (Hnext : ∀ best',
    scan_inv n pref min_area i0 (λ L', seen L' ∨ L' = L) best' →
    scan_lengths n pref min_area i0 Ls best' = Some b →
    scan_inv n pref min_area i0 (λ L', seen L' ∨ L' ∈ L :: Ls) b).
  { intros best' Hinv' Hscan'.
    destruct (IH (λ L', seen L' ∨ L' = L) best' b) as [R1 R2]; [|done|done|].
    - intros L1 L2 [H1| ->] H2; [apply Hlt; [done | by right] | by apply HL].
    - split.
      + intros L' a' [HL'|HL']; [apply R1; by left; left|].
        apply elem_of_cons in HL' as [->|HL']; [apply R1; by left; right | apply R1; by right].
      + intros i j ab Hbest. destruct (R2 i j ab Hbest) as (-> & L0 & H0 & -> & Hc).
        split; [done|]. exists L0. split; [|done].
        destruct H0 as [[?| ->]|?]; [by left | right; by left | right; by right]. }
  assert (Hseen : ∀ i j ab, best = Some (i, j, ab) →
                        i = i0 ∧ ∃ L0, (seen L0 ∨ L0 = L) ∧ j = i0 + L0 ∧
                                       candidate n pref min_area i0 L0 ab).
  { intros i j ab Hbest. destruct (Hb2 i j ab Hbest) as (-> & L0 & H0 & -> & Hc).
    split; [done|]. exists L0. split; [by left|]. by split. }
  assert (Hirr : fgt a a = false).
  { destruct (fgt a a) eqn:E; [|done]. by rewrite (Hasym a a Hoka Hoka E) in E. }
  assert (Hnew : fge a min_area = true →
                 (∀ L' a', seen L' → candidate n pref min_area i0 L' a' → fgt a a' = true) →
                 scan_inv n pref min_area i0 (λ L', seen L' ∨ L' = L)
                          (Some (i0, i0 + L, a))).
  { intros Hq Hbetter. split.
    - intros L' a' [HL'| ->] Hc; cbn.
      + pose proof (Hbetter L' a' HL' Hc) as Hgt.
        split; [|done]. apply (Hasym a a'); [done | by apply (Hcand L') | done].
      + destruct Hc as (_ & Ha' & _). rewrite Ea in Ha'. injection Ha' as <-.
        split; [done | lia].
    - intros i j ab [= <- <- <-]. split; [done|]. exists L.
      split; [by right|]. split; [done|]. split; [lia|]. done. }
  revert Hscan. destruct (fge a min_area) eqn:Eq.
  - destruct best as [[[i j] ab]|].
    + destruct (fgt a ab) eqn:El; intros Hscan.
      * refine (Hnext _ (Hnew eq_refl _) Hscan).
        intros L' a' HL' Hc. destruct (Hb1 L' a' HL' Hc) as [Hle _].
        destruct (Hb2 i j ab eq_refl) as (_ & L0 & _ & _ & Hc0).
        apply (Hco a ab a'); [done | by apply (Hcand L0) | by apply (Hcand L') | done | done].
      * apply (fun H => Hnext _ H Hscan). split; [|exact Hseen].
        intros L' a' [HL'| ->] Hc; [by apply Hb1|].
        destruct Hc as (_ & Ha' & _). rewrite Ea in Ha'. injection Ha' as <-.
        destruct (Hb2 i j ab eq_refl) as (-> & L0 & H0 & -> & Hc0). cbn. split; [done|].
        intros Hshort. pose proof (Hlt L0 L H0 ltac:(by left)). lia.
    + intros Hscan. refine (Hnext _ (Hnew eq_refl _) Hscan).
      intros L' a' HL' Hc. by destruct (Hb1 L' a' HL' Hc).
  - intros Hscan. apply (fun H => Hnext _ H Hscan). split; [|exact Hseen].
    intros L' a' [HL'| ->] Hc; [by apply Hb1|].
    destruct Hc as (_ & Ha' & Hq). rewrite Ea in Ha'. injection Ha' as <-. congruence.
Qed.

Lemma StronglySorted_lt_seqZ (m n : Z) : StronglySorted Z.lt (seqZ m n).
Proof.
  remember (Z.to_nat n) as k eqn:Hk. revert m n Hk.
  induction k as [|k IH]; intros m n Hk.
  - rewrite seqZ_nil by lia. constructor.
  - rewrite seqZ_cons by lia. constructor; [apply IH; lia|].
    apply Forall_forall. intros x Hx%elem_of_seqZ. lia.
Qed.

Lemma select_loop_best (ok : F → Prop) (n : Z) (pref : list F) (min_area : F) (lo hi : Z) :
  gt_orders ok →
  (∀ i j a, area pref i j = Some a → ok a) →
  ∀ (fuel : nat) (used : list bool) (selected res : list (Z * Z)),
    select_loop fuel n pref min_area (seqZ lo (hi + 1 - lo)) used selected = Some res →
    Forall (best_window n pref min_area lo hi) selected →
    Forall (best_window n pref min_area lo hi) res.
Proof.
  intros Hord Hok.
  induction fuel as [|fuel IH]; intros used selected res; cbn [select_loop].
  - destruct (first_unused used); [done|]. by intros [= <-].
  - destruct (first_unused used) as [i0|]; [|by intros [= <-]].
    destruct (scan_lengths n pref min_area i0 (seqZ lo (hi + 1 - lo)) None) as [b|] eqn:Es;
      [|done].
    cbn. destruct b as [[[i j] a]|]; [|apply IH].
    intros Hloop Hsel. apply (IH _ _ _ Hloop). apply Forall_app. split; [done|].
    apply Forall_singleton.
    destruct (scan_lengths_inv ok n pref min_area i0 (seqZ lo (hi + 1 - lo)) Hord Hok) with
      (seen := λ _ : Z, False) (best := @None (Z * Z * F)) (b := Some (i, j, a))
      as [R1 R2]; [| done | by split | done |].
    { apply StronglySorted_lt_seqZ. }
    destruct (R2 i j a eq_refl) as (-> & L0 & _ & -> & (Hfit & Ha & Hq)).
    exists a. cbn. split; [done|]. split; [done|].
    intros L a' HL Hc. apply (R1 L a'); [|done]. right. apply elem_of_seqZ. lia.
Qed.

(** X11. Where [>] orders the areas (they are rationals, or binary64 floats
    none of which is NaN), every pair [(i, j)] selected by the window loop has
    an area of at least [min_area], no candidate length at [i] has a greater
    area, and the area of every shorter candidate is smaller: the selection
    is the shortest of the lengths of maximal integral, in the arithmetic the
    areas are computed in. *)
Theorem selected_window_is_best (ok : F → Prop) (grid : list (Z * F)) (min_days max_days : Z)
    (min_area : F) (selected : list (Z * Z)) (i j : Z) :
  gt_orders ok →
  (∀ i j a, area (prefix_sums grid.*2) i j = Some a → ok a) →
  select_indices grid min_days max_days min_area = Some selected →
  (i, j) ∈ selected →
  best_window (Z.of_nat (length grid)) (prefix_sums grid.*2) min_area
              (min_days * 24) (max_days * 24) (i, j).
Proof.
  unfold select_indices. intros Hord Hok Hsel Hin.
  apply (select_loop_best ok _ _ _ _ _ Hord Hok) in Hsel; [|constructor].
  rewrite Forall_forall in Hsel. by apply Hsel.
Qed.

End SelectorEdges.

Lemma Qlt_bool_true (x y : Q) : Qlt_bool x y = true ↔ (x < y)%Q.
Proof.
  unfold Qlt_bool. rewrite negb_true_iff. split.
  - intros H. apply Qnot_le_lt. intros Hle%Qle_bool_iff. congruence.
  - intros H. destruct (Qle_bool y x) eqn:E; [|done].
    apply Qle_bool_iff in E. exfalso. by apply (Qlt_not_le x y).
Qed.

(** On the rationals [>] orders every value. *)
Lemma Q_gt_orders : gt_orders (λ _ : Q, True).
Proof.
  split; cbn.
  - intros x y _ _ Hxy%Qlt_bool_true. destruct (Qlt_bool x y) eqn:E; [|done].
    apply Qlt_bool_true in E. exfalso. apply (Qlt_irrefl x). by eapply Qlt_trans.
  - intros x y z _ _ _ Hxy%Qlt_bool_true Hzy. apply Qlt_bool_true.
    unfold Qlt_bool in Hzy. apply negb_false_iff, Qle_bool_iff in Hzy.
    by eapply Qle_lt_trans.
Qed.

(** ** The tiers: what the keep-set holds *)

Lemma keep_add_inv (A : Z → Prop) (g : Z) (r : string) (st : kstate) :
  A g → r ∈ reason_vocabulary → keep_inv A st → keep_inv A (keep_add g r st).
Proof.
  intros HA Hr (H1 & H2 & H3). unfold keep_add. split; [|split]; cbn.
  - intros g' [->%elem_of_singleton|Hg]%elem_of_union; [done | by apply H1].
  - intros g'. destruct (decide (g = g')) as [->|Hne].
    + rewrite lookup_insert_eq.
      split; [eauto | intros _; apply elem_of_union; left; by apply elem_of_singleton].
    + rewrite lookup_insert_ne by done. rewrite <- H2. split.
      * intros [Hx%elem_of_singleton|Hg]%elem_of_union; [congruence | done].
      * intros Hg. apply elem_of_union. by right.
  - intros g' r'. destruct (decide (g = g')) as [->|Hne].
    + rewrite lookup_insert_eq. by intros [= <-].
    + rewrite lookup_insert_ne by done. apply H3.
Qed.

Lemma keep_new_inv (A : Z → Prop) (g : Z) (r : string) (st : kstate) :
  A g → r ∈ reason_vocabulary → keep_inv A st → keep_inv A (keep_new g r st).
Proof. intros. unfold keep_new. case_decide; [done | by apply keep_add_inv]. Qed.

Lemma foldl_inv {B} (A : Z → Prop) (f : kstate → B → kstate) (l : list B) (st : kstate) :
  (∀ st x, x ∈ l → keep_inv A st → keep_inv A (f st x)) →
  keep_inv A st → keep_inv A (foldl f st l).
Proof.
  revert st. induction l as [|x l IH]; intros st Hf Hst; [done|]. cbn.
  apply IH; [intros st' y Hy; apply Hf; by right|]. apply Hf; [by left | done].
Qed.

Lemma vocabulary_elem (r : string) :
  r ∈ reason_vocabulary ↔
  r = "booted-current"%string ∨ r = "booted-previous"%string ∨ r = "<=3d"%string ∨
  r = "daily"%string ∨ r = "prod-first"%string ∨ r = "prod-+24h"%string ∨
  r = "prod-last"%string ∨ r = "clump-longterm"%string ∨ r = "monthly"%string ∨
  r = "pinned"%string.
Proof.
  unfold reason_vocabulary. rewrite !elem_of_cons, elem_of_nil. tauto.
Qed.

Lemma keep_booted_inv (A : Z → Prop) (o : option Z) (r : string) (st : kstate) :
  (∀ c, o = Some c → A c) → r ∈ reason_vocabulary →
  keep_inv A st → keep_inv A (keep_booted o r st).
Proof.
  intros HA Hr Hst. unfold keep_booted. destruct o as [c|]; [|done].
  destruct (truthy _); [|done]. apply keep_add_inv; auto.
Qed.

Lemma keep_recent_inv (A : Z → Prop) (now : Z) (gens : list (Z * Z)) (st : kstate) :
  (∀ g, g ∈ gens.*1 → A g) → keep_inv A st → keep_inv A (keep_recent now gens st).
Proof.
  intros HA. apply foldl_inv. intros st' [gid ts] Hin Hst'. case_decide; [|done].
  apply keep_add_inv; [|apply vocabulary_elem; tauto|done].
  apply HA. by apply (list_elem_of_fmap_2 fst) in Hin.
Qed.

Lemma latest_insert_origin (k : Z) (g : Z * Z) (d : gmap Z (Z * Z)) (k' : Z) (v : Z * Z) :
  latest_insert k g d !! k' = Some v → d !! k' = Some v ∨ (v = g ∧ k' = k).
Proof.
  unfold latest_insert. destruct (d !! k) as [old|] eqn:E.
  - case_decide; [|by left]. destruct (decide (k = k')) as [->|Hne].
    + rewrite lookup_insert_eq. intros [= <-]. by right.
    + rewrite lookup_insert_ne by done. by left.
  - destruct (decide (k = k')) as [->|Hne].
    + rewrite lookup_insert_eq. intros [= <-]. by right.
    + rewrite lookup_insert_ne by done. by left.
Qed.

Lemma latest_insert_mono (k : Z) (g : Z * Z) (d : gmap Z (Z * Z)) (k' : Z) (v0 : Z * Z) :
  d !! k' = Some v0 → ∃ v, latest_insert k g d !! k' = Some v ∧ v0.2 ≤ v.2.
Proof.
  intros Hv0. unfold latest_insert. destruct (d !! k) as [old|] eqn:E.
  - case_decide; [|exists v0; split; [done|lia]].
    destruct (decide (k = k')) as [->|Hne].
    + rewrite lookup_insert_eq. exists g. split; [done|]. rewrite Hv0 in E. injection E as ->. lia.
    + rewrite lookup_insert_ne by done. exists v0. split; [done|lia].
  - destruct (decide (k = k')) as [->|Hne]; [congruence|].
    rewrite lookup_insert_ne by done. exists v0. split; [done|lia].
Qed.

Lemma latest_insert_key (k : Z) (g : Z * Z) (d : gmap Z (Z * Z)) :
  ∃ v, latest_insert k g d !! k = Some v ∧ g.2 ≤ v.2.
Proof.
  unfold latest_insert. destruct (d !! k) as [old|] eqn:E.
  - case_decide.
    + rewrite lookup_insert_eq. exists g. split; [done|lia].
    + exists old. split; [done|lia].
  - rewrite lookup_insert_eq. exists g. split; [done|lia].
Qed.

(** A dict of the latest generation per key, as [daily] and [months] are
    built. *)
Section LatestDict.
Variables (C : Z → bool) (K : Z → Z) (f : gmap Z (Z * Z) → Z * Z → gmap Z (Z * Z)).
Hypothesis Hf : ∀ d gid ts,
  f d (gid, ts) = if C ts then latest_insert (K ts) (gid, ts) d else d.

Lemma latest_fold_mono (gens : list (Z * Z)) (d0 : gmap Z (Z * Z)) (k : Z) (v0 : Z * Z) :
  d0 !! k = Some v0 → ∃ v, foldl f d0 gens !! k = Some v ∧ v0.2 ≤ v.2.
Proof.
  revert d0 v0. induction gens as [|[gid ts] gens IH]; intros d0 v0 Hv0; cbn.
  - exists v0. split; [done|lia].
  - rewrite Hf. destruct (C ts).
    + destruct (latest_insert_mono (K ts) (gid, ts) d0 k v0 Hv0) as (v1 & Hv1 & Hle1).
      destruct (IH _ _ Hv1) as (v & Hv & Hle). exists v. split; [done|lia].
    + by apply IH.
Qed.

Lemma latest_fold_covers (gens : list (Z * Z)) (d0 : gmap Z (Z * Z)) (g t : Z) :
  (g, t) ∈ gens → C t = true → ∃ v, foldl f d0 gens !! K t = Some v ∧ t ≤ v.2.
Proof.
  revert d0. induction gens as [|[gid ts] gens IH]; intros d0 Hin HC; [by apply elem_of_nil in Hin|].
  cbn. apply elem_of_cons in Hin as [[= <- <-]|Hin].
  - rewrite Hf, HC. destruct (latest_insert_key (K t) (g, t) d0) as (v1 & Hv1 & Hle1).
    destruct (latest_fold_mono gens _ _ _ Hv1) as (v & Hv & Hle). exists v. split; [done|].
    cbn in Hle1. lia.
  - by apply IH.
Qed.

Lemma latest_fold_origin (gens : list (Z * Z)) (d0 : gmap Z (Z * Z)) (k : Z) (v : Z * Z) :
  foldl f d0 gens !! k = Some v →
  d0 !! k = Some v ∨ (v ∈ gens ∧ C v.2 = true ∧ K v.2 = k).
Proof.
  revert d0. induction gens as [|[gid ts] gens IH]; intros d0 Hv; [by left|].
  cbn in Hv. destruct (IH _ Hv) as [H0|(Hin & HC & HK)].
  - rewrite Hf in H0. destruct (C ts) eqn:EC.
    + apply latest_insert_origin in H0 as [H0|[-> ->]]; [by left|].
      right. split; [by left|]. done.
    + by left.
  - right. split; [by right|]. done.
Qed.
End LatestDict.

Lemma daily_dict_spec (now : Z) (gens : list (Z * Z)) :
  (∀ g t, (g, t) ∈ gens → in_mid_tier now t = true →
          ∃ v, daily_dict now gens !! date_key t = Some v ∧ t ≤ v.2) ∧
  (∀ k v, daily_dict now gens !! k = Some v →
          v ∈ gens ∧ in_mid_tier now v.2 = true ∧ date_key v.2 = k).
Proof.
  unfold daily_dict. split.
  - intros g t. by apply (latest_fold_covers (in_mid_tier now) date_key).
  - intros k v Hv.
    apply (latest_fold_origin (in_mid_tier now) date_key) in Hv as [Hv|Hv]; [|done|done].
    by rewrite lookup_empty in Hv.
Qed.

Lemma months_dict_spec (now : Z) (gens : list (Z * Z)) :
  (∀ g t, (g, t) ∈ gens → 90 * DAY < now - t →
          ∃ v, months_dict now gens !! month_key t = Some v ∧ t ≤ v.2) ∧
  (∀ k v, months_dict now gens !! k = Some v →
          v ∈ gens ∧ 90 * DAY < now - v.2 ∧ month_key v.2 = k).
Proof.
  unfold months_dict.
  assert (Hf : ∀ (d : gmap Z (Z * Z)) gid ts,
    (if decide (90 * DAY < now - ts) then latest_insert (month_key ts) (gid, ts) d else d)
    = if bool_decide (90 * DAY < now - ts) then latest_insert (month_key ts) (gid, ts) d else d).
  { intros d gid ts. by destruct (decide _); [rewrite bool_decide_eq_true_2
                                            | rewrite bool_decide_eq_false_2]. }
  split.
  - intros g t Hin Hold.
    apply (latest_fold_covers (λ ts, bool_decide (90 * DAY < now - ts)) month_key _ Hf gens ∅ g t);
      [done | by apply bool_decide_eq_true_2].
  - intros k v Hv.
    apply (latest_fold_origin (λ ts, bool_decide (90 * DAY < now - ts)) month_key _ Hf)
      in Hv as [Hv|(H1 & H2%bool_decide_eq_true_1 & H3)]; [by rewrite lookup_empty in Hv | done].
Qed.

Lemma keep_values_contains (r : string) (d : gmap Z (Z * Z)) (st : kstate) (k : Z) (v : Z * Z) :
  d !! k = Some v → v.1 ∈ (keep_values r d st).1.
Proof.
  intros Hv%elem_of_map_to_list. unfold keep_values. revert st Hv.
  induction (map_to_list d) as [|[k' [gid ts]] l IH]; intros st Hin; [by apply elem_of_nil in Hin|].
  cbn [foldl]. apply elem_of_cons in Hin as [[= -> ->]|Hin]; [|by apply IH].
  apply (foldl_grows (λ st '(_, (gid, _)), keep_new gid r st)).
  { intros st' [k'' [gid' ts']]. apply keep_new_grows. }
  cbn. unfold keep_new. case_decide; [done | apply keep_add_elem].
Qed.

Lemma keep_values_inv (A : Z → Prop) (r : string) (d : gmap Z (Z * Z)) (st : kstate) :
  (∀ k v, d !! k = Some v → A v.1) → r ∈ reason_vocabulary →
  keep_inv A st → keep_inv A (keep_values r d st).
Proof.
  intros HA Hr. apply foldl_inv. intros st' [k [gid ts]] Hin%elem_of_map_to_list Hst'.
  apply keep_new_inv; [|done|done]. apply (HA k (gid, ts) Hin).
Qed.

Lemma keep_recent_contains (now : Z) (gens : list (Z * Z)) (st : kstate) (g t : Z) :
  (g, t) ∈ gens → now - t ≤ 3 * DAY → g ∈ (keep_recent now gens st).1.
Proof.
  unfold keep_recent. revert st.
  induction gens as [|[gid ts] gens IH]; intros st Hin Hage; [by apply elem_of_nil in Hin|].
  cbn [foldl]. apply elem_of_cons in Hin as [[= <- <-]|Hin]; [|by apply IH].
  apply (foldl_grows (λ st '(gid, ts),
           if decide (now - ts ≤ 3 * DAY) then keep_add gid "<=3d" st else st)).
  { intros st' [gid' ts']. case_decide; [apply keep_add_grows | done]. }
  rewrite decide_True by done. apply keep_add_elem.
Qed.

Lemma closest_to_elem_of (target : Z) (l : list (Z * Z)) (g t d : Z) :
  closest_to target l = Some (g, t, d) → (g, t) ∈ l.
Proof.
  unfold closest_to.
  assert (G : ∀ acc, foldl (λ acc '(gidk, tsk),
                let diff := Z.abs (tsk - target) in
                match acc with
                | None => Some (gidk, tsk, diff)
                | Some (_, _, mdiff) =>
                    if decide (diff < mdiff) then Some (gidk, tsk, diff) else acc
                end) acc l = Some (g, t, d) →
              acc = Some (g, t, d) ∨ (g, t) ∈ l).
  { induction l as [|[gidk tsk] l IH]; intros acc Hacc; [by left|].
    cbn [foldl] in Hacc. apply IH in Hacc as [Hacc|Hin]; [|right; by right].
    cbv zeta in Hacc. destruct acc as [[[g0 t0] d0]|].
    - case_decide; [injection Hacc as -> -> _; right; by left | by left].
    - injection Hacc as -> -> _. right. by left. }
  intros H. by destruct (G None H).
Qed.

Lemma prod_loop_inv (A : Z → Prop) (subset : list (Z * Z)) (fuel i : nat) (st st' : kstate) :
  (∀ g, g ∈ subset.*1 → A g) →
  prod_loop fuel subset i st = Some st' → keep_inv A st → keep_inv A st'.
Proof.
  intros HA. revert i st. induction fuel as [|fuel IH]; intros i st; cbn [prod_loop].
  - case_decide; [done|]. by intros [= <-].
  - case_decide; [|by intros [= <-]].
    destruct (subset !! i) as [[first_gid first_ts]|] eqn:Ei; [|done]. cbn.
    destruct (find_stretch _ _ _ _) as [j|]; [|apply IH].
    destruct (subset !! j) as [[last_gid last_ts]|] eqn:Ej; [|done]. cbn.
    intros Hloop Hst. apply (IH _ _ Hloop).
    assert (A first_gid) by (apply HA, (list_elem_of_fmap_2 fst _ (first_gid, first_ts));
                              by eapply list_elem_of_lookup_2).
    assert (A last_gid) by (apply HA, (list_elem_of_fmap_2 fst _ (last_gid, last_ts));
                             by eapply list_elem_of_lookup_2).
    apply keep_new_inv; [done | apply vocabulary_elem; tauto |].
    destruct (closest_to _ _) as [[[mid_gid mid_ts] mdiff]|] eqn:Ec.
    + apply keep_new_inv; [| apply vocabulary_elem; tauto |].
      * apply closest_to_elem_of in Ec. apply HA.
        apply (list_elem_of_fmap_2 fst _ (mid_gid, mid_ts)).
        by apply subseteq_take, subseteq_drop in Ec.
      * apply keep_new_inv; [done | apply vocabulary_elem; tauto | done].
    + apply keep_new_inv; [done | apply vocabulary_elem; tauto | done].
Qed.

Lemma keep_productive_inv (A : Z → Prop) (now : Z) (gens : list (Z * Z)) (st st' : kstate) :
  (∀ g, g ∈ gens.*1 → A g) →
  keep_productive now gens st = Some st' → keep_inv A st → keep_inv A st'.
Proof.
  intros HA. unfold keep_productive. case_decide; [|by intros [= <-]].
  apply prod_loop_inv. intros g (x & -> & Hx)%list_elem_of_fmap.
  apply list_elem_of_filter in Hx as [_ Hx]. apply HA. by apply list_elem_of_fmap_2.
Qed.

Lemma keep_windows_inv (A : Z → Prop) (gens windows : list (Z * Z)) (st : kstate) :
  (∀ g, g ∈ gens.*1 → A g) → keep_inv A st → keep_inv A (keep_windows gens windows st).
Proof.
  intros HA. apply foldl_inv. intros st' [ws we] _ Hst'. cbv zeta.
  match goal with |- context [last ?l] => destruct (last l) as [[gid_keep ts_keep]|] eqn:El end;
    [|done].
  apply keep_new_inv; [|apply vocabulary_elem; tauto|done].
  apply last_Some_elem_of, list_elem_of_filter in El as [_ El].
  apply HA. by apply (list_elem_of_fmap_2 fst) in El.
Qed.

Lemma keep_clumps_inv (A : Z → Prop) (now : Z) (gens : list (Z * Z)) (grid : list (Z * Q))
    (st st' : kstate) :
  (∀ g, g ∈ gens.*1 → A g) →
  keep_clumps now gens grid st = Some st' → keep_inv A st → keep_inv A st'.
Proof.
  intros HA. unfold keep_clumps. destruct (filter _ grid); [by intros [= <-]|].
  destruct (select_integral_windows _ _ _ _) as [ws|]; [|done]. cbn.
  intros [= <-]. by apply keep_windows_inv.
Qed.

Lemma persist_keep_inv (A : Z → Prop) (pin : Z → bool) (gens : list (Z * Z)) (st : kstate) :
  (∀ g, g ∈ gens.*1 → A g) → keep_inv A st → keep_inv A (persist_keep pin gens st).
Proof.
  intros HA. apply foldl_inv. intros st' [gid ts] Hin Hst'. destruct (pin gid); [|done].
  apply keep_add_inv; [|apply vocabulary_elem; tauto|done].
  apply HA. by apply (list_elem_of_fmap_2 fst) in Hin.
Qed.

Lemma persist_keep_pinned (pin : Z → bool) (gens : list (Z * Z)) (st : kstate) (g : Z) :
  pin g = true → g ∈ gens.*1 →
  g ∈ (persist_keep pin gens st).1 ∧ (persist_keep pin gens st).2 !! g = Some "pinned"%string.
Proof.
  intros Hp. unfold persist_keep.
  induction gens as [|[gid ts] gens IH] using rev_ind; intros Hin; [by apply elem_of_nil in Hin|].
  rewrite foldl_app. cbn [foldl]. destruct (decide (gid = g)) as [->|Hne].
  - rewrite Hp. split; [apply keep_add_elem|]. cbn. by rewrite lookup_insert_eq.
  - rewrite fmap_app in Hin. apply elem_of_app in Hin as [Hin|Hin%list_elem_of_singleton];
      [|cbn in Hin; congruence].
    destruct (IH Hin) as [H1 H2]. destruct (pin gid); [|done].
    split; [by apply keep_add_grows|]. cbn. by rewrite lookup_insert_ne.
Qed.

Lemma list_remove_first_ne (x y : Z) (l : list Z) :
  x ≠ y → y ∈ l → y ∈ list_remove_first x l.
Proof.
  intros Hne. induction l as [|z l IH]; [done|]. cbn. intros Hin.
  destruct (decide (x = z)) as [->|Hxz].
  - apply elem_of_cons in Hin as [->|Hin]; done.
  - apply elem_of_cons in Hin as [->|Hin]; [by left | right; by apply IH].
Qed.

Lemma remove_if_in_ne (o : option Z) (y : Z) (l : list Z) :
  o ≠ Some y → y ∈ l → y ∈ remove_if_in o l.
Proof.
  intros Hne Hin. unfold remove_if_in. destruct o as [c|]; [|done].
  case_decide; [|done]. apply list_remove_first_ne; [congruence | done].
Qed.

Lemma last_List_last {A} (l : list A) (x d : A) : last l = Some x → List.last l d = x.
Proof.
  induction l as [|y l IH]; [done|]. destruct l as [|z l]; [by intros [= ->]|].
  intros H. by apply IH.
Qed.

Lemma List_last_default {A} (l : list A) (d d' : A) :
  l ≠ [] → List.last l d = List.last l d'.
Proof.
  induction l as [|x l IH]; [done|]. intros _. destruct l as [|y l]; [done|]. by apply IH.
Qed.

Lemma List_last_fmap {A B} (f : A → B) (l : list A) (d : A) :
  List.last (f <$> l) (f d) = f (List.last l d).
Proof.
  induction l as [|y l IH]; [done|]. destruct l as [|z l]; [done|]. exact IH.
Qed.

Section RunFacts.
Variable exp : Q → Q.

Lemma tiers_chain (ft : features) (gens : list (Z * Z)) (cur prev : option Z) (sigma : Z)
    (st : kstate) :
  tiers exp ft gens cur prev sigma = Some st →
  ∃ grid st1 st2,
    keep_productive (now_of gens) gens
      (keep_daily (now_of gens) gens
         (keep_recent (now_of gens) gens
            (keep_booted prev "booted-previous"
               (keep_booted cur "booted-current" (∅, ∅))))) = Some st1 ∧
    keep_clumps (now_of gens) gens grid st1 = Some st2 ∧
    st = keep_monthly (now_of gens) gens st2.
Proof.
  unfold tiers, now_of. intros Ht.
  destruct (kernel_smooth _ _ _) as [grid|]; [|done]. cbn in Ht.
  destruct (keep_productive _ _ _) as [st1|] eqn:E1; [|done]. cbn in Ht.
  destruct (keep_clumps _ _ _ _) as [st2|] eqn:E2; [|done]. cbn in Ht.
  injection Ht as <-. by exists grid, st1, st2.
Qed.

Lemma tiers_keep_inv (ft : features) (gens : list (Z * Z)) (cur prev : option Z) (sigma : Z)
    (st : kstate) :
  tiers exp ft gens cur prev sigma = Some st →
  keep_inv (λ g, g ∈ gens.*1 ∨ cur = Some g ∨ prev = Some g) st.
Proof.
  intros (grid & st1 & st2 & E1 & E2 & ->)%tiers_chain.
  set (A := λ g, g ∈ gens.*1 ∨ cur = Some g ∨ prev = Some g).
  assert (HA : ∀ g, g ∈ gens.*1 → A g) by (intros g Hg; by left).
  apply keep_values_inv; [|apply vocabulary_elem; tauto|].
  { intros k v Hv. apply months_dict_spec in Hv as (Hv & _). apply HA.
    by apply list_elem_of_fmap_2. }
  apply (keep_clumps_inv A _ _ _ _ _ HA E2).
  apply (keep_productive_inv A _ _ _ _ HA E1).
  apply keep_values_inv; [|apply vocabulary_elem; tauto|].
  { intros k v Hv. apply daily_dict_spec in Hv as (Hv & _). apply HA.
    by apply list_elem_of_fmap_2. }
  apply keep_recent_inv; [done|].
  apply keep_booted_inv; [intros c ->; right; by right | apply vocabulary_elem; tauto|].
  apply keep_booted_inv; [intros c ->; right; by left | apply vocabulary_elem; tauto|].
  split; [|split]; cbn.
  - intros g Hg. by apply elem_of_empty in Hg.
  - intros g. rewrite lookup_empty. split; [by intros ?%elem_of_empty | by intros [? ?]].
  - intros g r. by rewrite lookup_empty.
Qed.

Lemma tiers_after_daily (ft : features) (gens : list (Z * Z)) (cur prev : option Z)
    (sigma : Z) (st : kstate) (st' : kstate) :
  tiers exp ft gens cur prev sigma = Some st →
  (keep_recent (now_of gens) gens
     (keep_booted prev "booted-previous" (keep_booted cur "booted-current" (∅, ∅)))).1
    ⊆ st.1 ∧
  (∀ k v, daily_dict (now_of gens) gens !! k = Some v → v.1 ∈ st.1) ∧
  (∀ k v, months_dict (now_of gens) gens !! k = Some v → v.1 ∈ st.1).
Proof.
  intros (grid & st1 & st2 & E1 & E2 & ->)%tiers_chain.
  pose proof (keep_productive_grows _ _ _ _ E1) as G1.
  pose proof (keep_clumps_grows _ _ _ _ _ E2) as G2.
  split; [|split].
  - etrans; [|apply keep_values_grows]. etrans; [|exact G2]. etrans; [|exact G1].
    apply keep_values_grows.
  - intros k v Hv. apply keep_values_grows, G2, G1. by eapply keep_values_contains.
  - intros k v Hv. by eapply keep_values_contains.
Qed.

(** What the reported plan is made of. *)
Lemma report_final (a : args) (w : world) (kept : gmap Z string) (del : list Z) :
  report (main exp a w) = Some (kept, del) →
  ∃ st0 st,
    load_state (state_file w) = Some st0 ∧
    tiers exp (feats w) (listing w) (link_id w) (booted_generations (link_id w)).2
          (sigma_hours a) = Some st ∧
    let fin := persist_keep (pinned st0) (listing w) st in
    (∀ g, g ∈ dom kept ↔ g ∈ fin.1) ∧
    (∀ g, g ∈ fin.1 → kept !! g = fin.2 !! g) ∧
    keep_inv (λ g, g ∈ (listing w).*1 ∨ protected w g) fin ∧
    st.1 ⊆ fin.1 ∧
    (∀ g, g ∈ del ↔ g ∈ delete_ids (link_id w) (booted_generations (link_id w)).2 fin.1
                                    (listing w)) ∧
    StronglySorted Z.le del.
Proof.
  intros Hrep.
  destruct (main_report_inv exp a w kept del Hrep)
    as (st0 & st & Hne & Hload & Ht & _ & Hk & Hd).
  cbv zeta in Hk, Hd. exists st0, st. split; [done|]. split; [done|]. cbv zeta.
  set (fin := persist_keep (pinned st0) (listing w) st) in *.
  assert (Hinv : keep_inv (λ g, g ∈ (listing w).*1 ∨ protected w g) fin).
  { apply persist_keep_inv; [intros g Hg; by left|].
    apply tiers_keep_inv in Ht. destruct Ht as (H1 & H2 & H3).
    split; [|by split]. intros g Hg. destruct (H1 g Hg) as [?|[?|?]];
      [by left | right; by left | right; by right]. }
  split; [|split; [|split; [done|split; [apply persist_keep_grows|split]]]].
  - intros g. rewrite elem_of_dom, Hk, kept_map_lookup. case_decide; [|split; [by intros [? ?]|done]].
    split; [done|eauto].
  - intros g Hg. rewrite Hk, kept_map_lookup, decide_True by done.
    destruct Hinv as (_ & H2 & _). apply H2 in Hg as [r Hr]. unfold dict_get. by rewrite Hr.
  - intros g. by rewrite Hd, elem_of_sorted.
  - rewrite Hd. apply sorted_StronglySorted.
Qed.

(** X12. The reported plan splits the listing: the delete list is in
    ascending order and holds only listed ids that are not kept, and every
    listed id is kept, or to be deleted, or protected. *)
Theorem plan_partitions_listing (a : args) (w : world) (kept : gmap Z string) (del : list Z) :
  report (main exp a w) = Some (kept, del) →
  StronglySorted Z.le del ∧
  (∀ g, g ∈ del → g ∈ (listing w).*1 ∧ g ∉ dom kept) ∧
  (∀ g, g ∈ (listing w).*1 → g ∈ dom kept ∨ g ∈ del ∨ protected w g).
Proof.
  intros (st0 & st & _ & _ & Hdom & _ & _ & _ & Hdel & Hs)%report_final. cbv zeta in *.
  split; [done|]. split.
  - intros g Hg%Hdel. apply delete_ids_not_kept in Hg as [Hin Hk]. by rewrite Hdom.
  - intros g Hg.
    destruct (decide (g ∈ dom kept)) as [|Hk]; [by left|]. right.
    destruct (decide (link_id w = Some g)) as [Hc|Hc]; [right; by left|].
    destruct (decide ((booted_generations (link_id w)).2 = Some g)) as [Hp|Hp]; [right; by right|].
    left. apply Hdel. unfold delete_ids.
    apply remove_if_in_ne; [done|]. apply remove_if_in_ne; [done|].
    apply list_elem_of_filter. split; [|done]. by rewrite <- Hdom.
Qed.

(** X13. Every listed generation that is at most three days older than the
    last listed one is kept and not in the delete list; so is the last listed
    generation itself. *)
Theorem recent_generations_kept (a : args) (w : world) (kept : gmap Z string) (del : list Z)
    (g t : Z) :
  report (main exp a w) = Some (kept, del) →
  (g, t) ∈ listing w →
  now_of (listing w) - t ≤ 3 * DAY ∨ last (listing w) = Some (g, t) →
  g ∈ dom kept ∧ g ∉ del.
Proof.
  intros Hrep Hin Hage.
  assert (Hage' : now_of (listing w) - t ≤ 3 * DAY).
  { destruct Hage as [?|Hl]; [done|]. unfold now_of. rewrite (last_List_last _ _ _ Hl).
    cbn. unfold DAY. lia. }
  destruct (report_final a w kept del Hrep)
    as (st0 & st & _ & Ht & Hdom & _ & _ & Hsub & Hdel & _). cbv zeta in *.
  assert (Hk : g ∈ dom kept).
  { apply Hdom, Hsub. apply (tiers_after_daily _ _ _ _ _ _ st) in Ht as (Hr & _).
    apply Hr. by eapply keep_recent_contains. }
  split; [done|]. intros Hd%Hdel. apply delete_ids_not_kept in Hd as [_ Hd].
  by apply Hd, Hdom.
Qed.

(** X14. A listed generation whose id is pinned in the loaded state (the
    test [str(gid) in state.get("pinned", {})] holds: [str(gid)] is a key of
    the [pinned] object) is kept with the reason [pinned], whatever the tiers
    said, and is not in the delete list. *)
Theorem pinned_generations_kept (a : args) (w : world) (st0 : json) (kept : gmap Z string)
    (del : list Z) (g : Z) :
  report (main exp a w) = Some (kept, del) →
  load_state (state_file w) = Some st0 →
  is_pinned st0 g = Some true →
  g ∈ (listing w).*1 →
  kept !! g = Some "pinned"%string ∧ g ∉ del.
Proof.
  intros Hrep Hload Hp Hin.
  destruct (report_final a w kept del Hrep)
    as (st0' & st & Hload' & _ & Hdom & Hk & _ & _ & Hdel & _). cbv zeta in *.
  assert (st0' = st0) as -> by congruence.
  assert (Hp' : pinned st0 g = true) by (by apply bool_decide_eq_true_2).
  destruct (persist_keep_pinned (pinned st0) (listing w) st g Hp' Hin) as [H1 H2].
  split; [by rewrite Hk|].
  intros Hd%Hdel. by apply delete_ids_not_kept in Hd as [_ Hd].
Qed.

(** X15. The keep map never holds an id that is neither listed nor
    protected, and each of its reasons is one of the ten words that [main]
    records, never the empty default. *)
Theorem kept_ids_and_reasons (a : args) (w : world) (kept : gmap Z string) (del : list Z)
    (g : Z) (r : string) :
  report (main exp a w) = Some (kept, del) →
  kept !! g = Some r →
  (g ∈ (listing w).*1 ∨ protected w g) ∧ r ∈ reason_vocabulary ∧ r ≠ EmptyString.
Proof.
  intros Hrep Hg.
  destruct (report_final a w kept del Hrep)
    as (st0 & st & _ & _ & Hdom & Hk & (H1 & H2 & H3) & _). cbv zeta in *.
  assert (Hin : g ∈ (persist_keep (pinned st0) (listing w) st).1)
    by (apply Hdom, elem_of_dom; eauto).
  split; [by apply H1|]. rewrite (Hk g Hin) in Hg. pose proof (H3 g r Hg) as Hr.
  split; [done|]. apply vocabulary_elem in Hr. intros ->. intuition discriminate.
Qed.

(** X16. For every listed generation that is more than three and at most ten
    days older than the last one, a generation of the same UTC day that is
    not older than it is kept: the day keeps its latest generation. *)
Theorem daily_latest_kept (a : args) (w : world) (kept : gmap Z string) (del : list Z)
    (g t : Z) :
  report (main exp a w) = Some (kept, del) →
  (g, t) ∈ listing w →
  3 * DAY < now_of (listing w) - t ≤ 10 * DAY →
  ∃ g' t', (g', t') ∈ listing w ∧ date_key t' = date_key t ∧ t ≤ t' ∧
           g' ∈ dom kept ∧ g' ∉ del.
Proof.
  intros Hrep Hin Hage.
  destruct (report_final a w kept del Hrep)
    as (st0 & st & _ & Ht & Hdom & _ & _ & Hsub & Hdel & _). cbv zeta in *.
  destruct (daily_dict_spec (now_of (listing w)) (listing w)) as [Hcov Horig].
  destruct (Hcov g t Hin) as ([g' t'] & Hv & Hle); [by apply bool_decide_eq_true_2|].
  destruct (Horig _ _ Hv) as (Hin' & _ & Hkey).
  apply (tiers_after_daily _ _ _ _ _ _ st) in Ht as (_ & Hd & _).
  exists g', t'. split; [done|]. split; [done|]. split; [done|].
  assert (Hk : g' ∈ dom kept) by (apply Hdom, Hsub, (Hd _ _ Hv)).
  split; [done|]. intros Hx%Hdel. apply delete_ids_not_kept in Hx as [_ Hx].
  by apply Hx, Hdom.
Qed.

(** X17. For every listed generation that is more than ninety days older
    than the last one, a generation of the same calendar month that is not
    older than it is kept: the month keeps its latest generation. *)
Theorem monthly_latest_kept (a : args) (w : world) (kept : gmap Z string) (del : list Z)
    (g t : Z) :
  report (main exp a w) = Some (kept, del) →
  (g, t) ∈ listing w →
  90 * DAY < now_of (listing w) - t →
  ∃ g' t', (g', t') ∈ listing w ∧ month_key t' = month_key t ∧ t ≤ t' ∧
           g' ∈ dom kept ∧ g' ∉ del.
Proof.
  intros Hrep Hin Hage.
  destruct (report_final a w kept del Hrep)
    as (st0 & st & _ & Ht & Hdom & _ & _ & Hsub & Hdel & _). cbv zeta in *.
  destruct (months_dict_spec (now_of (listing w)) (listing w)) as [Hcov Horig].
  destruct (Hcov g t Hin Hage) as ([g' t'] & Hv & Hle).
  destruct (Horig _ _ Hv) as (Hin' & _ & Hkey).
  apply (tiers_after_daily _ _ _ _ _ _ st) in Ht as (_ & _ & Hm).
  exists g', t'. split; [done|]. split; [done|]. split; [done|].
  assert (Hk : g' ∈ dom kept) by (apply Hdom, Hsub, (Hm _ _ Hv)).
  split; [done|]. intros Hx%Hdel. apply delete_ids_not_kept in Hx as [_ Hx].
  by apply Hx, Hdom.
Qed.

(** The ways a run can go: it stops before the plan (nothing listed, a
    state that does not load, the smoother or the loop raising), or it reports
    the plan from a document that the loop accepts. *)
Lemma main_cases (a : args) (w : world) :
  (main exp a w
   = {| exit_code := if decide (listing w = []) then Some 0 else None; trace := [];
        file_after := state_file w; report := None |}) ∨
  (∃ m g st, listing w ≠ [] ∧ load_state (state_file w) = Some (JObj m) ∧
     tiers exp (feats w) (listing w) (link_id w) (booted_generations (link_id w)).2
           (sigma_hours a) = Some st ∧
     m !! "gens"%string = Some (JObj g) ∧
     gens_ok (listing w) (JObj m) && pinned_ok (JObj m) = true).
Proof.
  destruct (decide (listing w = [])) as [El|Hne].
  { left. by rewrite (main_empty exp a w El). }
  destruct (load_state (state_file w)) as [st0|] eqn:Hload; cycle 1.
  { left. by rewrite (main_load_fails exp a w Hne Hload). }
  destruct (tiers exp (feats w) (listing w) (link_id w) (booted_generations (link_id w)).2
              (sigma_hours a)) as [st|] eqn:Ht; cycle 1.
  { left. by rewrite (main_tiers_fail exp a w st0 Hne Hload Ht). }
  destruct (gens_ok (listing w) st0 && pinned_ok st0) eqn:Hok; cycle 1.
  { left. by rewrite (main_not_ready exp a w st0 Hne Hload Hok). }
  destruct (ready_dict (listing w) st0) as (m & g & -> & Hg & _).
  { by apply andb_prop in Hok as [? _]. }
  right. by exists m, g, st.
Qed.

(** X18. A run that reports a plan and ends with exit code 0 has saved a
    state document that differs from the loaded one only under [gens],
    [kept], [meta] and [deleted]: the pinned ids and every other key are as
    loaded, every [meta] entry but [last_run] is as loaded, [last_run] is the
    time of the run, the entries of [gens] for ids that are not listed are
    untouched, and the loaded [deleted] list is a prefix of the saved one. *)
Theorem state_only_extended (a : args) (w : world) (st0 : json) (kept : gmap Z string)
    (del : list Z) :
  report (main exp a w) = Some (kept, del) →
  load_state (state_file w) = Some st0 →
  exit_code (main exp a w) = Some 0 →
  ∃ s, file_after (main exp a w) = Document s ∧
       (∀ k : string, k ∉ ["gens"; "kept"; "meta"; "deleted"]%string →
                      getpath s [k] = getpath st0 [k]) ∧
       (∀ g, is_pinned s g = is_pinned st0 g) ∧
       getpath s ["meta"; "last_run"]%string = Some (JStr (clock w)) ∧
       (∀ k : string, k ≠ "last_run"%string →
                      getpath s ["meta"; k]%string = getpath st0 ["meta"; k]%string) ∧
       (∀ k : string, (∀ gid, gid ∈ (listing w).*1 → k ≠ str gid) →
                      getpath s ["gens"; k]%string = getpath st0 ["gens"; k]%string) ∧
       deleted_history (state_file w) `prefix_of` deleted_history (file_after (main exp a w)).
Proof.
  intros Hrep Hload Hexit.
  destruct (main_report_inv exp a w kept del Hrep)
    as (st0' & st & Hne & Hload' & Ht & Hok & _).
  assert (st0' = st0) as -> by congruence.
  destruct (ready_dict (listing w) st0) as (m & g & -> & Hg & _).
  { by apply andb_prop in Hok as [? _]. }
  rewrite (main_on_dict exp a w m g st Hne Hload Ht Hg Hok) in Hexit |- *.
  cbv zeta in Hexit |- *.
  rewrite (deleted_history_loaded _ _ Hload). cbn [getitem].
  set (score := scores (feats w) (listing w)) in *.
  set (fin := persist_keep (pinned (JObj m)) (listing w) st) in *.
  set (dl := sorted _) in *.
  destruct (m !! "meta"%string) as [[| | | | |meta]|] eqn:Hmeta; try done.
  cbv zeta in Hexit |- *.
  assert (Hfacts : ∀ m' : gmap string json,
    (∀ k : string, k ∉ ["gens"; "kept"; "meta"; "deleted"]%string → m' !! k = m !! k) →
    m' !! "gens"%string = Some (JObj (persist_gens score (listing w) g)) →
    m' !! "meta"%string = Some (JObj (<["last_run"%string := JStr (clock w)]> meta)) →
    (∀ k : string, k ∉ ["gens"; "kept"; "meta"; "deleted"]%string →
                   getpath (JObj m') [k] = getpath (JObj m) [k]) ∧
    (∀ x, is_pinned (JObj m') x = is_pinned (JObj m) x) ∧
    getpath (JObj m') ["meta"; "last_run"]%string = Some (JStr (clock w)) ∧
    (∀ k : string, k ≠ "last_run"%string →
                   getpath (JObj m') ["meta"; k]%string = getpath (JObj m) ["meta"; k]%string) ∧
    (∀ k : string, (∀ gid, gid ∈ (listing w).*1 → k ≠ str gid) →
                   getpath (JObj m') ["gens"; k]%string = getpath (JObj m) ["gens"; k]%string)).
  { intros m' Hother Hgens' Hmeta'. unfold getpath. cbn [foldl mbind option_bind getitem].
    split; [done|]. split.
    { intros x. unfold is_pinned, get. rewrite Hother; [done|].
      rewrite !not_elem_of_cons. repeat split; try done. apply not_elem_of_nil. }
    rewrite Hmeta', Hgens', Hmeta, Hg. cbn [mbind option_bind getitem].
    split; [by rewrite lookup_insert_eq|].
    split; [intros k Hk; by rewrite lookup_insert_ne|].
    intros k Hk. by apply persist_gens_other. }
  assert (Hne4 : ∀ k : string, k ∉ ["gens"; "kept"; "meta"; "deleted"]%string →
            k ≠ "gens"%string ∧ k ≠ "kept"%string ∧ k ≠ "meta"%string ∧ k ≠ "deleted"%string).
  { intros k Hk. rewrite !not_elem_of_cons in Hk. by destruct Hk as (? & ? & ? & ? & _). }
  set (hist0 := match m !! "deleted"%string with
                | Some (JArr l) => l
                | _ => []
                end).
  assert (Hall : ∀ m' : gmap string json,
    (∀ k : string, k ∉ ["gens"; "kept"; "meta"; "deleted"]%string → m' !! k = m !! k) →
    m' !! "gens"%string = Some (JObj (persist_gens score (listing w) g)) →
    m' !! "meta"%string = Some (JObj (<["last_run"%string := JStr (clock w)]> meta)) →
    hist0 `prefix_of` deleted_history (Document (JObj m')) →
    ∃ s, Document (JObj m') = Document s ∧
       (∀ k : string, k ∉ ["gens"; "kept"; "meta"; "deleted"]%string →
                      getpath s [k] = getpath (JObj m) [k]) ∧
       (∀ x, is_pinned s x = is_pinned (JObj m) x) ∧
       getpath s ["meta"; "last_run"]%string = Some (JStr (clock w)) ∧
       (∀ k : string, k ≠ "last_run"%string →
                      getpath s ["meta"; k]%string = getpath (JObj m) ["meta"; k]%string) ∧
       (∀ k : string, (∀ gid, gid ∈ (listing w).*1 → k ≠ str gid) →
                      getpath s ["gens"; k]%string = getpath (JObj m) ["gens"; k]%string) ∧
       hist0 `prefix_of` deleted_history (Document (JObj m'))).
  { intros m' HO HG HM HP. exists (JObj m'). split; [done|].
    destruct (Hfacts m' HO HG HM) as (HA & HB & HC & HD & HE). by split_and!. }
  set (m2 := <["meta"%string := JObj (<["last_run"%string := JStr (clock w)]> meta)]>
               (<["kept"%string := kept_json fin.1 fin.2]>
                  (<["gens"%string := JObj (persist_gens score (listing w) g)]> m))) in *.
  assert (O2 : ∀ k : string, k ∉ ["gens"; "kept"; "meta"; "deleted"]%string →
                             m2 !! k = m !! k).
  { intros k (? & ? & ? & ?)%Hne4. unfold m2. by rewrite !lookup_insert_ne by done. }
  assert (G2 : m2 !! "gens"%string = Some (JObj (persist_gens score (listing w) g))).
  { unfold m2. by rewrite !lookup_insert_ne, lookup_insert_eq by done. }
  assert (M2 : m2 !! "meta"%string
               = Some (JObj (<["last_run"%string := JStr (clock w)]> meta))).
  { unfold m2. by rewrite lookup_insert_eq. }
  assert (D2 : m2 !! "deleted"%string = m !! "deleted"%string).
  { unfold m2. by rewrite !lookup_insert_ne by done. }
  assert (P2 : hist0 `prefix_of` deleted_history (Document (JObj m2))).
  { cbn [deleted_history getitem]. by rewrite D2. }
  clearbody m2.
  destruct (plan_only a); [cbn [file_after]; by apply Hall|].
  destruct dl as [|d0 dl']; [cbn [file_after]; by apply Hall|].
  unfold hist0 in *.
  destruct (m !! "deleted"%string) as [[| | | |hist|]|] eqn:Hdel; try done.
  cbn [file_after]. apply Hall.
  - intros k Hk. pose proof (Hne4 k Hk) as (? & ? & ? & ?).
    rewrite lookup_insert_ne by done. by apply O2.
  - by rewrite lookup_insert_ne by done.
  - by rewrite lookup_insert_ne by done.
  - cbn [deleted_history getitem]. rewrite lookup_insert_eq. by apply prefix_app_r.
Qed.

(** X19. A run that reports no plan (nothing is listed, the state cannot be
    loaded, or the smoother or the loop over the state raises) has run no
    command and has left what is at the state path as it was. *)
Theorem no_plan_no_effect (a : args) (w : world) :
  report (main exp a w) = None →
  trace (main exp a w) = [] ∧ file_after (main exp a w) = state_file w.
Proof.
  intros Hrep. destruct (main_cases a w) as [->|(m & g & st & Hne & Hload & Ht & Hg & Hok)];
    [done|].
  rewrite (main_report exp a w (JObj m) st Hne Hload Ht) in Hrep. cbv zeta in Hrep.
  by rewrite Hok in Hrep.
Qed.

(** X20. A command is run only with [--apply] and without [--dry-run], and
    then the first command is the deletion of exactly the reported plan, which
    is not empty and names only listed ids that are not kept. *)
Theorem commands_follow_the_plan (a : args) (w : world) (ev : event) :
  ev ∈ trace (main exp a w) →
  apply a = true ∧ dry_run a = false ∧
  ∃ kept del, report (main exp a w) = Some (kept, del) ∧ del ≠ [] ∧
              head (trace (main exp a w)) = Some (RunDeleteGenerations del) ∧
              ∀ g, g ∈ del → g ∈ (listing w).*1 ∧ g ∉ dom kept.
Proof.
  intros Hev. destruct (main_cases a w) as [E|(m & g & st & Hne & Hload & Ht & Hg & Hok)].
  { rewrite E in Hev. by apply elem_of_nil in Hev. }
  pose proof (main_report exp a w (JObj m) st Hne Hload Ht) as Hrep. cbv zeta in Hrep.
  rewrite Hok in Hrep.
  pose proof (main_on_dict exp a w m g st Hne Hload Ht Hg Hok) as Hm. cbv zeta in Hm.
  set (keptm := kept_map _ _) in Hrep, Hm. set (del := sorted _) in Hrep, Hm.
  assert (Htr : trace (main exp a w) ≠ [] →
                plan_only a = false ∧ del ≠ [] ∧
                head (trace (main exp a w)) = Some (RunDeleteGenerations del)).
  { rewrite Hm. destruct (m !! "meta"%string) as [[| | | | |meta]|]; try done.
    destruct (plan_only a); [done|]. destruct del as [|d0 del']; [done|].
    by destruct (m !! "deleted"%string) as [[| | | |hist|]|]. }
  destruct Htr as (Hmode & Hdel & Hhead).
  { intros E. rewrite E in Hev. by apply elem_of_nil in Hev. }
  unfold plan_only in Hmode. destruct (apply a), (dry_run a); try done.
  split; [done|]. split; [done|]. exists keptm, del. split; [done|].
  split; [done|]. split; [done|].
  intros x Hx. destruct (report_final a w keptm del Hrep)
    as (st0' & st' & _ & _ & Hdom & _ & _ & _ & Hd & _).
  apply Hd in Hx. apply delete_ids_not_kept in Hx as [Hin Hnk]. split; [done|].
  intros Hy. by apply Hnk, Hdom.
Qed.

Lemma kernel_smooth_zero_raises (p0 : Z * Q) (rest : list (Z * Q)) :
  p0.1 ≤ (List.last (p0 :: rest) p0).1 → kernel_smooth exp (p0 :: rest) 0 = None.
Proof.
  intros Hle. unfold kernel_smooth. set (start := floor_hour p0.1).
  set (end_ := floor_hour (List.last (p0 :: rest) p0).1).
  pose proof (floor_hour_span p0.1 (List.last (p0 :: rest) p0).1) as Hspan.
  fold start end_ in Hspan.
  assert (start ≤ end_).
  { unfold start, end_, floor_hour, HOUR.
    assert (p0.1 / 3600 ≤ (List.last (p0 :: rest) p0).1 / 3600) by (apply Z.div_le_mono; lia).
    lia. }
  assert (0 < (end_ - start) / HOUR + 1) as Hpos by (unfold HOUR in *; lia).
  rewrite seqZ_cons by done. destruct p0 as [pt sc]. cbn. done.
Qed.

(** X21. With [--sigma-hours 0] a run over a listing whose first timestamp is
    not after the last one ends with the uncaught [ZeroDivisionError]: no
    plan is reported, no command is run and the state file is not written. *)
Theorem zero_sigma_aborts (a : args) (w : world) (g0 t0 : Z) (rest : list (Z * Z)) :
  sigma_hours a = 0 →
  listing w = (g0, t0) :: rest →
  t0 ≤ now_of (listing w) →
  exit_code (main exp a w) = None ∧ report (main exp a w) = None ∧
  trace (main exp a w) = [] ∧ file_after (main exp a w) = state_file w.
Proof.
  intros Hsig Hl Hord.
  assert (Hne : listing w ≠ []) by (by rewrite Hl).
  destruct (load_state (state_file w)) as [st0|] eqn:Hload; cycle 1.
  { by rewrite (main_load_fails exp a w Hne Hload). }
  rewrite (main_tiers_fail exp a w st0 Hne Hload); [done|].
  unfold tiers. rewrite Hsig, Hl.
  set (f := λ '(gid, ts), (ts, dict_get (scores (feats w) ((g0, t0) :: rest)) gid 0%Q)).
  assert (Hf : ∀ x, (f x).1 = x.2) by (by intros [? ?]).
  assert (Hk : kernel_smooth exp (f <$> (g0, t0) :: rest) 0 = None); [|by rewrite Hk].
  rewrite fmap_cons. apply kernel_smooth_zero_raises.
  rewrite <- fmap_cons, (List_last_fmap f _ (g0, t0)), !Hf. cbn [snd].
  unfold now_of in Hord. rewrite Hl in Hord.
  by rewrite (List_last_default _ (g0, t0) (0, 0)).
Qed.

(** X22. The plan does not depend on the mode: with the same listing,
    protected id, features, state file and bandwidth, a plan-only run reports
    the keep map and the delete list that a run with [--apply] reports and
    acts on, whatever the clock and the exit code of the deletion. *)
Theorem plan_same_in_both_modes (a a' : args) (w w' : world) :
  sigma_hours a' = sigma_hours a →
  listing w' = listing w →
  link_id w' = link_id w →
  feats w' = feats w →
  state_file w' = state_file w →
  report (main exp a' w') = report (main exp a w).
Proof.
  intros Hsig Hl Hid Hft Hfile.
  destruct (decide (listing w = [])) as [El|Hne].
  { rewrite (main_empty exp a w El), (main_empty exp a' w') by congruence. done. }
  destruct (load_state (state_file w)) as [st0|] eqn:Hload; cycle 1.
  { rewrite (main_load_fails exp a w Hne Hload).
    by rewrite (main_load_fails exp a' w') by congruence. }
  apply (report_same_state exp a a' w w' st0 st0); try done. congruence.
Qed.

(** X30. What a run does with a state document of another shape than the
    one it writes.  When [state["gens"]] is not a dict, or holds something
    else than a dict for a listed id, or [state["pinned"]] is not a
    container, the run ends with an uncaught exception before the plan is
    reported.  When these are in order but [state["meta"]] is not a dict, the
    plan is reported and the run then ends with an uncaught exception: no
    command is run and nothing is saved.  When only [state["deleted"]] is not
    a list, a run with [--apply] and a non-empty plan saves the state, runs
    the deletion and the garbage collections, and then ends with an uncaught
    exception: the plan is not appended. *)
Theorem ill_shaped_state_aborts (a : args) (w : world) (st0 : json) :
  listing w ≠ [] →
  load_state (state_file w) = Some st0 →
  (gens_ok (listing w) st0 && pinned_ok st0 = false →
   main exp a w = raised (state_file w)) ∧
  (gens_ok (listing w) st0 && pinned_ok st0 = true → meta_ok st0 = false →
   sigma_hours a ≠ 0 →
   is_Some (report (main exp a w)) ∧ exit_code (main exp a w) = None ∧
   trace (main exp a w) = [] ∧ file_after (main exp a w) = state_file w) ∧
  (gens_ok (listing w) st0 && pinned_ok st0 = true → meta_ok st0 = true →
   deleted_ok st0 = false → plan_only a = false →
   ∀ kept del, report (main exp a w) = Some (kept, del) → del ≠ [] →
     exit_code (main exp a w) = None ∧
     trace (main exp a w)
     = [RunDeleteGenerations del]
       ++ (if decide (delete_returncode w ≠ 0) then [PrintStderr] else [])
       ++ [RunCollectGarbage; RunStoreGC] ∧
     (∃ s, file_after (main exp a w) = Document s ∧
           getpath s ["meta"; "last_run"]%string = Some (JStr (clock w))) ∧
     deleted_history (file_after (main exp a w)) = []).
Proof.
  intros Hne Hload. split; [by apply main_not_ready|]. split.
  - intros Hok Hmeta Hsig.
    destruct (tiers_total exp (feats w) (listing w) (link_id w)
                (booted_generations (link_id w)).2 (sigma_hours a) Hsig) as [st Ht].
    destruct (ready_dict (listing w) st0) as (m & g & -> & Hg & _).
    { by apply andb_prop in Hok as [? _]. }
    rewrite (main_on_dict exp a w m g st Hne Hload Ht Hg Hok). cbv zeta.
    unfold meta_ok in Hmeta. cbn [getitem] in Hmeta.
    destruct (m !! "meta"%string) as [[| | | | |meta]|]; try done; by split; [eexists|].
  - intros Hok Hmeta Hdeleted Hmode kept del Hrep Hdel.
    destruct (main_report_inv exp a w kept del Hrep)
      as (st0' & st & _ & Hload' & Ht & _ & _ & Hd).
    assert (st0' = st0) as -> by congruence. cbv zeta in Hd.
    destruct (ready_dict (listing w) st0) as (m & g & -> & Hg & _).
    { by apply andb_prop in Hok as [? _]. }
    rewrite (main_on_dict exp a w m g st Hne Hload Ht Hg Hok). cbv zeta.
    rewrite <- Hd, Hmode. unfold meta_ok, deleted_ok in Hmeta, Hdeleted.
    cbn [getitem] in Hmeta, Hdeleted.
    destruct (m !! "meta"%string) as [[| | | | |meta]|]; try done.
    destruct del as [|d0 del']; [done|].
    assert (Hlast : ∀ m1 : gmap string json,
              getpath (JObj (<["meta"%string := JObj (<["last_run"%string := JStr (clock w)]> meta)]> m1))
                      ["meta"; "last_run"]%string = Some (JStr (clock w))).
    { intros m1. unfold getpath. cbn [foldl mbind option_bind getitem].
      rewrite lookup_insert_eq. cbn [mbind option_bind getitem]. by rewrite lookup_insert_eq. }
    destruct (m !! "deleted"%string) as [[| | | |hist|]|] eqn:Hdl; try done;
      cbn [exit_code trace file_after deleted_history getitem];
      rewrite !lookup_insert_ne, Hdl by done;
      (split; [done|]); (split; [done|]); (split; [|done]); eexists; (split; [done|]);
      apply Hlast.
Qed.

End RunFacts.

(** ** list_generations *)

Lemma insert_by_ts_Permutation (g : Z * Z) (l : list (Z * Z)) :
  insert_by_ts g l ≡ₚ g :: l.
Proof.
  induction l as [|h r IH]; [done|]. cbn [insert_by_ts].
  destruct (decide (g.2 ≤ h.2)); [done|]. by rewrite IH, Permutation_swap.
Qed.

Lemma insert_by_ts_sorted (g : Z * Z) (l : list (Z * Z)) :
  StronglySorted (λ x y, x.2 ≤ y.2) l → StronglySorted (λ x y, x.2 ≤ y.2) (insert_by_ts g l).
Proof.
  induction 1 as [|h r Hr IH Hh]; cbn [insert_by_ts].
  - repeat constructor.
  - destruct (decide (g.2 ≤ h.2)) as [Hle|Hgt].
    + constructor; [by constructor|]. constructor; [done|].
      eapply Forall_impl; [exact Hh|]. intros y Hy. cbn beta in *. lia.
    + constructor; [done|]. rewrite insert_by_ts_Permutation. constructor; [lia|done].
Qed.

Lemma insert_by_ts_stable (t : Z) (g : Z * Z) (l : list (Z * Z)) :
  filter (λ x, x.2 = t) (insert_by_ts g l) = filter (λ x, x.2 = t) (g :: l).
Proof.
  induction l as [|h r IH]; [done|]. cbn [insert_by_ts].
  destruct (decide (g.2 ≤ h.2)) as [Hle|Hgt]; [done|].
  rewrite filter_cons, IH, !filter_cons.
  destruct (decide (h.2 = t)) as [Hh|Hh]; [|done].
  destruct (decide (g.2 = t)) as [Hg|Hg]; [lia|done].
Qed.

Lemma list_generations_Permutation (rows : list (Z * Z)) : list_generations rows ≡ₚ rows.
Proof.
  unfold list_generations. induction rows as [|g rows IH]; cbn [foldr]; [done|].
  by rewrite insert_by_ts_Permutation, IH.
Qed.

Lemma list_generations_sorted (rows : list (Z * Z)) :
  StronglySorted (λ x y, x.2 ≤ y.2) (list_generations rows).
Proof.
  unfold list_generations. induction rows as [|g rows IH]; cbn [foldr]; [constructor|].
  by apply insert_by_ts_sorted.
Qed.

(** X23. [list_generations] returns the rows it read, each as often as it
    was read, ordered by timestamp; rows with the same timestamp keep the
    order of the listing. *)
Theorem list_generations_sorted_stable (rows : list (Z * Z)) :
  list_generations rows ≡ₚ rows
  ∧ StronglySorted (λ x y, x.2 ≤ y.2) (list_generations rows)
  ∧ ∀ t, filter (λ x, x.2 = t) (list_generations rows) = filter (λ x, x.2 = t) rows.
Proof.
  split; [apply list_generations_Permutation|]. split; [apply list_generations_sorted|].
  intros t. unfold list_generations. induction rows as [|g rows IH]; cbn [foldr]; [done|].
  by rewrite insert_by_ts_stable, !filter_cons, IH.
Qed.

(** X24. The last generation of [list_generations], the one [main] takes its
    [now] from, carries the latest timestamp of the listing. *)
Theorem now_is_latest_timestamp (rows : list (Z * Z)) (g t : Z) :
  (g, t) ∈ rows → t ≤ now_of (list_generations rows).
Proof.
  intros Hin. pose proof (list_generations_sorted rows) as Hs.
  rewrite <- (list_generations_Permutation rows) in Hin. unfold now_of.
  destruct (list_generations rows) as [|x l _] using rev_ind; [by apply elem_of_nil in Hin|].
  rewrite List.last_last. apply elem_of_app in Hin as [Hin|Hin].
  - apply (StronglySorted_app_1_elem_of _ _ _ (g, t) x Hs Hin). by left.
  - apply list_elem_of_singleton in Hin as <-. cbn. lia.
Qed.

(** ** git_lines_delta *)

Lemma int_from_nonneg (s : string) (acc : Z) :
  Git.all_digits s = true → 0 ≤ acc → 0 ≤ Git.int_from acc s.
Proof.
  revert acc. induction s as [|c s IH]; intros acc Hd Hacc; cbn [Git.int_from]; [done|].
  cbn [Git.all_digits] in Hd. apply andb_prop in Hd as [Hc Hs].
  apply IH; [done|]. unfold Git.is_digit in Hc. apply andb_prop in Hc as [Hc _].
  apply Nat.leb_le in Hc. lia.
Qed.

Lemma int_nonneg (s : string) : Git.isdigit s = true → 0 ≤ Git.int s.
Proof.
  intros Hd. apply int_from_nonneg; [|done]. by destruct s.
Qed.

Lemma count_line_nonneg (acc : Z * Z) (parts : list string) :
  0 ≤ acc.1 ∧ 0 ≤ acc.2 → 0 ≤ (Git.count_line acc parts).1 ∧ 0 ≤ (Git.count_line acc parts).2.
Proof.
  destruct acc as [adds dels]. intros [Ha Hd]. unfold Git.count_line.
  destruct parts as [|p0 [|p1 [|p2 parts]]]; [done..|].
  destruct (Git.isdigit p0 && Git.isdigit p1) eqn:E; [|done].
  apply andb_prop in E as [E0 E1]. apply int_nonneg in E0, E1. cbn [fst snd] in *. lia.
Qed.

Lemma count_line_skips (acc : Z * Z) (parts : list string) :
  (∀ p0 p1, parts !! 0%nat = Some p0 → parts !! 1%nat = Some p1 →
     Git.isdigit p0 && Git.isdigit p1 = false) →
  Git.count_line acc parts = acc.
Proof.
  destruct acc as [adds dels]. intros H. unfold Git.count_line.
  destruct parts as [|p0 [|p1 [|p2 parts]]]; [done..|].
  by rewrite (H p0 p1).
Qed.

(** X25. [git_lines_delta] is never negative.  It is 0 when the directory
    holds no repository, when no commit is found before one of the two
    timestamps, and when both timestamps find the same commit; it is also 0
    when no line of the diff has a number for both its added and its deleted
    count (binary files only). *)
Theorem git_lines_delta_counts (r : Git.repo) (older_ts newer_ts : Z) :
  0 ≤ Git.git_lines_delta r older_ts newer_ts
  ∧ (Git.has_git_dir r = false ∨ Git.rev_list r older_ts = EmptyString
     ∨ Git.rev_list r newer_ts = EmptyString
     ∨ Git.rev_list r older_ts = Git.rev_list r newer_ts →
     Git.git_lines_delta r older_ts newer_ts = 0)
  ∧ ((∀ parts p0 p1, parts ∈ Git.diff_numstat r (Git.rev_list r older_ts) (Git.rev_list r newer_ts) →
        parts !! 0%nat = Some p0 → parts !! 1%nat = Some p1 →
        Git.isdigit p0 && Git.isdigit p1 = false) →
     Git.git_lines_delta r older_ts newer_ts = 0).
Proof.
  unfold Git.git_lines_delta, Git.commit_at.
  destruct (Git.has_git_dir r); cbn [negb]; [|done].
  set (c_old := Git.rev_list r older_ts). set (c_new := Git.rev_list r newer_ts).
  destruct (decide (c_old = EmptyString)) as [Ho|Ho]; [done|].
  destruct (decide (c_new = EmptyString)) as [Hn|Hn]; [done|].
  destruct (decide (c_old = c_new)) as [He|He]; [done|].
  split; [|split].
  - assert (H : ∀ l acc, 0 ≤ acc.1 ∧ 0 ≤ acc.2 →
                0 ≤ (foldl Git.count_line acc l).1 ∧ 0 ≤ (foldl Git.count_line acc l).2).
    { induction l as [|x l IH]; intros acc Hacc; [done|].
      cbn [foldl]. by apply IH, count_line_nonneg. }
    specialize (H (Git.diff_numstat r c_old c_new) (0, 0)).
    destruct (foldl _ _ _) as [adds dels]. cbn [fst snd] in H. lia.
  - intros [?|[?|[?|?]]]; done.
  - intros Hbin.
    assert (H : ∀ l acc, (∀ parts, parts ∈ l → Git.count_line acc parts = acc) →
                foldl Git.count_line acc l = acc).
    { induction l as [|x l IH]; intros acc Hl; [done|].
      cbn [foldl]. rewrite (Hl x) by left. apply IH. intros parts Hp. apply Hl. by right. }
    rewrite (H _ (0, 0)); [done|].
    intros parts Hp. apply count_line_skips. intros p0 p1. by apply Hbin.
Qed.

(** ** The productive stretches *)

Lemma mean_le (total intervals c : Z) :
  0 < intervals →
  Qle_bool (inject_Z total / inject_Z intervals) (inject_Z c) = true ↔ total ≤ c * intervals.
Proof.
  intros Hpos. rewrite Qle_bool_iff, Zle_Qle, inject_Z_mult.
  assert (Hq : (0 < inject_Z intervals)%Q) by (by rewrite <- (Zlt_Qlt 0)).
  split; intros H.
  - assert (Heq : (inject_Z total / inject_Z intervals * inject_Z intervals == inject_Z total)%Q).
    { field. intros E. rewrite E in Hq. by apply Qlt_irrefl in Hq. }
    rewrite <- Heq. apply Qmult_le_compat_r; [done|]. by apply Qlt_le_weak.
  - by apply Qle_shift_div_r.
Qed.

Lemma find_stretch_spec (i : nat) (ti : Z) (rest : list (Z * Z)) (j0 j : nat) :
  (i < j0)%nat →
  find_stretch i ti j0 rest = Some j →
  ∃ g tj, (j0 ≤ j)%nat ∧ rest !! (j - j0)%nat = Some (g, tj)
    ∧ 36 * HOUR ≤ tj - ti ∧ tj - ti ≤ 12 * HOUR * (Z.of_nat j - Z.of_nat i)
    ∧ ∀ k g' t', (j0 ≤ k < j)%nat → rest !! (k - j0)%nat = Some (g', t') →
        ¬ (36 * HOUR ≤ t' - ti ∧ t' - ti ≤ 12 * HOUR * (Z.of_nat k - Z.of_nat i)).
Proof.
  revert j0. induction rest as [|[g0 t0] rest IH]; intros j0 Hij; cbn [find_stretch]; [done|].
  cbv zeta.
  assert (Hnext : find_stretch i ti (S j0) rest = Some j →
                  ¬ (36 * HOUR ≤ t0 - ti ∧ t0 - ti ≤ 12 * HOUR * (Z.of_nat j0 - Z.of_nat i)) →
                  ∃ g tj, (j0 ≤ j)%nat ∧ ((g0, t0) :: rest) !! (j - j0)%nat = Some (g, tj)
                    ∧ 36 * HOUR ≤ tj - ti ∧ tj - ti ≤ 12 * HOUR * (Z.of_nat j - Z.of_nat i)
                    ∧ ∀ k g' t', (j0 ≤ k < j)%nat →
                        ((g0, t0) :: rest) !! (k - j0)%nat = Some (g', t') →
                        ¬ (36 * HOUR ≤ t' - ti ∧ t' - ti ≤ 12 * HOUR * (Z.of_nat k - Z.of_nat i))).
  { intros E Hno. destruct (IH (S j0) ltac:(lia) E) as (g & tj & Hle & Hl & H36 & H12 & Hmin).
    exists g, tj. split; [lia|]. split.
    { replace (j - j0)%nat with (S (j - S j0)) by lia. done. }
    split; [done|]. split; [done|].
    intros k g' t' Hk Hl'. destruct (decide (k = j0)) as [->|Hne].
    - rewrite Nat.sub_diag in Hl'. by injection Hl' as <- <-.
    - apply (Hmin k g' t'); [lia|].
      replace (k - j0)%nat with (S (k - S j0)) in Hl' by lia. done. }
  destruct (decide (36 * HOUR ≤ t0 - ti)) as [H36|H36]; [|intros E; apply Hnext; [done|tauto]].
  destruct (decide (0 < Z.of_nat j0 - Z.of_nat i)) as [Hpos|Hpos]; [|lia].
  destruct (Qle_bool _ _) eqn:Hm.
  - intros [= <-]. apply mean_le in Hm; [|done].
    exists g0, t0. split; [done|]. rewrite Nat.sub_diag. split; [done|].
    split; [done|]. split; [by unfold HOUR|]. intros k g' t' Hk. lia.
  - intros E. apply Hnext; [done|]. intros [_ H12].
    apply (mean_le _ _ (12 * 3600)) in H12; [|done]. congruence.
Qed.

(** X26. A stretch found by the productive-stretch scan from [subset[i]]
    ends at a later generation [subset[j]] that is at least 36 hours later
    with a mean distance of at most 12 hours between consecutive
    generations; so it holds at least four generations, and [j] is the first
    index after [i] with the two properties. *)
Theorem productive_stretch_found (subset : list (Z * Z)) (i j : nat) (gi ti : Z) :
  subset !! i = Some (gi, ti) →
  find_stretch i ti (S i) (drop (S i) subset) = Some j →
  ∃ gj tj, subset !! j = Some (gj, tj)
    ∧ 36 * HOUR ≤ tj - ti ∧ tj - ti ≤ 12 * HOUR * (Z.of_nat j - Z.of_nat i)
    ∧ (i + 3 ≤ j)%nat
    ∧ ∀ k gk tk, (i < k < j)%nat → subset !! k = Some (gk, tk) →
        ¬ (36 * HOUR ≤ tk - ti ∧ tk - ti ≤ 12 * HOUR * (Z.of_nat k - Z.of_nat i)).
Proof.
  intros Hi E. apply find_stretch_spec in E as (g & tj & Hle & Hl & H36 & H12 & Hmin); [|lia].
  rewrite lookup_drop in Hl. replace (S i + (j - S i))%nat with j in Hl by lia.
  exists g, tj. split; [done|]. split; [done|]. split; [done|].
  split; [unfold HOUR in *; lia|].
  intros k gk tk Hk Hlk. apply (Hmin k gk tk); [lia|].
  rewrite lookup_drop. by replace (S i + (k - S i))%nat with k by lia.
Qed.

Lemma prod_loop_short (subset : list (Z * Z)) (fuel i : nat) (st : kstate) :
  (length subset ≤ 3)%nat → (length subset ≤ fuel + i)%nat →
  prod_loop fuel subset i st = Some st.
Proof.
  intros Hlen. revert i. induction fuel as [|fuel IH]; intros i Hf; cbn [prod_loop].
  - case_decide; [lia|done].
  - case_decide as Hi; [|done].
    destruct (subset !! i) as [[first_gid first_ts]|] eqn:Ei.
    2: { apply lookup_ge_None in Ei. lia. }
    cbn [mbind option_bind].
    destruct (find_stretch _ _ _ _) as [j|] eqn:E.
    + apply find_stretch_spec in E as (g & tj & Hle & Hl & H36 & H12 & _); [|lia].
      apply lookup_lt_Some in Hl. rewrite length_drop in Hl. unfold HOUR in *. lia.
    + apply IH. lia.
Qed.

(** X27. With fewer than four generations between three and ten days old,
    the productive-stretch rule keeps nothing: it returns the keep-set it was
    given. *)
Theorem productive_needs_four (now : Z) (gens : list (Z * Z)) (st : kstate) :
  (length (filter (λ g, in_mid_tier now g.2 = true) gens) ≤ 3)%nat →
  keep_productive now gens st = Some st.
Proof.
  intros Hlen. unfold keep_productive. cbv zeta. case_decide; [|done].
  apply prod_loop_short; [done|lia].
Qed.

(** In binary64 the increments of [2^-70] after a first density of 1 are
    absorbed by the prefix sums: every candidate length has the same area and
    the loop keeps the first, shortest one, where the exact sums grow with the
    length and select the longest. *)
Lemma absorbed_increments_tie :
  select_indices absorbing_grid 5 10 PrimFloat.zero = Some [(0, 120)] ∧
  select_indices exact_grid 5 10 0%Q = Some [(0, 130)].
Proof. split; vm_compute; reflexivity. Qed.

(** * Witnesses of the further properties *)

(** X2 at the values 0, 5 and 10. *)
Lemma normalize_monotone_witness :
  ∃ qx qy, normalize [0; 5; 10] !! 0 = Some qx ∧ normalize [0; 5; 10] !! 10 = Some qy
           ∧ (qx <= qy)%Q.
Proof.
  apply (normalize_monotone [0; 5; 10] 0 10);
    [apply (bool_decide_unpack _); vm_compute; reflexivity
    |apply (bool_decide_unpack _); vm_compute; reflexivity
    |lia].
Defined.

(** X3 at two equal values. *)
Lemma normalize_constant_and_minimum_witness :
  (∃ q, normalize [7; 7] !! 7 = Some q ∧ (q == 0)%Q) ∧
  ((∀ y, y ∈ [7; 7] → y = 7) → normalize [7; 7] !! 7 = Some 0%Q).
Proof.
  apply (normalize_constant_and_minimum [7; 7] 7).
  - apply (bool_decide_unpack _); vm_compute; reflexivity.
  - intros y Hy. apply elem_of_cons in Hy as [->|Hy]; [lia|].
    apply elem_of_cons in Hy as [->|Hy]; [lia|]. by apply elem_of_nil in Hy.
Defined.

(** X4 at three generations without closures and git activity. *)
Lemma scores_without_activity_witness :
  ∃ s, scores no_features three_gens !! 3 = Some s ∧ (s == 1 # 10)%Q.
Proof.
  eexists. split; [vm_compute; reflexivity|].
  eapply (scores_without_activity no_features three_gens 0 3 _);
    [intros; reflexivity | intros; reflexivity | vm_compute; reflexivity].
Defined.

(** X5 at two generations with activity. *)
Lemma scores_of_two_generations_witness :
  ∃ s, scores some_features [(2, 0); (3, 7200)] !! 3 = Some s ∧ (s == 1 # 10)%Q.
Proof.
  eexists. split; [vm_compute; reflexivity|].
  eapply (scores_of_two_generations some_features [(2, 0); (3, 7200)] 3 _);
    [simpl; lia | vm_compute; reflexivity].
Defined.


(** X7 at two points on both sides of a full hour. *)
Lemma kernel_smooth_timestamps_witness :
  ∃ grid e, kernel_smooth exp_q two_points 12 = Some grid ∧ grid !! 1%nat = Some e ∧
            e.1 = floor_hour 3540 + HOUR * 1 ∧ e.1 ≤ floor_hour 3660.
Proof.
  eexists _, _. split; [vm_compute; reflexivity|]. split; [vm_compute; reflexivity|].
  eapply (kernel_smooth_timestamps exp_q (3540, (1 # 10)%Q) [(3660, (1 # 2)%Q)] 12 _ 1%nat _);
    [vm_compute; reflexivity | vm_compute; reflexivity].
Defined.

(** X8 at the same two points. *)
Lemma kernel_smooth_zero_bandwidth_witness : kernel_smooth exp_q two_points 0 = None.
Proof.
  apply (proj1 (kernel_smooth_zero_bandwidth exp_q (3540, (1 # 10)%Q) [(3660, (1 # 2)%Q)])).
  vm_compute. discriminate.
Defined.

(** X9 on a flat grid of 130 hours. *)
Lemma select_integral_windows_returns_witness :
  ∃ ws, select_integral_windows (flat_grid 130) 5 10 0%Q = Some ws ∧
        ∀ s e, (s, e) ∈ ws → s ∈ (flat_grid 130).*1 ∧ e ∈ (flat_grid 130).*1.
Proof. apply (select_integral_windows_returns (flat_grid 130) 5 10 0%Q). lia. Defined.

(** X10 on a flat grid of 10 hours. *)
Lemma select_integral_windows_short_grid_witness :
  select_integral_windows (flat_grid 10) 5 10 0%Q = Some [].
Proof.
  apply (select_integral_windows_short_grid (flat_grid 10) 5 10 0%Q). vm_compute. reflexivity.
Defined.

(** X11 on a flat grid of 130 hours. *)
Lemma selected_window_is_best_witness :
  gt_orders (λ _ : Q, True) ∧
  ∃ selected, select_indices (flat_grid 130) 5 10 0%Q = Some selected ∧
    best_window (Z.of_nat (length (flat_grid 130))) (prefix_sums (flat_grid 130).*2) 0%Q
                (5 * 24) (10 * 24) (0, 120).
Proof.
  split; [apply Q_gt_orders|].
  eexists. split; [vm_compute; reflexivity|].
  eapply (selected_window_is_best (λ _ : Q, True) (flat_grid 130) 5 10 0%Q _ 0 120);
    [apply Q_gt_orders | done | vm_compute; reflexivity | apply list_elem_of_here].
Defined.

(** X12 at a run where generation 4 is booted. *)
Lemma plan_partitions_listing_witness :
  ∃ kept del, report (main exp_q plan_args world_booted) = Some (kept, del) ∧
    StronglySorted Z.le del ∧
    (∀ g, g ∈ del → g ∈ (listing world_booted).*1 ∧ g ∉ dom kept) ∧
    (∀ g, g ∈ (listing world_booted).*1 → g ∈ dom kept ∨ g ∈ del ∨ protected world_booted g).
Proof.
  eexists _, _. split; [vm_compute; reflexivity|].
  eapply (plan_partitions_listing exp_q plan_args world_booted). vm_compute. reflexivity.
Defined.

(** X13 at the latest generation of that run. *)
Lemma recent_generations_kept_witness :
  ∃ kept del, report (main exp_q plan_args world_booted) = Some (kept, del) ∧
              4 ∈ dom kept ∧ 4 ∉ del.
Proof.
  eexists _, _. split; [vm_compute; reflexivity|].
  eapply (recent_generations_kept exp_q plan_args world_booted _ _ 4 (5 * DAY));
    [vm_compute; reflexivity
    |apply (bool_decide_unpack _); vm_compute; reflexivity
    |left; vm_compute; discriminate].
Defined.

(** X14 at a run with generation 2 pinned. *)
Lemma pinned_generations_kept_witness :
  ∃ kept del, report (main exp_q plan_args world_pinned) = Some (kept, del) ∧
              kept !! 2 = Some "pinned"%string ∧ 2 ∉ del.
Proof.
  eexists _, _. split; [vm_compute; reflexivity|].
  eapply (pinned_generations_kept exp_q plan_args world_pinned pinned_state _ _ 2);
    [vm_compute; reflexivity
    |reflexivity
    |vm_compute; reflexivity
    |apply (bool_decide_unpack _); vm_compute; reflexivity].
Defined.

(** X15 at the protected generation 3. *)
Lemma kept_ids_and_reasons_witness :
  ∃ kept del r, report (main exp_q plan_args world_booted) = Some (kept, del) ∧
    kept !! 3 = Some r ∧
    (3 ∈ (listing world_booted).*1 ∨ protected world_booted 3) ∧
    r ∈ reason_vocabulary ∧ r ≠ EmptyString.
Proof.
  eexists _, _, _. split; [vm_compute; reflexivity|]. split; [vm_compute; reflexivity|].
  eapply (kept_ids_and_reasons exp_q plan_args world_booted _ _ 3 _);
    [vm_compute; reflexivity | vm_compute; reflexivity].
Defined.

(** X16 at generation 2, five days old, of the same day as generation 3. *)
Lemma daily_latest_kept_witness :
  ∃ kept del, report (main exp_q plan_args world_failing) = Some (kept, del) ∧
    ∃ g' t', (g', t') ∈ listing world_failing ∧ date_key t' = date_key 0 ∧ 0 ≤ t' ∧
             g' ∈ dom kept ∧ g' ∉ del.
Proof.
  eexists _, _. split; [vm_compute; reflexivity|].
  eapply (daily_latest_kept exp_q plan_args world_failing _ _ 2 0);
    [vm_compute; reflexivity
    |apply (bool_decide_unpack _); vm_compute; reflexivity
    |split; vm_compute; [reflexivity | discriminate]].
Defined.

(** X17 at generation 1, a hundred days old. *)
Lemma monthly_latest_kept_witness :
  ∃ kept del, report (main exp_q plan_args world_old) = Some (kept, del) ∧
    ∃ g' t', (g', t') ∈ listing world_old ∧ month_key t' = month_key 0 ∧ 0 ≤ t' ∧
             g' ∈ dom kept ∧ g' ∉ del.
Proof.
  destruct (main_reports exp_q plan_args world_old empty_state) as (kept & del & Hrep);
    [discriminate | discriminate | reflexivity | reflexivity | reflexivity |].
  exists kept, del. split; [exact Hrep|].
  apply (monthly_latest_kept exp_q plan_args world_old _ _ 1 0 Hrep);
    [apply (bool_decide_unpack _); vm_compute; reflexivity
    |vm_compute; reflexivity].
Defined.

(** X18 at a run with [--apply] and a state file. *)
Lemma state_only_extended_witness :
  ∃ s, file_after (main exp_q apply_args world_pinned) = Document s ∧
       (∀ k : string, k ∉ ["gens"; "kept"; "meta"; "deleted"]%string →
                      getpath s [k] = getpath pinned_state [k]) ∧
       (∀ g, is_pinned s g = is_pinned pinned_state g) ∧
       getpath s ["meta"; "last_run"]%string = Some (JStr (clock world_pinned)) ∧
       (∀ k : string, k ≠ "last_run"%string →
                      getpath s ["meta"; k]%string = getpath pinned_state ["meta"; k]%string) ∧
       (∀ k : string, (∀ gid, gid ∈ (listing world_pinned).*1 → k ≠ str gid) →
                      getpath s ["gens"; k]%string = getpath pinned_state ["gens"; k]%string) ∧
       deleted_history (state_file world_pinned)
         `prefix_of` deleted_history (file_after (main exp_q apply_args world_pinned)).
Proof.
  eapply (state_only_extended exp_q apply_args world_pinned pinned_state);
    [vm_compute; reflexivity | reflexivity | vm_compute; reflexivity].
Defined.

(** X19 at a run whose state file cannot be parsed. *)
Lemma no_plan_no_effect_witness :
  trace (main exp_q apply_args world_corrupt) = [] ∧
  file_after (main exp_q apply_args world_corrupt) = state_file world_corrupt.
Proof.
  apply (no_plan_no_effect exp_q apply_args world_corrupt). vm_compute. reflexivity.
Defined.

(** X20 at a run with [--apply]. *)
Lemma commands_follow_the_plan_witness :
  apply apply_args = true ∧ dry_run apply_args = false ∧
  ∃ kept del, report (main exp_q apply_args world_failing) = Some (kept, del) ∧ del ≠ [] ∧
              head (trace (main exp_q apply_args world_failing))
              = Some (RunDeleteGenerations del) ∧
              ∀ g, g ∈ del → g ∈ (listing world_failing).*1 ∧ g ∉ dom kept.
Proof.
  apply (commands_follow_the_plan exp_q apply_args world_failing PrintStderr).
  vm_compute. right. left.
Defined.

(** X21 at a run with [--sigma-hours 0]. *)
Lemma zero_sigma_aborts_witness :
  exit_code (main exp_q zero_sigma_args world_booted) = None ∧
  report (main exp_q zero_sigma_args world_booted) = None ∧
  trace (main exp_q zero_sigma_args world_booted) = [] ∧
  file_after (main exp_q zero_sigma_args world_booted) = state_file world_booted.
Proof.
  apply (zero_sigma_aborts exp_q zero_sigma_args world_booted 2 0 [(3, 7200); (4, 5 * DAY)]);
    [reflexivity | reflexivity | vm_compute; discriminate].
Defined.

(** X22 at a plan-only run and a later run with [--apply]. *)
Lemma plan_same_in_both_modes_witness :
  report (main exp_q apply_args world_booted_later) = report (main exp_q plan_args world_booted).
Proof.
  apply (plan_same_in_both_modes exp_q plan_args apply_args world_booted world_booted_later);
    reflexivity.
Defined.

(** X24 at three rows out of order. *)
Lemma now_is_latest_timestamp_witness : 50 ≤ now_of (list_generations unordered_rows).
Proof.
  apply (now_is_latest_timestamp unordered_rows 3 50).
  apply (bool_decide_unpack _); vm_compute; reflexivity.
Defined.

(** X25 at a diff with one binary file. *)
Lemma git_lines_delta_counts_witness :
  0 ≤ Git.git_lines_delta two_commits 0 100 ∧ Git.git_lines_delta two_commits 0 50 = 0.
Proof.
  split; [apply (proj1 (git_lines_delta_counts two_commits 0 100))|].
  apply (proj1 (proj2 (git_lines_delta_counts two_commits 0 50))).
  right. right. right. reflexivity.
Defined.

(** X26 at four builds twelve hours apart. *)
Lemma productive_stretch_found_witness :
  ∃ gj tj, four_builds !! 3%nat = Some (gj, tj)
    ∧ 36 * HOUR ≤ tj - 0 ∧ tj - 0 ≤ 12 * HOUR * (Z.of_nat 3 - Z.of_nat 0)
    ∧ (0 + 3 ≤ 3)%nat
    ∧ ∀ k gk tk, (0 < k < 3)%nat → four_builds !! k = Some (gk, tk) →
        ¬ (36 * HOUR ≤ tk - 0 ∧ tk - 0 ≤ 12 * HOUR * (Z.of_nat k - Z.of_nat 0)).
Proof.
  apply (productive_stretch_found four_builds 0 3 1 0); [reflexivity | vm_compute; reflexivity].
Defined.

(** X27 at three generations, two of them five days old. *)
Lemma productive_needs_four_witness :
  keep_productive (5 * DAY) three_gens (∅, ∅) = Some (∅, ∅).
Proof. apply (productive_needs_four (5 * DAY) three_gens (∅, ∅)). vm_compute. lia. Defined.

(** X30 at a state file written by hand, at one without [meta] and at one
    without [deleted]. *)
Lemma ill_shaped_state_aborts_witness :
  main exp_q plan_args world_pinned_only = raised (state_file world_pinned_only) ∧
  (is_Some (report (main exp_q plan_args world_no_meta)) ∧
   exit_code (main exp_q plan_args world_no_meta) = None ∧
   trace (main exp_q plan_args world_no_meta) = [] ∧
   file_after (main exp_q plan_args world_no_meta) = state_file world_no_meta) ∧
  exit_code (main exp_q apply_args world_no_deleted) = None.
Proof.
  split; [|split].
  - apply (ill_shaped_state_aborts exp_q plan_args world_pinned_only pinned_only);
      [discriminate | reflexivity | reflexivity].
  - apply (ill_shaped_state_aborts exp_q plan_args world_no_meta no_meta);
      [discriminate | reflexivity | reflexivity | reflexivity | discriminate].
  - eapply (ill_shaped_state_aborts exp_q apply_args world_no_deleted no_deleted);
      [discriminate | reflexivity | reflexivity | reflexivity | reflexivity | reflexivity
      | vm_compute; reflexivity | discriminate].
Defined.
